(** * BcBData: a shallow embedding of [BcBData.py] and its specification

    The Python module downloads time series from two HTTP services of the
    Banco Central do Brasil and offers three numeric transforms.  This file
    embeds the seven functions of the module

      get_series, get_multiple_series, create_query_url,
      get_market_expectations, mom2index, index2yoy, mom2yoy

    and states the properties of the specification about them.

    Conventions of the embedding

    - A Python [str] is a list of Unicode code points ([list N]); [lit]
      turns an ASCII literal into such a list.
    - A function that can raise returns a [result].
    - Functions that talk to the network, or that receive a reference to a
      mutable Python list, run in the monad [M] over a [world]: the heap of
      list objects and the log of the URLs requested so far.
    - pandas is a library, not part of the module: its operations are
      modelled in the modules [Pd], [Frame], [Loc] and [Expect] as far as
      the embedded functions use them, and inputs that leave the modelled
      part yield [NotModelled].
    - The transforms are written over an interface of numbers, [Numeric],
      with two instances: IEEE 754 binary64 ([float64]), which is what
      pandas computes with, and exact rationals ([exact]). *)

From Stdlib Require Import ZArith NArith List String Ascii Lia Bool.
From Stdlib Require Import Floats.
From Stdlib Require Import QArith Qcanon.
From Stdlib Require DecimalPos DecimalNat.
From stdpp Require Import base option list gmap.

Open Scope Z_scope.

(* ===================================================================== *)
(** * Part I. Definitions                                                 *)
(* ===================================================================== *)

(** ** Python strings *)

Abbreviation pystr := (list N).

Module PyStr.

(** An ASCII literal of the source as a list of code points. *)
Definition lit (s : string) : pystr :=
  map N_of_ascii (list_ascii_of_string s).
#[global] Arguments lit : simpl never.

(** The three accented literals of [create_query_url], as the source file
    spells them (precomposed characters U+00E2, U+00E7 U+00E3, U+00ED). *)
Definition a_circumflex : pystr := [226%N].
Definition c_cedilla_a_tilde : pystr := [231%N; 227%N].
Definition i_acute : pystr := [237%N].

Fixpoint startswith (s prefix : pystr) {struct prefix} : bool :=
  match prefix, s with
  | [], _ => true
  | _ :: _, [] => false
  | p :: prefix', c :: s' => N.eqb p c && startswith s' prefix'
  end.

(** [replace_from old new skip s]: the scan of [str.replace] over a
    non-empty pattern; [skip] counts the characters of a match that are
    still to be passed over, so that matches do not overlap. *)
Fixpoint replace_from (old new : pystr) (skip : nat) (s : pystr) : pystr :=
  match s with
  | [] => []
  | c :: s' =>
      match skip with
      | S k => replace_from old new k s'
      | O =>
          if startswith s old
          then new ++ replace_from old new (length old - 1) s'
          else c :: replace_from old new 0 s'
      end
  end.

(** [s.replace(old, new)]: every non-overlapping occurrence, leftmost
    first.  With an empty pattern Python inserts [new] around every
    character. *)
Definition replace (s old new : pystr) : pystr :=
  match old with
  | [] => new ++ flat_map (fun c => c :: new) s
  | _ :: _ => replace_from old new 0 s
  end.

(** The same scan for a pattern of two characters [a], [b], written by
    structural recursion: what [replace] is compared with in the proofs. *)
Fixpoint replace_pair (a b : N) (new s : pystr) : pystr :=
  match s with
  | [] => []
  | c :: s' =>
      match s' with
      | c' :: s'' =>
          if N.eqb c a && N.eqb c' b then new ++ replace_pair a b new s''
          else c :: replace_pair a b new s'
      | [] => [c]
      end
  end.

(** [sep.join(items)]. *)
Fixpoint join (sep : pystr) (items : list pystr) : pystr :=
  match items with
  | [] => []
  | [x] => x
  | x :: rest => x ++ sep ++ join sep rest
  end.

Definition digit_char (d : N) : N := (48 + d)%N.

Fixpoint str_of_uint (u : Decimal.uint) : pystr :=
  match u with
  | Decimal.Nil => []
  | Decimal.D0 u => digit_char 0 :: str_of_uint u
  | Decimal.D1 u => digit_char 1 :: str_of_uint u
  | Decimal.D2 u => digit_char 2 :: str_of_uint u
  | Decimal.D3 u => digit_char 3 :: str_of_uint u
  | Decimal.D4 u => digit_char 4 :: str_of_uint u
  | Decimal.D5 u => digit_char 5 :: str_of_uint u
  | Decimal.D6 u => digit_char 6 :: str_of_uint u
  | Decimal.D7 u => digit_char 7 :: str_of_uint u
  | Decimal.D8 u => digit_char 8 :: str_of_uint u
  | Decimal.D9 u => digit_char 9 :: str_of_uint u
  end.

(** [str(n)] for a non-negative and for an arbitrary integer. *)
Definition str_of_nat (n : nat) : pystr := str_of_uint (Nat.to_uint n).

Definition str_of_Z (z : Z) : pystr :=
  match z with
  | Z0 => lit "0"
  | Zpos p => str_of_uint (Pos.to_uint p)
  | Zneg p => lit "-" ++ str_of_uint (Pos.to_uint p)
  end.

(** ASCII decimal digits, and the value of a string of them. *)
Definition is_digit (c : N) : bool := (48 <=? c)%N && (c <=? 57)%N.

Definition digit_value (c : N) : Z := Z.of_N c - 48.

Definition digits_value (s : pystr) : Z :=
  fold_left (fun acc c => 10 * acc + digit_value c) s 0.

Definition all_digits (s : pystr) : bool := forallb is_digit s.

(** [s.split(sep)] for a one-character separator. *)
Fixpoint split_on (sep : N) (s : pystr) : list pystr :=
  match s with
  | [] => [[]]
  | c :: s' =>
      if N.eqb c sep then [] :: split_on sep s'
      else match split_on sep s' with
           | [] => [[c]]
           | w :: ws => (c :: w) :: ws
           end
  end.

End PyStr.

Import PyStr.

(** ** Exceptions and results *)

Inductive exn : Type :=
| Exception (msg : pystr)     (* [raise Exception(msg)] in the module itself *)
| PandasError (kind : pystr)  (* an exception raised inside pandas *)
| TransportError (msg : pystr)(* raised by the HTTP collaborator *)
| NotModelled.                (* the input leaves the modelled part of pandas *)

Inductive result (A : Type) : Type :=
| Ok (a : A)
| Err (e : exn).
Arguments Ok {A} a.
Arguments Err {A} e.

Definition rbind {A B} (r : result A) (k : A -> result B) : result B :=
  match r with
  | Ok a => k a
  | Err e => Err e
  end.

Fixpoint rmap {A B} (f : A -> result B) (l : list A) : result (list B) :=
  match l with
  | [] => Ok []
  | x :: l' =>
      rbind (f x) (fun y => rbind (rmap f l') (fun ys => Ok (y :: ys)))
  end.

(** ** create_query_url *)

Definition urls_dict_entries : list (pystr * pystr) :=
    [ (lit "annual", lit "https://olinda.bcb.gov.br/olinda/servico/Expectativas/versao/v1/odata/ExpectativasMercadoAnuais");
      (lit "quarterly", lit "https://olinda.bcb.gov.br/olinda/servico/Expectativas/versao/v1/odata/ExpectativasMercadoTrimestrais");
      (lit "monthly", lit "https://olinda.bcb.gov.br/olinda/servico/Expectativas/versao/v1/odata/ExpectativaMercadoMensais");
      (lit "inflation-12-months", lit "https://olinda.bcb.gov.br/olinda/servico/Expectativas/versao/v1/odata/ExpectativasMercadoInflacao12Meses");
      (lit "top5s-monthly", lit "https://olinda.bcb.gov.br/olinda/servico/Expectativas/versao/v1/odata/ExpectativasMercadoTop5Mensais");
      (lit "top5s-annual", lit "https://olinda.bcb.gov.br/olinda/servico/Expectativas/versao/v1/odata/ExpectativasMercadoTop5Anuais");
      (lit "institutions", lit "https://olinda.bcb.gov.br/olinda/servico/Expectativas/versao/v1/odata/ExpectativasMercadoInstituicoes") ].

Definition urls_dict : gmap pystr pystr := list_to_map urls_dict_entries.

(** Python truthiness of an optional list and of an optional string:
    [None] and the empty value are false. *)
Definition truthy {A} (o : option (list A)) : bool :=
  match o with
  | Some (_ :: _) => true
  | _ => false
  end.

Definition select : pystr :=
  lit "Indicador,Data,DataReferencia,Media,Mediana,DesvioPadrao,Minimo,Maximo,numeroRespondentes,baseCalculo".

Definition create_query_url (frequency : pystr)
    (Indicators : option (list pystr)) (start end_ : option pystr)
  : result pystr :=
  match urls_dict !! frequency with
  | None => Err (Exception (lit "Frequency doesn't exist"))
  | Some url_base =>
      let filters : list pystr := [] in
      let filters :=
        if truthy Indicators then
          let indic_filter :=
            join (lit " or ")
              (map (fun i => lit "Indicador eq '" ++ i ++ lit "'")
                 (default [] Indicators)) in
          filters ++ [indic_filter]
        else filters in
      let filters :=
        if truthy start then
          let start_filter := lit "Data ge '" ++ default [] start ++ lit "'" in
          filters ++ [start_filter]
        else filters in
      let filters :=
        if truthy end_ then
          let end_filter := lit "Data le '" ++ default [] end_ ++ lit "'" in
          filters ++ [end_filter]
        else filters in
      let filters_string := replace (join (lit " and ") filters) (lit " ") (lit "%20") in
      let query :=
        lit "?$top=100000000&" ++ lit "$filter=" ++ filters_string ++ lit "&"
        ++ lit "$format=text/csv&" ++ lit "$select=" ++ select in
      let url := url_base ++ query in
      let url :=
        replace
          (replace (replace url a_circumflex (lit "%C3%A2"))
             c_cedilla_a_tilde (lit "%C3%A7%C3%A3o"))
          i_acute (lit "%C3%AD") in
      Ok url
  end.

(** ** The part of pandas the module uses *)

(** Calendar dates: the day-resolution timestamps the two services send. *)
Record date : Type := mkdate { year : Z; month : Z; day : Z }.

#[global] Instance date_eq_dec : EqDecision date.
Proof. solve_decision. Defined.

(** An index label or a value of a datetime column: [None] is [NaT]. *)
Abbreviation stamp := (option date).

(** A cell of a CSV payload or of a frame built from one. *)
Inductive cell : Type :=
| Str (s : pystr)
| Int (z : Z)
| Flt (x : float)
| Stamp (d : date)
| NA.

(** The marker pandas fills in where a frame has no value. *)
Class Missing (V : Type) := na : V.
#[global] Instance cell_missing : Missing cell := NA.

(** The order in which pandas lists the labels of two indexes it joins;
    it depends on the index type and on whether the operands are sorted,
    so it stays a parameter of the model. *)
Class IndexUnion (L : Type) := index_union : list L -> list L -> list L.

(** What every such order has in common: the union holds the labels of
    both operands, and no label twice when neither operand does. *)
Class IndexUnionLaws (L : Type) `{IndexUnion L} : Prop := {
  elem_of_index_union : forall (a b : list L) x,
    x ∈ index_union a b <-> x ∈ a \/ x ∈ b;
  NoDup_index_union : forall a b : list L,
    NoDup a -> NoDup b -> NoDup (index_union a b)
}.

Module Pd.

Definition date_leb (a b : date) : bool :=
  (year a <? year b)
  || ((year a =? year b)
      && ((month a <? month b)
          || ((month a =? month b) && (day a <=? day b)))).

Definition date_ltb (a b : date) : bool := negb (date_leb b a).

Definition is_leap (y : Z) : bool :=
  ((y mod 4 =? 0) && negb (y mod 100 =? 0)) || (y mod 400 =? 0).

Definition days_in_month (y m : Z) : Z :=
  if (m =? 2) then (if is_leap y then 29 else 28)
  else if (m =? 4) || (m =? 6) || (m =? 9) || (m =? 11) then 30
  else 31.

(** The midnights a nanosecond [Timestamp] can hold. *)
Definition Timestamp_min : date := mkdate 1677 9 22.
Definition Timestamp_max : date := mkdate 2262 4 11.

Definition ValueError : exn := PandasError (lit "ValueError").
Definition KeyError : exn := PandasError (lit "KeyError").
Definition TypeError : exn := PandasError (lit "TypeError").
Definition IndexError : exn := PandasError (lit "IndexError").
Definition OutOfBoundsDatetime : exn := PandasError (lit "OutOfBoundsDatetime").
Definition DateParseError : exn := PandasError (lit "DateParseError").

(** The days of the calendar, as [datetime] checks them: the years start
    at 1. *)
Definition is_calendar_day (y m d : Z) : bool :=
  (1 <=? y) && (1 <=? m) && (m <=? 12) && (1 <=? d) && (d <=? days_in_month y m).

Definition make_date (y m d : Z) : result date :=
  let r := mkdate y m d in
  if is_calendar_day y m d then
    if date_leb Timestamp_min r && date_leb r Timestamp_max then Ok r
    else Err OutOfBoundsDatetime
  else Err ValueError.

(** A field of one or two ASCII digits ([%d], [%m]) and one of exactly four
    ([%Y]). *)
Definition short_field (s : pystr) : bool :=
  all_digits s && ((length s =? 1)%nat || (length s =? 2)%nat).

Definition year_field (s : pystr) : bool :=
  all_digits s && (length s =? 4)%nat.

(** The three formats the module passes to [pd.to_datetime]. *)
Inductive format : Type :=
| fmt_dmY   (* '%d/%m/%Y' *)
| fmt_mY    (* '%m/%Y' *)
| fmt_Y.    (* '%Y' *)

(** Parsing one string with a format.  Strings made of ASCII digits and
    slashes are parsed as [strptime] does; any other character leaves the
    model (Python also accepts a space-padded day and non-ASCII digits). *)
Definition strptime (f : format) (s : pystr) : result date :=
  if forallb (fun c => is_digit c || N.eqb c 47) s then
    match f, split_on 47 s with
    | fmt_dmY, [d; m; y] =>
        if short_field d && short_field m && year_field y
        then make_date (digits_value y) (digits_value m) (digits_value d)
        else Err ValueError
    | fmt_mY, [m; y] =>
        if short_field m && year_field y
        then make_date (digits_value y) (digits_value m) 1
        else Err ValueError
    | fmt_Y, [y] =>
        if year_field y then make_date (digits_value y) 1 1 else Err ValueError
    | _, _ => Err ValueError
    end
  else Err NotModelled.

(** [pd.to_datetime(column, format=f)] on one cell: strings are parsed,
    integers are parsed through their decimal spelling, a missing cell
    becomes [NaT]. *)
Definition to_datetime_cell (f : format) (c : cell) : result cell :=
  match c with
  | Str s => rbind (strptime f s) (fun d => Ok (Stamp d))
  | Int z => if z <? 0 then Err ValueError
             else rbind (strptime f (str_of_Z z)) (fun d => Ok (Stamp d))
  | Stamp d => Ok (Stamp d)
  | NA => Ok NA
  | Flt _ => Err NotModelled
  end.

Definition to_datetime (f : format) (col : list cell) : result (list cell) :=
  rmap (to_datetime_cell f) col.

(** An ISO date ['yyyy-mm-dd']: the documented form of [start] and [end],
    and the form of the observation dates of the expectations service.
    pandas parses many other spellings; they leave the model. *)
Definition iso_fields (s : pystr) : option (Z * Z * Z) :=
  match split_on 45 s with
  | [y; m; d] =>
      if year_field y && all_digits m && (length m =? 2)%nat
         && all_digits d && (length d =? 2)%nat
      then Some (digits_value y, digits_value m, digits_value d)
      else None
  | _ => None
  end.

Definition parse_iso_date (s : pystr) : result date :=
  match iso_fields s with
  | Some (y, m, d) => if 1 <=? y then make_date y m d else Err NotModelled
  | None => Err NotModelled
  end.

(** [pd.to_datetime(column)] without a format. *)
Definition to_datetime_default_cell (c : cell) : result cell :=
  match c with
  | Str s => rbind (parse_iso_date s) (fun d => Ok (Stamp d))
  | Stamp d => Ok (Stamp d)
  | NA => Ok NA
  | Int _ | Flt _ => Err NotModelled
  end.

Definition to_datetime_default (col : list cell) : result (list cell) :=
  rmap to_datetime_default_cell col.

End Pd.

(** ** Series and frames *)

(** A [pd.Series]: a name and the (label, value) pairs in row order. *)
Record Series (L V : Type) : Type :=
  mkSeries { sname : pystr; items : list (L * V) }.
Arguments mkSeries {L V} sname items.
Arguments sname {L V} s.
Arguments items {L V} s.

(** A [pd.DataFrame]: the row labels and the named columns, every column
    as long as the index. *)
Record DataFrame (L V : Type) : Type :=
  mkFrame { index : list L; columns : list (pystr * list V) }.
Arguments mkFrame {L V} index columns.
Arguments index {L V} d.
Arguments columns {L V} d.

(** What the transforms accept and [get_series] returns. *)
Inductive pdobj (L V : Type) : Type :=
| PSeries (s : Series L V)
| PFrame (f : DataFrame L V).
Arguments PSeries {L V} s.
Arguments PFrame {L V} f.

#[global] Instance result_ret : MRet result := @Ok.
#[global] Instance result_bind : MBind result := fun A B k r => rbind r k.
#[global] Instance result_fmap : FMap result :=
  fun A B f r => rbind r (fun a => Ok (f a)).

Module Frame.
Section frame.
Context {L V : Type} `{EqDecision L} `{Missing V} `{IndexUnion L}.

(** [pd.DataFrame()]. *)
Definition empty : DataFrame L V := mkFrame [] [].

(** [pd.DataFrame(series)]: one column, called as the series is. *)
Definition of_series (s : Series L V) : DataFrame L V :=
  mkFrame (map fst (items s)) [(sname s, map snd (items s))].

Fixpoint assoc (l : L) (rows : list (L * V)) : option V :=
  match rows with
  | [] => None
  | (k, v) :: rows' => if decide (k = l) then Some v else assoc l rows'
  end.

(** The column [vals], laid out over [old], laid out again over [new];
    labels that [old] does not have get the missing marker. *)
Definition reindex (old new : list L) (vals : list V) : list V :=
  map (fun l => default na (assoc l (zip old vals))) new.

Definition reindex_columns (old new : list L) (cols : list (pystr * list V))
  : list (pystr * list V) :=
  map (fun c => (fst c, reindex old new (snd c))) cols.

(** [pd.concat([f, g], axis=1)]: the columns of both over the union of
    the row labels.  Equal indexes are kept as they are; otherwise pandas
    lays both frames out over the union.  With a label repeated in an
    index it may refuse to: that case is not modelled. *)
Definition concat (f g : DataFrame L V) : result (DataFrame L V) :=
  if decide (index f = index g) then
    Ok (mkFrame (index f) (columns f ++ columns g))
  else if decide (NoDup (index f) /\ NoDup (index g)) then
    let idx := index_union (index f) (index g) in
    Ok (mkFrame idx (reindex_columns (index f) idx (columns f)
                     ++ reindex_columns (index g) idx (columns g)))
  else Err NotModelled.

(** [df[c]] for a frame whose column names are distinct. *)
Definition getitem (f : DataFrame L V) (c : pystr) : result (Series L V) :=
  match list_find (fun col => fst col = c) (columns f) with
  | Some (_, (_, vals)) => Ok (mkSeries c (zip (index f) vals))
  | None => Err Pd.KeyError
  end.

(** [df[c] = vals]: replaces the column in place, or appends it. *)
Fixpoint set_column (cols : list (pystr * list V)) (c : pystr) (vals : list V)
  : list (pystr * list V) :=
  match cols with
  | [] => [(c, vals)]
  | (c', v') :: cols' =>
      if decide (c' = c) then (c, vals) :: cols'
      else (c', v') :: set_column cols' c vals
  end.

(** [df.iloc[i:j]]. *)
Definition iloc (i j : nat) (f : DataFrame L V) : DataFrame L V :=
  mkFrame (take (j - i) (drop i (index f)))
          (map (fun c => (fst c, take (j - i) (drop i (snd c)))) (columns f)).

(** [df.take(positions)] for the positions of the rows whose label passes
    [keep], in row order. *)
Definition take_rows (keep : L -> bool) (f : DataFrame L V) : DataFrame L V :=
  mkFrame (List.filter keep (index f))
          (map (fun c => (fst c,
                          map snd (List.filter (fun row => keep (fst row))
                                     (zip (index f) (snd c)))))
               (columns f)).

End frame.
End Frame.

(** ** Label slicing of a date index *)

Module Loc.

Fixpoint searchsorted_left (idx : list date) (d : date) : nat :=
  match idx with
  | [] => O
  | x :: idx' => if Pd.date_ltb x d then S (searchsorted_left idx' d) else O
  end.

Fixpoint searchsorted_right (idx : list date) (d : date) : nat :=
  match idx with
  | [] => O
  | x :: idx' => if Pd.date_leb x d then S (searchsorted_right idx' d) else O
  end.

Fixpoint is_monotonic_increasing (idx : list date) : bool :=
  match idx with
  | [] => true
  | x :: idx' =>
      match idx' with
      | [] => true
      | y :: _ => Pd.date_leb x y && is_monotonic_increasing idx'
      end
  end.

Fixpoint is_strictly_decreasing (idx : list date) : bool :=
  match idx with
  | [] => true
  | x :: idx' =>
      match idx' with
      | [] => true
      | y :: _ => Pd.date_ltb y x && is_strictly_decreasing idx'
      end
  end.

(** The labels as dates, when none of them is [NaT]. *)
Definition dates (idx : list stamp) : option (list date) := mapM id idx.

(** A reverse-sorted index: two dates or more, none missing, every one
    earlier than the one before. *)
Definition reverse_sorted (idx : list stamp) : bool :=
  match dates idx with
  | Some ds => negb (is_monotonic_increasing ds) && is_strictly_decreasing ds
  | None => false
  end.

(** The last day that lies whole inside the range of a [Timestamp]: pandas
    widens a day given as a bound to the whole day, up to its last
    nanosecond, and [Timestamp.max] falls on 2262-04-11 before midnight. *)
Definition bound_max : date := mkdate 2262 4 10.

(** A bound of the slice.  A string ['yyyy-mm-dd'] is a day; one that
    names no day of the calendar is refused as an indexer ([TypeError]),
    one whose day does not lie whole inside the range of a [Timestamp]
    raises [OutOfBoundsDatetime].  pandas reads many other spellings; they
    leave the model. *)
Definition parse_bound (b : option pystr) : result (option date) :=
  match b with
  | None => Ok None
  | Some s =>
      match Pd.iso_fields s with
      | Some (y, m, d) =>
          if Pd.is_calendar_day y m d then
            if Pd.date_leb Pd.Timestamp_min (mkdate y m d)
               && Pd.date_leb (mkdate y m d) bound_max
            then Ok (Some (mkdate y m d))
            else Err Pd.OutOfBoundsDatetime
          else Err Pd.TypeError
      | None => Err NotModelled
      end
  end.

(** Whether a label lies between the two bounds, both included; [NaT]
    compares false with every bound. *)
Definition in_range (lo hi : option date) (l : stamp) : bool :=
  match l with
  | Some d =>
      from_option (fun a => Pd.date_leb a d) true lo
      && from_option (fun b => Pd.date_leb d b) true hi
  | None => false
  end.

(** The rows between two bounds, one of them given.  On an index in
    ascending order pandas searches the sorted index for the two ends and
    keeps the rows between the two positions.  On any other index it
    compares every label with the bounds and takes the rows that pass.
    For a reverse-sorted index it first moves a bound to the other end of
    its day: this leaves an upper bound as it is for labels at midnight,
    and the case of a lower bound is not modelled. *)
Definition slice_between {V} (lo hi : option date) (f : DataFrame stamp V)
  : result (DataFrame stamp V) :=
  match dates (index f) with
  | Some idx =>
      if is_monotonic_increasing idx then
        let i := from_option (searchsorted_left idx) O lo in
        let j := from_option (searchsorted_right idx) (length idx) hi in
        Ok (Frame.iloc i j f)
      else if is_strictly_decreasing idx then
        match lo with
        | None => Ok (Frame.take_rows (in_range None hi) f)
        | Some _ => Err NotModelled
        end
      else Ok (Frame.take_rows (in_range lo hi) f)
  | None => Ok (Frame.take_rows (in_range lo hi) f)
  end.

(** [df.loc[slice(start, end)]] on a frame indexed by dates, as pandas 1.x
    does it.  Without bounds the frame is returned whole. *)
Definition loc_slice {V} (start end_ : option pystr) (f : DataFrame stamp V)
  : result (DataFrame stamp V) :=
  match start, end_ with
  | None, None => Ok f
  | _, _ =>
      lo ← parse_bound start;
      hi ← parse_bound end_;
      slice_between lo hi f
  end.

End Loc.

(** ** The world: list objects, the network, the requests made *)

(** A CSV payload as [pd.read_csv] hands it over: the header and the cells
    of every column, in column order. *)
Abbreviation table := (list (pystr * list cell)).

(** References to Python list objects. *)
Abbreviation loc := nat.

Record world : Type := mkWorld {
  heap : gmap loc (list pystr);       (* the list objects alive *)
  requests : list pystr;              (* the URLs requested so far, oldest first *)
  server : list pystr -> pystr -> result table
                                      (* the answer to a URL, given the earlier requests *)
}.

(** The world after one more request. *)
Definition logged (w : world) (url : pystr) : world :=
  mkWorld (heap w) (requests w ++ [url]) (server w).

(** The world after the caller's list object grew. *)
Definition extended (w : world) (l : loc) (names : list pystr) : world :=
  mkWorld (<[l := names]> (heap w)) (requests w) (server w).

Definition M (A : Type) : Type := world -> result A * world.

#[global] Instance M_ret : MRet M := fun A a w => (Ok a, w).
#[global] Instance M_bind : MBind M := fun A B k m w =>
  match m w with
  | (Ok a, w') => k a w'
  | (Err e, w') => (Err e, w')
  end.

Definition lift {A} (r : result A) : M A := fun w => (r, w).

(** The object a reference points to. *)
Definition deref (l : loc) : M (list pystr) := fun w =>
  match heap w !! l with
  | Some xs => (Ok xs, w)
  | None => (Err NotModelled, w)
  end.

(** [l.extend(xs)]: the object itself grows. *)
Definition extend (l : loc) (xs : list pystr) : M unit := fun w =>
  match heap w !! l with
  | Some old => (Ok tt, mkWorld (<[l := old ++ xs]> (heap w)) (requests w) (server w))
  | None => (Err NotModelled, w)
  end.

(** [pd.read_csv(url, decimal=..., sep=...)]: one request, logged. *)
Definition read_csv (url decimal sep : pystr) : M table := fun w =>
  (server w (requests w) url,
   mkWorld (heap w) (requests w ++ [url]) (server w)).

Fixpoint foldM {A B} (f : A -> B -> M A) (a : A) (l : list B) : M A :=
  match l with
  | [] => mret a
  | x :: l' => a' ← f a x; foldM f a' l'
  end.

(** ** get_series *)

(** The two classes a caller may pass as [return_type]. *)
Inductive return_type : Type := pd_Series | pd_DataFrame.

Definition stamp_of_cell (c : cell) : stamp :=
  match c with
  | Stamp d => Some d
  | _ => None
  end.

(** [url_base.format(code)]. *)
Definition series_url (code : Z) : pystr :=
  lit "http://api.bcb.gov.br/dados/serie/bcdata.sgs." ++ str_of_Z code
  ++ lit "/dados?formato=csv".
#[global] Arguments series_url : simpl never.

Definition get_series (code : Z) (name : pystr) (start end_ : option pystr)
    (rt : return_type) (date_column : pystr)
  : M (pdobj stamp cell) :=
  let url := series_url code in
  df ← read_csv url (lit ",") (lit ";");
  (* df.columns = [date_column, name] *)
  '(dates, values) ← lift match df with
                          | [(_, c0); (_, c1)] => Ok (c0, c1)
                          | _ => Err Pd.ValueError
                          end;
  (* df[date_column] = pd.to_datetime(df[date_column], format='%d/%m/%Y') *)
  parsed ← lift (if decide (name = date_column) then Err Pd.ValueError
                 else Pd.to_datetime Pd.fmt_dmY dates);
  (* df.set_index(date_column).loc[slice(start, end)][name] *)
  let indexed := mkFrame (map stamp_of_cell parsed) [(name, values)] in
  sliced ← lift (Loc.loc_slice start end_ indexed);
  column ← lift (Frame.getitem sliced name);
  mret match rt with
       | pd_Series => PSeries column
       | pd_DataFrame => PFrame (Frame.of_series column)
       end.

(** ** get_multiple_series *)

Section get_multiple_series.
Context {UnionL : IndexUnion stamp}.

(** The body of the loop: one series fetched and joined to the result. *)
Definition fetch_step (result : DataFrame stamp cell) (pair : Z * pystr)
  : M (DataFrame stamp cell) :=
  let '(code, name) := pair in
  series ← get_series code name None None pd_DataFrame (lit "Data");
  match series with
  | PFrame series => lift (Frame.concat result series)
  | PSeries series => lift (Frame.concat result (Frame.of_series series))
  end.

(** [[f'unnamed_{i}' for i in range(1, n)]] with [n = k + 1]. *)
Definition unnamed (k : nat) : list pystr :=
  map (fun i => lit "unnamed_" ++ str_of_nat i) (seq 1 k).

Definition get_multiple_series (code_list : list Z) (name_list : loc)
    (start end_ : option pystr)
  : M (DataFrame stamp cell) :=
  names ← deref name_list;
  let n1 := length code_list in
  let n2 := length names in
  (* what the local variable [name_list] is bound to after the branch *)
  name_list' ←
    (if (n1 <? n2)%nat then
       (* a new list object; the caller's is left alone *)
       mret (take n1 names)
     else if (n2 <? n1)%nat then
       let name_complete := unnamed (n1 - n2) in
       (* the caller's own object grows *)
       extend name_list name_complete;; deref name_list
     else mret names);
  result ← foldM fetch_step Frame.empty (zip code_list name_list');
  lift (Loc.loc_slice start end_ result).

End get_multiple_series.

(** The names the loop runs over, and the world it runs in. *)
Definition reconciled (code_list : list Z) (names : list pystr) : list pystr :=
  if (length code_list <? length names)%nat then take (length code_list) names
  else names ++ unnamed (length code_list - length names).

Definition reconciled_world (w : world) (code_list : list Z) (l : loc)
    (names : list pystr) : world :=
  if (length names <? length code_list)%nat
  then extended w l (names ++ unnamed (length code_list - length names))
  else w.

(** ** get_market_expectations *)

Module Expect.

(** [df[c]] and [df[c] = vals] on a payload. *)
Definition getitem (df : table) (c : pystr) : result (list cell) :=
  match list_find (fun col => fst col = c) df with
  | Some (_, (_, vals)) => Ok vals
  | None => Err Pd.KeyError
  end.

Definition setitem (df : table) (c : pystr) (vals : list cell) : table :=
  Frame.set_column df c vals.

(** ['Q' + column]: string concatenation, cell by cell. *)
Definition prepend_cell (p : pystr) (c : cell) : result cell :=
  match c with
  | Str s => Ok (Str (p ++ s))
  | NA => Ok NA
  | Int _ | Flt _ | Stamp _ => Err Pd.TypeError
  end.

(** [column.str.replace(old, new)] with a literal one-character pattern. *)
Definition str_replace_cell (old new : pystr) (c : cell) : result cell :=
  match c with
  | Str s => Ok (Str (replace s old new))
  | NA => Ok NA
  | Int _ | Flt _ | Stamp _ => Ok NA
  end.

(** [re.sub(r'(Q\d) (\d+)', r'\2-\1', s)] on a string of ASCII
    characters: leftmost matches, the run of digits taken greedily. *)
Fixpoint leading_digits (s : pystr) : pystr :=
  match s with
  | [] => []
  | c :: s' => if is_digit c then c :: leading_digits s' else []
  end.

Fixpoint sub_quarter_from (skip : nat) (s : pystr) : pystr :=
  match s with
  | [] => []
  | c :: s' =>
      match skip with
      | S k => sub_quarter_from k s'
      | O =>
          match s' with
          | d :: sp :: rest =>
              let year := leading_digits rest in
              if N.eqb c 81 && is_digit d && N.eqb sp 32
                 && negb (Nat.eqb (length year) 0)
              then year ++ lit "-" ++ [c; d]
                   ++ sub_quarter_from (2 + length year) s'
              else c :: sub_quarter_from 0 s'
          | _ => c :: sub_quarter_from 0 s'
          end
      end
  end.

Definition is_ascii (s : pystr) : bool := forallb (fun c => (c <? 128)%N) s.

(** [column.str.replace(r'(Q\d) (\d+)', r'\2-\1')], in 2021 a regular
    expression by default.  [\d] also matches the decimal digits outside
    ASCII, so strings with such characters leave the model. *)
Definition sub_quarter_cell (c : cell) : result cell :=
  match c with
  | Str s => if is_ascii s then Ok (Str (sub_quarter_from 0 s))
             else Err NotModelled
  | NA => Ok NA
  | Int _ | Flt _ | Stamp _ => Ok NA
  end.

(** [pd.PeriodIndex(qs, freq='Q').to_timestamp()] on one cell: the string
    ['yyyy-Qn'] is the quarter [n] of the year, and its timestamp is the
    first day of the quarter.  pandas reads other spellings of a quarter
    too; they leave the model. *)
Definition quarter_start_cell (c : cell) : result cell :=
  match c with
  | Str s =>
      match s with
      | [y1; y2; y3; y4; dash; q; n] =>
          if all_digits [y1; y2; y3; y4] && N.eqb dash 45 && N.eqb q 81
             && is_digit n
          then
            let quarter := digit_value n in
            if (1 <=? quarter) && (quarter <=? 4) then
              d ← Pd.make_date (digits_value [y1; y2; y3; y4])
                               (3 * (quarter - 1) + 1) 1;
              Ok (Stamp d)
            else Err Pd.DateParseError
          else Err NotModelled
      | _ => Err NotModelled
      end
  | NA => Ok NA
  | Int _ | Flt _ | Stamp _ => Err NotModelled
  end.

End Expect.

Definition get_market_expectations (frequency : pystr)
    (Indicators : option (list pystr)) (start end_ : option pystr)
  : M table :=
  url ← lift (create_query_url frequency Indicators start end_);
  df ← read_csv url (lit ",") (lit ",");
  (* df['Data'] = pd.to_datetime(df['Data']) *)
  data ← lift (Expect.getitem df (lit "Data"));
  data ← lift (Pd.to_datetime_default data);
  let df := Expect.setitem df (lit "Data") data in
  if decide (frequency = lit "monthly") then
    ref ← lift (Expect.getitem df (lit "DataReferencia"));
    ref ← lift (Pd.to_datetime Pd.fmt_mY ref);
    mret (Expect.setitem df (lit "DataReferencia") ref)
  else if decide (frequency = lit "annual") then
    ref ← lift (Expect.getitem df (lit "DataReferencia"));
    ref ← lift (Pd.to_datetime Pd.fmt_Y ref);
    mret (Expect.setitem df (lit "DataReferencia") ref)
  else if decide (frequency = lit "quarterly") then
    ref ← lift (Expect.getitem df (lit "DataReferencia"));
    qs ← lift (rmap (Expect.prepend_cell (lit "Q")) ref);
    qs ← lift (rmap (Expect.str_replace_cell (lit "/") (lit " ")) qs);
    qs ← lift (rmap Expect.sub_quarter_cell qs);
    ref ← lift (rmap Expect.quarter_start_cell qs);
    mret (Expect.setitem df (lit "DataReferencia") ref)
  else mret df.

(** ** Numbers *)

(** The arithmetic the transforms use.  pandas runs them on whatever the
    series holds; [isna] tells the missing marker (NaN) apart. *)
Class Numeric (T : Type) : Type := {
  one : T;
  add : T -> T -> T;
  sub : T -> T -> T;
  mul : T -> T -> T;
  div : T -> T -> T;
  nan : T;
  isna : T -> bool
}.

#[global] Instance numeric_missing {T} `{Numeric T} : Missing T := @nan T _.

(** IEEE 754 binary64, the [float64] of a downloaded series. *)
#[global] Instance float64 : Numeric float := {|
  one := 1%float;
  add := PrimFloat.add;
  sub := PrimFloat.sub;
  mul := PrimFloat.mul;
  div := PrimFloat.div;
  nan := PrimFloat.nan;
  isna := PrimFloat.is_nan
|}.

(** Exact rational arithmetic with a missing marker: what the transforms
    compute when no rounding takes place.  A division by zero is missing. *)
Definition exact : Type := option Qc.

Definition exact_lift (f : Qc -> Qc -> Qc) (x y : exact) : exact :=
  match x, y with
  | Some a, Some b => Some (f a b)
  | _, _ => None
  end.

Definition exact_div (x y : exact) : exact :=
  match x, y with
  | Some a, Some b => if Qc_eq_dec b 0%Qc then None else Some (a / b)%Qc
  | _, _ => None
  end.

#[global] Instance exact_numeric : Numeric exact := {|
  one := Some 1%Qc;
  add := exact_lift Qcplus;
  sub := exact_lift Qcminus;
  mul := exact_lift Qcmult;
  div := exact_div;
  nan := None;
  isna := fun x => match x with None => true | Some _ => false end
|}.

Definition exact_pos (x : exact) : Prop :=
  match x with
  | Some q => (0 < q)%Qc
  | None => False
  end.

(** The missing marker is contagious in a quotient and in a difference. *)
Class NanLaws (T : Type) `{Numeric T} : Prop := {
  isna_nan : isna nan = true;
  isna_div_r : forall x y, isna y = true -> isna (div x y) = true;
  isna_sub_l : forall x y, isna x = true -> isna (sub x y) = true
}.

(** ** mom2index, index2yoy, mom2yoy *)

Fixpoint rfold {A B} (f : A -> B -> result A) (a : A) (l : list B) : result A :=
  match l with
  | [] => Ok a
  | x :: l' => a' ← f a x; rfold f a' l'
  end.

Section transforms.
Context {L T : Type} {EqL : EqDecision L} {UnionL : IndexUnion L}
        {NumT : Numeric T}.

(** [series.dropna()]. *)
Definition dropna (series : Series L T) : Series L T :=
  mkSeries (sname series)
           (List.filter (fun row => negb (isna (snd row))) (items series)).

(** [values.cumprod()] on values without a missing one: the running
    product, from the left. *)
Fixpoint cumprod_from (acc : T) (values : list T) : list T :=
  match values with
  | [] => []
  | x :: values' => let p := mul acc x in p :: cumprod_from p values'
  end.

Definition cumprod (values : list T) : list T :=
  match values with
  | [] => []
  | x :: values' => x :: cumprod_from x values'
  end.

Definition _mom2index (series : Series L T) : result (Series L T) :=
  let kept := items (dropna series) in
  (* index = (series.dropna() + 1).cumprod() *)
  let index := cumprod (map (fun x => add x one) (map snd kept)) in
  (* index /= index.iloc[0] *)
  match index with
  | [] => Err Pd.IndexError
  | first :: _ =>
      Ok (mkSeries (sname series)
                   (zip (map fst kept) (map (fun x => div x first) index)))
  end.

(** [data[c]] for the column [c] of a frame. *)
Definition column_series (data : DataFrame L T) (col : pystr * list T)
  : Series L T :=
  mkSeries (fst col) (zip (index data) (snd col)).

(** A frame with two columns of one name hands [data[c]] over as a frame;
    that case is not modelled. *)
Definition mom2index (data : pdobj L T) : result (pdobj L T) :=
  match data with
  | PSeries series => index ← _mom2index series; Ok (PSeries index)
  | PFrame data =>
      if decide (NoDup (map fst (columns data))) then
        index ← rfold (fun index col =>
                         index_ ← _mom2index (column_series data col);
                         Frame.concat index (Frame.of_series index_))
                      Frame.empty (columns data);
        Ok (PFrame index)
      else Err NotModelled
  end.

(** [values.shift(n)]: every value [n] rows further down, missing markers
    at the top. *)
Definition shift (n : nat) (values : list T) : list T :=
  take (length values) (replicate n nan ++ values).

(** [values / values.shift(12) - 1]. *)
Definition yoy_values (values : list T) : list T :=
  zip_with (fun x y => sub (div x y) one) values (shift 12 values).

Definition index2yoy (series : pdobj L T) : pdobj L T :=
  match series with
  | PSeries s =>
      PSeries (mkSeries (sname s)
                 (zip (map fst (items s)) (yoy_values (map snd (items s)))))
  | PFrame f =>
      PFrame (mkFrame (index f)
                (map (fun c => (fst c, yoy_values (snd c))) (columns f)))
  end.

Definition mom2yoy (series : pdobj L T) : result (pdobj L T) :=
  index ← mom2index series; Ok (index2yoy index).

(** What it means that the column [ocol] of the result [out] is the index
    of the column [col] of [data] taken alone: it carries the name, and at
    every label of that index it holds the value of that index. *)
Definition rebased_alone (data out : DataFrame L T)
    (col ocol : pystr * list T) : Prop :=
  fst ocol = fst col
  /\ exists r,
       _mom2index (column_series data col) = Ok r
       /\ forall l y, Frame.assoc l (items r) = Some y ->
                      Frame.assoc l (zip (index out) (snd ocol)) = Some y.

End transforms.

(** ** The query URL as the specification words it *)

Module Spec.

(** The seven frequency categories. *)
Definition valid_frequencies : list pystr :=
  [ lit "annual"; lit "quarterly"; lit "monthly"; lit "inflation-12-months";
    lit "top5s-monthly"; lit "top5s-annual"; lit "institutions" ].

(** Every space replaced by [%20]. *)
Definition percent20 (s : pystr) : pystr :=
  flat_map (fun c => if N.eqb c 32 then lit "%20" else [c]) s.

(** The three accented substrings replaced, wherever they stand, in one
    pass over the URL. *)
Fixpoint escape_accents (s : pystr) : pystr :=
  match s with
  | [] => []
  | c :: s' =>
      if N.eqb c 226 then lit "%C3%A2" ++ escape_accents s'
      else if N.eqb c 237 then lit "%C3%AD" ++ escape_accents s'
      else if N.eqb c 231 then
        match s' with
        | c' :: s'' =>
            if N.eqb c' 227 then lit "%C3%A7%C3%A3o" ++ escape_accents s''
            else c :: escape_accents s'
        | [] => [c]
        end
      else c :: escape_accents s'
  end.

(** The filter clauses that are present.  An argument is present when
    it is given and not empty (Python's truth value of it). *)
Definition indicator_clause (Indicators : option (list pystr)) : list pystr :=
  match Indicators with
  | Some (i :: rest) =>
      [join (lit " or ")
         (map (fun i => lit "Indicador eq '" ++ i ++ lit "'") (i :: rest))]
  | _ => []
  end.

Definition start_clause (start : option pystr) : list pystr :=
  match start with
  | Some (c :: s) => [lit "Data ge '" ++ (c :: s) ++ lit "'"]
  | _ => []
  end.

Definition end_clause (end_ : option pystr) : list pystr :=
  match end_ with
  | Some (c :: s) => [lit "Data le '" ++ (c :: s) ++ lit "'"]
  | _ => []
  end.

Definition query_url (base : pystr) (Indicators : option (list pystr))
    (start end_ : option pystr) : pystr :=
  let clauses :=
    indicator_clause Indicators ++ start_clause start ++ end_clause end_ in
  escape_accents
    (base ++ lit "?$top=100000000&$filter="
          ++ percent20 (join (lit " and ") clauses)
          ++ lit "&$format=text/csv&$select=Indicador,Data,DataReferencia,Media,Mediana,DesvioPadrao,Minimo,Maximo,numeroRespondentes,baseCalculo").

(** The inclusive date range [[lo, hi]]; a bound that is [None] is open. *)
Definition above (lo : option date) (d : date) : bool :=
  from_option (fun l => Pd.date_leb l d) true lo.

Definition below (hi : option date) (d : date) : bool :=
  from_option (fun h => Pd.date_leb d h) true hi.

Definition within (lo hi : option date) (d : date) : bool :=
  above lo d && below hi d.

Definition row_within {V} (lo hi : option date) (row : stamp * V) : bool :=
  match fst row with
  | Some d => within lo hi d
  | None => false
  end.

(** The rows a range leaves: all of them when no bound is given, else
    the dated rows within the range. *)
Definition date_range {V} (lo hi : option date) (rows : list (stamp * V))
  : list (stamp * V) :=
  match lo, hi with
  | None, None => rows
  | _, _ => List.filter (row_within lo hi) rows
  end.

(** A day written ['yyyy-mm-dd'], the form the docstring of [get_series]
    asks for. *)
Definition two_digits (n : Z) : pystr :=
  [digit_char (Z.to_N (n / 10)); digit_char (Z.to_N (n mod 10))].

Definition four_digits (n : Z) : pystr :=
  [digit_char (Z.to_N (n / 1000)); digit_char (Z.to_N (n / 100 mod 10));
   digit_char (Z.to_N (n / 10 mod 10)); digit_char (Z.to_N (n mod 10))].

Definition iso_date (d : date) : pystr :=
  four_digits (year d) ++ lit "-" ++ two_digits (month d) ++ lit "-"
  ++ two_digits (day d).

(** The days that can stand as a bound: the days of the calendar from
    1677-09-22 to 2262-04-10, which lie whole inside the range of a
    nanosecond [Timestamp]. *)
Definition slice_day (d : date) : bool :=
  Pd.is_calendar_day (year d) (month d) (day d)
  && Pd.date_leb (mkdate 1677 9 22) d && Pd.date_leb d (mkdate 2262 4 10).

(** The start of the quarter that a reference value ["<n>/<year>"] names:
    the first day of month [3(n-1)+1] of the year. *)
Definition quarter_start (s : pystr) : option date :=
  match s with
  | n :: slash :: year =>
      if N.eqb slash 47 && is_digit n && Pd.year_field year
         && (1 <=? digit_value n) && (digit_value n <=? 4)
      then
        match Pd.make_date (digits_value year) (3 * (digit_value n - 1) + 1) 1 with
        | Ok d => Some d
        | Err _ => None
        end
      else None
  | _ => None
  end.

(** The first day of a month of a year, when a [Timestamp] holds it. *)
Definition first_of_month (y m : Z) : option date :=
  match Pd.make_date y m 1 with
  | Ok d => Some d
  | Err _ => None
  end.

(** The start of the month that a reference value ["<m>/<year>"] names:
    the month in one or two digits, the year in four. *)
Definition month_start (s : pystr) : option date :=
  match s with
  | [m1; slash; y1; y2; y3; y4] =>
      if N.eqb slash 47 && is_digit m1 && all_digits [y1; y2; y3; y4]
      then first_of_month (digits_value [y1; y2; y3; y4]) (digits_value [m1])
      else None
  | [m1; m2; slash; y1; y2; y3; y4] =>
      if N.eqb slash 47 && is_digit m1 && is_digit m2
         && all_digits [y1; y2; y3; y4]
      then first_of_month (digits_value [y1; y2; y3; y4]) (digits_value [m1; m2])
      else None
  | _ => None
  end.

(** The start of the year that a reference value names: a year of four
    digits, as a string or, as [read_csv] makes of a column of years, as
    an integer. *)
Definition year_start (c : cell) : option date :=
  match c with
  | Str [y1; y2; y3; y4] =>
      if all_digits [y1; y2; y3; y4]
      then first_of_month (digits_value [y1; y2; y3; y4]) 1
      else None
  | Int z => if (1000 <=? z) && (z <=? 9999) then first_of_month z 1 else None
  | _ => None
  end.

End Spec.

(** ** Notions used in the statements *)

(** The frame that [pd.DataFrame(...)] makes of what [pd.Series(...)]
    would have returned. *)
Definition as_frame {L V} (o : pdobj L V) : pdobj L V :=
  match o with
  | PSeries s => PFrame (Frame.of_series s)
  | PFrame f => PFrame f
  end.

(** A string that holds none of the three accented substrings that
    [create_query_url] replaces. *)
Fixpoint accent_free (s : pystr) : bool :=
  match s with
  | [] => true
  | c :: s' =>
      negb (N.eqb c 226) && negb (N.eqb c 237)
      && negb (N.eqb c 231 && match s' with c' :: _ => N.eqb c' 227 | [] => false end)
      && accent_free s'
  end.

(** What a column of the payload may become in the result: it keeps its
    name and its length, and is the same column unless it is one of the
    two date columns. *)
Definition column_kept (col ocol : pystr * list cell) : Prop :=
  fst ocol = fst col
  /\ length (snd ocol) = length (snd col)
  /\ (fst col <> lit "Data" -> fst col <> lit "DataReferencia" -> ocol = col).

(** The steps of [get_market_expectations] after the request, as a
    function of the payload. *)
Definition normalize (frequency : pystr) (df : table) : result table :=
  data ← Expect.getitem df (lit "Data");
  data ← Pd.to_datetime_default data;
  let df := Expect.setitem df (lit "Data") data in
  if decide (frequency = lit "monthly") then
    ref ← Expect.getitem df (lit "DataReferencia");
    ref ← Pd.to_datetime Pd.fmt_mY ref;
    Ok (Expect.setitem df (lit "DataReferencia") ref)
  else if decide (frequency = lit "annual") then
    ref ← Expect.getitem df (lit "DataReferencia");
    ref ← Pd.to_datetime Pd.fmt_Y ref;
    Ok (Expect.setitem df (lit "DataReferencia") ref)
  else if decide (frequency = lit "quarterly") then
    ref ← Expect.getitem df (lit "DataReferencia");
    qs ← rmap (Expect.prepend_cell (lit "Q")) ref;
    qs ← rmap (Expect.str_replace_cell (lit "/") (lit " ")) qs;
    qs ← rmap Expect.sub_quarter_cell qs;
    ref ← rmap Expect.quarter_start_cell qs;
    Ok (Expect.setitem df (lit "DataReferencia") ref)
  else Ok df.

(** What [index2yoy] makes of one column: position by position, the
    ratio to the value twelve rows up less one, or missing in the first
    twelve rows. *)
Definition yoy_column {T : Type} {NumT : Numeric T} (values out : list T) : Prop :=
  length out = length values
  /\ forall t x,
       values !! t = Some x ->
       ((12 <= t)%nat ->
          exists x12, values !! (t - 12)%nat = Some x12
                      /\ out !! t = Some (sub (div x x12) one))
       /\ ((t < 12)%nat -> exists y, out !! t = Some y /\ isna y = true).

(** An exact number that is there and is not zero. *)
Definition exact_nonzero (a : exact) : Prop :=
  exists q, a = Some q /\ q <> 0%Qc.

(** ** A small world to run the functions in *)

Module Demo.

(** One way to lay out the union of two indexes: the labels of the first,
    then the new ones of the second.  It is not the order of pandas, which
    sorts the union of two date indexes that differ; the examples below
    join frames of equal indexes only, for which [Frame.concat] asks for
    no union, and every theorem holds for any [IndexUnion]. *)
Definition union {L : Type} `{EqDecision L} : IndexUnion L :=
  fun a b => a ++ list_difference b a.

(** A series labelled by position. *)
Definition series_of {T : Type} (values : list T) : Series nat T :=
  mkSeries (lit "mom") (zip (seq 0 (length values)) values).

(** A payload of the series service: three daily observations. *)
Definition payload : table :=
  [ (lit "data", [Str (lit "31/12/2019"); Str (lit "01/01/2020"); Str (lit "02/01/2020")]);
    (lit "valor", [Flt 0.5%float; Flt 0.25%float; Flt 0.125%float]) ].

(** A service that answers every request with that payload. *)
Definition service : list pystr -> pystr -> result table :=
  fun _ _ => Ok payload.

(** A world with one list object, at reference [0]. *)
Definition world_with (names : list pystr) : world :=
  mkWorld {[ O := names ]} [] service.

(** A call of [get_multiple_series] in such a world, with the list of
    names at reference [0]. *)
Definition fetch (code_list : list Z) (names : list pystr)
  : result (DataFrame stamp cell) * world :=
  get_multiple_series (UnionL := union) code_list O None None (world_with names).

(** An index that grows by one every month, for fourteen months. *)
Definition fourteen : Series nat float :=
  series_of [1; 2; 3; 4; 5; 6; 7; 8; 9; 10; 11; 12; 13; 14]%float.

(** Thirteen months in which the quantity doubles every month, in exact
    numbers. *)
Definition doubling : Series nat exact :=
  series_of (replicate 13 (Some 1%Qc)).

(** A payload of the expectations service and a service that answers
    with it. *)
Definition expectations : table :=
  [ (lit "Indicador", [Str (lit "IPCA"); Str (lit "IPCA")]);
    (lit "Data", [Str (lit "2021-01-04"); Str (lit "2021-01-05")]);
    (lit "DataReferencia", [Str (lit "2/2021"); Str (lit "4/2022")]);
    (lit "Media", [Flt 1.5%float; Flt 1.25%float]) ].

Definition expectations_world : world :=
  mkWorld ∅ [] (fun _ _ => Ok expectations).

(** A service that refuses the series of code [2] and answers every
    other request with the payload above. *)
Definition refusing : list pystr -> pystr -> result table :=
  fun _ url =>
    if decide (url = series_url 2) then Err (TransportError (lit "404"))
    else Ok payload.

Definition refusing_world : world :=
  mkWorld {[ O := [lit "a"] ]} [] refusing.

(** A world with two list objects, at references [0] and [1]. *)
Definition two_lists : world :=
  mkWorld (<[ 1%nat := [lit "b"] ]> {[ O := [lit "a"] ]}) [] service.

(** A payload of the series service that is out of order and has a row
    without a date, and a service that answers with it. *)
Definition unsorted : table :=
  [ (lit "data", [Str (lit "02/01/2020"); Str (lit "31/12/2019"); NA;
                  Str (lit "01/01/2020")]);
    (lit "valor", [Flt 0.5%float; Flt 0.25%float; Flt 0.75%float;
                   Flt 0.125%float]) ].

Definition unsorted_world : world :=
  mkWorld ∅ [] (fun _ _ => Ok unsorted).

(** A payload of the annual expectations: the reference years come as
    integers. *)
Definition annual : table :=
  [ (lit "Indicador", [Str (lit "IPCA"); Str (lit "IPCA")]);
    (lit "Data", [Str (lit "2021-01-04"); Str (lit "2021-01-05")]);
    (lit "DataReferencia", [Int 2021; Int 2022]);
    (lit "Media", [Flt 1.5%float; Flt 1.25%float]) ].

Definition annual_world : world :=
  mkWorld ∅ [] (fun _ _ => Ok annual).

(** A payload of the expectations service without the column of the
    reference dates, and a service that answers with it. *)
Definition surveys : table :=
  [ (lit "Indicador", [Str (lit "IPCA"); Str (lit "IPCA")]);
    (lit "Data", [Str (lit "2021-01-04"); Str (lit "2021-01-05")]);
    (lit "Media", [Flt 1.5%float; Flt 1.25%float]) ].

Definition surveys_world : world :=
  mkWorld ∅ [] (fun _ _ => Ok surveys).

End Demo.

(* ===================================================================== *)
(** * Part II. Properties                                                 *)
(* ===================================================================== *)

(** ** Strings *)

Section strings.

Lemma replace_from_skip old new k c s :
  replace_from old new (S k) (c :: s) = replace_from old new k s.
Proof. reflexivity. Qed.

(** Replacing a one-character pattern works character by character. *)
Lemma replace_char s a new :
  replace s [a] new = flat_map (fun c => if N.eqb c a then new else [c]) s.
Proof.
  unfold replace.
  induction s as [|c s IH]; [reflexivity|].
  cbn [replace_from startswith flat_map length Nat.sub].
  rewrite (N.eqb_sym a c).
  destruct s as [|c' s']; destruct (N.eqb c a); cbn [andb]; rewrite ?IH; reflexivity.
Qed.

Lemma replace_from_scan old new c s :
  replace_from old new 0 (c :: s) =
  if startswith (c :: s) old
  then new ++ replace_from old new (length old - 1) s
  else c :: replace_from old new 0 s.
Proof. reflexivity. Qed.

Lemma replace_two s a b new :
  replace s [a; b] new = replace_pair a b new s.
Proof.
  unfold replace.
  assert (G : forall n s, (length s <= n)%nat ->
              replace_from [a; b] new 0 s = replace_pair a b new s).
  { intros n; induction n as [|n IH]; intros t Hn.
    - destruct t; [reflexivity | simpl in Hn; lia].
    - destruct t as [|c [|c' t'']]; [reflexivity| |].
      + cbn. rewrite (N.eqb_sym a c). destruct (N.eqb c a); reflexivity.
      + rewrite replace_from_scan.
        change (startswith (c :: c' :: t'') [a; b])
          with (N.eqb a c && (N.eqb b c' && true)).
        change (length [a; b] - 1)%nat with 1%nat.
        rewrite replace_from_skip.
        rewrite (N.eqb_sym a c), (N.eqb_sym b c'), andb_true_r.
        change (replace_pair a b new (c :: c' :: t''))
          with (if N.eqb c a && N.eqb c' b
                then new ++ replace_pair a b new t''
                else c :: replace_pair a b new (c' :: t'')).
        rewrite !IH by (simpl in Hn |- *; lia). reflexivity. }
  apply (G (length s)). lia.
Qed.

Lemma replace_pair_cons a b new c s :
  c <> a -> replace_pair a b new (c :: s) = c :: replace_pair a b new s.
Proof.
  intros Hc. apply N.eqb_neq in Hc.
  destruct s as [|c' s']; cbn [replace_pair]; rewrite ?Hc; reflexivity.
Qed.

Lemma replace_pair_head a b new c c' s :
  c' <> b ->
  replace_pair a b new (c :: c' :: s) = c :: replace_pair a b new (c' :: s).
Proof.
  intros Hc. apply N.eqb_neq in Hc.
  cbn [replace_pair]. rewrite Hc, andb_false_r. reflexivity.
Qed.

Lemma replace_pair_app a b new l t :
  Forall (fun c => c <> a) l ->
  replace_pair a b new (l ++ t) = l ++ replace_pair a b new t.
Proof.
  induction 1 as [|c l Hc _ IH]; [reflexivity|].
  rewrite <- !app_comm_cons, replace_pair_cons, IH; auto.
Qed.

(** The three replacements of [create_query_url], one after the other,
    are the single pass of the specification: no replacement text holds a
    pattern, and none brings two characters of a pattern together. *)
Lemma replace_accents_one_pass u :
  replace
    (replace (replace u a_circumflex (lit "%C3%A2"))
       c_cedilla_a_tilde (lit "%C3%A7%C3%A3o"))
    i_acute (lit "%C3%AD")
  = Spec.escape_accents u.
Proof.
  unfold a_circumflex, c_cedilla_a_tilde, i_acute.
  rewrite !replace_char, replace_two.
  set (f1 := flat_map (fun c => if N.eqb c 226 then lit "%C3%A2" else [c])).
  set (f3 := flat_map (fun c => if N.eqb c 237 then lit "%C3%AD" else [c])).
  set (rp := replace_pair 231 227 (lit "%C3%A7%C3%A3o")).
  assert (Hf3 : forall l t, f3 (l ++ t) = f3 l ++ f3 t)
    by (intros; apply flat_map_app).
  assert (Hlit : forall l t,
            forallb (fun c => negb (N.eqb c 231)) l = true ->
            rp (l ++ t) = l ++ rp t).
  { intros l t Hl. apply replace_pair_app.
    apply List.Forall_forall. intros c Hc.
    rewrite forallb_forall in Hl. specialize (Hl c Hc).
    apply negb_true_iff, N.eqb_neq in Hl. exact Hl. }
  assert (G : forall n u, (length u <= n)%nat ->
              f3 (rp (f1 u)) = Spec.escape_accents u).
  { intros n; induction n as [|n IH]; intros t Hn.
    - destruct t; [reflexivity | simpl in Hn; lia].
    - destruct t as [|c t']; [reflexivity|].
      assert (IH' : f3 (rp (f1 t')) = Spec.escape_accents t')
        by (apply IH; simpl in Hn; lia).
      cbn [Spec.escape_accents].
      change (f1 (c :: t'))
        with ((if N.eqb c 226 then lit "%C3%A2" else [c]) ++ f1 t').
      destruct (N.eqb c 226) eqn:E1.
      { rewrite Hlit by reflexivity. rewrite Hf3, IH'. reflexivity. }
      destruct (N.eqb c 237) eqn:E3.
      { apply N.eqb_eq in E3; subst c.
        change ([237%N] ++ f1 t') with (237%N :: f1 t').
        unfold rp; rewrite replace_pair_cons by discriminate. fold rp.
        change (f3 (237%N :: rp (f1 t'))) with (lit "%C3%AD" ++ f3 (rp (f1 t'))).
        rewrite IH'. reflexivity. }
      destruct (N.eqb c 231) eqn:E2.
      2:{ apply N.eqb_neq in E2.
          change ([c] ++ f1 t') with (c :: f1 t').
          unfold rp; rewrite replace_pair_cons by assumption. fold rp.
          change (f3 (c :: rp (f1 t')))
            with ((if N.eqb c 237 then lit "%C3%AD" else [c]) ++ f3 (rp (f1 t'))).
          rewrite E3, IH'. reflexivity. }
      apply N.eqb_eq in E2; subst c.
      change ([231%N] ++ f1 t') with (231%N :: f1 t').
      destruct t' as [|c' t'']; [reflexivity|].
      change (f1 (c' :: t''))
        with ((if N.eqb c' 226 then lit "%C3%A2" else [c']) ++ f1 t'') in *.
      destruct (N.eqb c' 227) eqn:E4.
      { apply N.eqb_eq in E4; subst c'.
        change (N.eqb 227 226) with false. cbv iota.
        change (rp (231%N :: [227%N] ++ f1 t''))
          with (lit "%C3%A7%C3%A3o" ++ rp (f1 t'')).
        rewrite Hf3, IH by (simpl in Hn; lia). reflexivity. }
      apply N.eqb_neq in E4.
      assert (Hhead : rp (231%N :: (if N.eqb c' 226 then lit "%C3%A2" else [c']) ++ f1 t'')
                      = 231%N :: rp ((if N.eqb c' 226 then lit "%C3%A2" else [c']) ++ f1 t'')).
      { unfold rp. destruct (N.eqb c' 226).
        - apply replace_pair_head. discriminate.
        - apply replace_pair_head. exact E4. }
      rewrite Hhead.
      change (f3 (231%N :: ?x)) with (231%N :: f3 x).
      rewrite IH'. reflexivity. }
  apply (G (length u)). lia.
Qed.

Lemma replace_space s : replace s (lit " ") (lit "%20") = Spec.percent20 s.
Proof. apply (replace_char s 32%N). Qed.

End strings.

(** ** create_query_url *)

Section query_url.

Lemma urls_dict_keys : (urls_dict_entries).*1 = Spec.valid_frequencies.
Proof. reflexivity. Qed.

Lemma urls_dict_valid frequency :
  frequency ∈ Spec.valid_frequencies -> is_Some (urls_dict !! frequency).
Proof.
  rewrite <- urls_dict_keys. intros Hin.
  apply list_elem_of_fmap in Hin as [[k v] [-> Hin]].
  exists v. apply elem_of_list_to_map_1; [|exact Hin].
  rewrite urls_dict_keys. apply (bool_decide_unpack _). vm_compute. reflexivity.
Qed.

Lemma urls_dict_invalid frequency :
  frequency ∉ Spec.valid_frequencies -> urls_dict !! frequency = None.
Proof.
  rewrite <- urls_dict_keys. apply not_elem_of_list_to_map_1.
Qed.

End query_url.

(** C4.  For each of the seven frequency categories [create_query_url]
    returns a URL, whatever the filters; for any other frequency string it
    raises the configuration error ["Frequency doesn't exist"] whatever
    the filters, and [get_market_expectations] then raises the same error
    and leaves the world as it was: no request is made. *)
Theorem create_query_url_frequency_check frequency Indicators start end_ :
  (frequency ∈ Spec.valid_frequencies ->
     exists url, create_query_url frequency Indicators start end_ = Ok url)
  /\ (frequency ∉ Spec.valid_frequencies ->
        create_query_url frequency Indicators start end_
        = Err (Exception (lit "Frequency doesn't exist"))
        /\ forall w,
             get_market_expectations frequency Indicators start end_ w
             = (Err (Exception (lit "Frequency doesn't exist")), w)).
Proof.
  split.
  - intros Hin. destruct (urls_dict_valid _ Hin) as [base Hbase].
    unfold create_query_url. rewrite Hbase. eexists. reflexivity.
  - intros Hout. apply urls_dict_invalid in Hout.
    assert (E : create_query_url frequency Indicators start end_
                = Err (Exception (lit "Frequency doesn't exist")))
      by (unfold create_query_url; rewrite Hout; reflexivity).
    split; [exact E|].
    intros w. unfold get_market_expectations, mbind, M_bind, lift.
    rewrite E. reflexivity.
Qed.

Lemma create_query_url_frequency_check_witness :
  (exists url, create_query_url (lit "top5s-annual") (Some [lit "IPCA"]) None None = Ok url)
  /\ create_query_url (lit "weekly") (Some [lit "IPCA"]) None None
     = Err (Exception (lit "Frequency doesn't exist")).
Proof.
  split.
  - apply (create_query_url_frequency_check (lit "top5s-annual")).
    apply (bool_decide_unpack _). vm_compute. reflexivity.
  - apply (create_query_url_frequency_check (lit "weekly")).
    apply (bool_decide_unpack _). vm_compute. reflexivity.
Defined.

(** C5.  For a frequency of the table, with base URL [base], the result
    of [create_query_url] is exactly [base], the fixed page size, the
    filter made of the clauses present joined by [" and "] with every
    space as [%20], the CSV format and the fixed column list, with the
    three accented substrings percent-escaped wherever they stand. *)
Theorem create_query_url_format frequency base Indicators start end_ :
  urls_dict !! frequency = Some base ->
  create_query_url frequency Indicators start end_
  = Ok (Spec.query_url base Indicators start end_).
Proof.
  intros Hbase. unfold create_query_url. rewrite Hbase. f_equal.
  (* the three chained replacements are one pass; the spaces go one by one *)
  rewrite replace_accents_one_pass, replace_space.
  unfold Spec.query_url. f_equal. f_equal.
  (* the list of filters, by the clauses present *)
  destruct Indicators as [[|i rest]|], start as [[|c1 s1]|], end_ as [[|c2 s2]|];
    reflexivity.
Qed.

Lemma create_query_url_format_witness :
  create_query_url (lit "monthly")
    (Some [lit "IPCA"; lit "Taxa de c" ++ a_circumflex ++ lit "mbio"])
    (Some (lit "2021-01-01")) None
  = Ok (lit "https://olinda.bcb.gov.br/olinda/servico/Expectativas/versao/v1/odata/ExpectativaMercadoMensais?$top=100000000&$filter=Indicador%20eq%20'IPCA'%20or%20Indicador%20eq%20'Taxa%20de%20c%C3%A2mbio'%20and%20Data%20ge%20'2021-01-01'&$format=text/csv&$select=Indicador,Data,DataReferencia,Media,Mediana,DesvioPadrao,Minimo,Maximo,numeroRespondentes,baseCalculo").
Proof.
  rewrite (create_query_url_format (lit "monthly")
             (lit "https://olinda.bcb.gov.br/olinda/servico/Expectativas/versao/v1/odata/ExpectativaMercadoMensais"))
    by (vm_compute; reflexivity).
  vm_compute. reflexivity.
Defined.

(** ** get_series and get_multiple_series: requests and names *)

Section fetching.
Context {UnionL : IndexUnion stamp}.

Ltac run_M :=
  unfold mbind, M_bind, mret, M_ret, lift, read_csv in *; cbn in *.

(** [get_series] makes exactly one request, whatever comes of it. *)
Lemma get_series_world code name start end_ rt date_column w :
  snd (get_series code name start end_ rt date_column w)
  = logged w (series_url code).
Proof.
  unfold get_series. run_M.
  repeat match goal with
         | |- context [match ?x with _ => _ end] => destruct x; cbn
         end; reflexivity.
Qed.

Lemma iloc_columns {V} i j (f : DataFrame stamp V) :
  (columns (Frame.iloc i j f)).*1 = (columns f).*1.
Proof.
  unfold Frame.iloc; cbn. rewrite <- list_fmap_compose.
  apply list_fmap_ext. intros ? [c vals] _. reflexivity.
Qed.

Lemma take_rows_columns {L V} (keep : L -> bool) (f : DataFrame L V) :
  (columns (Frame.take_rows keep f)).*1 = (columns f).*1.
Proof.
  unfold Frame.take_rows; cbn. rewrite <- list_fmap_compose.
  apply list_fmap_ext. intros ? [c vals] _. reflexivity.
Qed.

Lemma slice_between_columns {V} lo hi (f g : DataFrame stamp V) :
  Loc.slice_between lo hi f = Ok g -> (columns g).*1 = (columns f).*1.
Proof.
  unfold Loc.slice_between.
  destruct (Loc.dates (index f)) as [idx|].
  - destruct (Loc.is_monotonic_increasing idx).
    { intros [= <-]. apply iloc_columns. }
    destruct (Loc.is_strictly_decreasing idx).
    + destruct lo; [discriminate|]. intros [= <-]. apply take_rows_columns.
    + intros [= <-]. apply take_rows_columns.
  - intros [= <-]. apply take_rows_columns.
Qed.

Lemma loc_slice_columns {V} start end_ (f g : DataFrame stamp V) :
  Loc.loc_slice start end_ f = Ok g -> (columns g).*1 = (columns f).*1.
Proof.
  unfold Loc.loc_slice. intros Hs.
  assert (G : (lo ← Loc.parse_bound start; hi ← Loc.parse_bound end_;
               Loc.slice_between lo hi f) = Ok g ->
              (columns g).*1 = (columns f).*1).
  { intros Hr. unfold mbind, result_bind, rbind in Hr.
    destruct (Loc.parse_bound start) as [lo|]; [|discriminate].
    destruct (Loc.parse_bound end_) as [hi|]; [|discriminate].
    apply (slice_between_columns lo hi). exact Hr. }
  destruct start, end_; try (apply G; exact Hs).
  injection Hs as <-. reflexivity.
Qed.

Lemma reindex_columns_names {L V} `{EqDecision L} `{Missing V}
    (old new : list L) (cols : list (pystr * list V)) :
  (Frame.reindex_columns old new cols).*1 = cols.*1.
Proof.
  unfold Frame.reindex_columns. rewrite <- list_fmap_compose.
  apply list_fmap_ext. intros ? [c vals] _. reflexivity.
Qed.

Lemma concat_columns {L V} `{EqDecision L} `{Missing V} `{IndexUnion L}
    (f g h : DataFrame L V) :
  Frame.concat f g = Ok h -> (columns h).*1 = (columns f).*1 ++ (columns g).*1.
Proof.
  unfold Frame.concat. intros Hc.
  destruct (decide (index f = index g)).
  - injection Hc as <-. cbn. apply fmap_app.
  - destruct (decide (NoDup (index f) /\ NoDup (index g))); [|discriminate].
    injection Hc as <-. cbn.
    rewrite fmap_app, !reindex_columns_names. reflexivity.
Qed.

(** Asked for a frame, [get_series] returns one column called [name]. *)
Lemma get_series_frame_column code name date_column w obj :
  fst (get_series code name None None pd_DataFrame date_column w) = Ok obj ->
  exists f, obj = PFrame f /\ (columns f).*1 = [name].
Proof.
  unfold get_series. run_M.
  destruct (server w (requests w) (series_url code)) as [df|]; cbn; [|discriminate].
  destruct df as [|[h0 c0] [|[h1 c1] [|? ?]]]; cbn; try discriminate.
  destruct (decide (name = date_column)); cbn; [discriminate|].
  destruct (Pd.to_datetime Pd.fmt_dmY c0) as [parsed|]; cbn; [|discriminate].
  unfold Frame.getitem; cbn.
  destruct (decide (name = name)); [|congruence]. cbn.
  intros [= <-]. eexists; split; reflexivity.
Qed.

Lemma fetch_step_spec acc code name w :
  snd (fetch_step acc (code, name) w) = logged w (series_url code)
  /\ forall df, fst (fetch_step acc (code, name) w) = Ok df ->
       (columns df).*1 = (columns acc).*1 ++ [name].
Proof.
  unfold fetch_step.
  pose proof (get_series_world code name None None pd_DataFrame (lit "Data") w) as Hw.
  pose proof (get_series_frame_column code name (lit "Data") w) as Hc.
  unfold mbind, M_bind.
  destruct (get_series code name None None pd_DataFrame (lit "Data") w) as [[obj|e] w1];
    cbn in Hw, Hc |- *; subst w1.
  - destruct (Hc obj eq_refl) as [f [-> Hf]].
    unfold lift; cbn. split; [reflexivity|].
    intros df Hdf. apply concat_columns in Hdf. rewrite Hdf, Hf. reflexivity.
  - split; [reflexivity | discriminate].
Qed.

(** The loop requests the codes in order, until a fetch fails; when it
    ends well, every code was requested and every name is a column. *)
Lemma fetch_loop_spec pairs : forall acc w,
  let out := foldM fetch_step acc pairs w in
  heap (snd out) = heap w /\ server (snd out) = server w
  /\ exists k, (k <= length pairs)%nat
       /\ requests (snd out) = requests w ++ map series_url (take k pairs.*1)
       /\ forall df, fst out = Ok df ->
            k = length pairs /\ (columns df).*1 = (columns acc).*1 ++ pairs.*2.
Proof.
  induction pairs as [|[code name] pairs IH]; intros acc w; cbv zeta.
  - cbn. repeat split. exists O. cbn. rewrite !app_nil_r.
    repeat split; try lia; congruence.
  - destruct (fetch_step_spec acc code name w) as [Hw Hc].
    change (foldM fetch_step acc ((code, name) :: pairs) w)
      with (match fetch_step acc (code, name) w with
            | (Ok a, w') => foldM fetch_step a pairs w'
            | (Err e, w') => (Err e, w')
            end).
    destruct (fetch_step acc (code, name) w) as [[acc'|e] w1]; cbn in Hw, Hc |- *;
      subst w1.
    + specialize (IH acc' (logged w (series_url code))). cbn in IH.
      destruct IH as (Hh & Hs & k & Hk & Hr & Hok).
      split; [exact Hh|]. split; [exact Hs|].
      exists (S k). split; [lia|]. split.
      * rewrite Hr. cbn. rewrite <- app_assoc. reflexivity.
      * intros df Hdf. destruct (Hok df Hdf) as [-> Hcols].
        split; [reflexivity|].
        rewrite Hcols, (Hc acc' eq_refl), <- app_assoc. reflexivity.
    + split; [reflexivity|]. split; [reflexivity|].
      exists 1%nat. split; [cbn; lia|].
      split; [cbn; rewrite take_0; reflexivity|].
      intros df Hdf; discriminate Hdf.
Qed.

Lemma get_multiple_series_run w code_list l names start end_ :
  heap w !! l = Some names ->
  get_multiple_series code_list l start end_ w
  = (result ← foldM fetch_step Frame.empty
                (zip code_list (reconciled code_list names));
     lift (Loc.loc_slice start end_ result))
      (reconciled_world w code_list l names).
Proof.
  intros Hl. unfold get_multiple_series, reconciled, reconciled_world.
  unfold mbind at 1. unfold M_bind at 1. unfold deref at 1. rewrite Hl.
  destruct (length code_list <? length names)%nat eqn:E1.
  - apply Nat.ltb_lt in E1.
    replace (length names <? length code_list)%nat with false
      by (symmetry; apply Nat.ltb_ge; lia).
    reflexivity.
  - apply Nat.ltb_ge in E1.
    destruct (length names <? length code_list)%nat eqn:E2.
    + unfold mbind at 1. unfold M_bind at 1.
      unfold mbind at 1. unfold M_bind at 1.
      unfold extend. rewrite Hl. unfold deref. cbn [heap].
      rewrite lookup_insert_eq. reflexivity.
    + apply Nat.ltb_ge in E2.
      replace (length code_list - length names)%nat with O by lia.
      unfold unnamed; cbn. rewrite app_nil_r. reflexivity.
Qed.

Lemma reconciled_length code_list names :
  length (reconciled code_list names) = length code_list.
Proof.
  unfold reconciled, unnamed.
  destruct (length code_list <? length names)%nat eqn:E.
  - apply Nat.ltb_lt in E. rewrite length_take. lia.
  - apply Nat.ltb_ge in E. rewrite length_app, length_map, length_seq. lia.
Qed.

(** What a call does to the world and, when it ends well, what it has
    fetched: shared by the three statements about the name list. *)
Lemma get_multiple_series_outcome w code_list l names start end_ :
  heap w !! l = Some names ->
  let out := get_multiple_series code_list l start end_ w in
  heap (snd out) = heap (reconciled_world w code_list l names)
  /\ (exists k, (k <= length code_list)%nat
        /\ requests (snd out) = requests w ++ map series_url (take k code_list))
  /\ forall df, fst out = Ok df ->
       requests (snd out) = requests w ++ map series_url code_list
       /\ (columns df).*1 = reconciled code_list names.
Proof.
  intros Hl. cbv zeta. rewrite (get_multiple_series_run _ _ _ _ _ _ Hl).
  set (names' := reconciled code_list names).
  set (w1 := reconciled_world w code_list l names).
  assert (Hlen : length names' = length code_list) by apply reconciled_length.
  assert (Hreq : requests w1 = requests w).
  { unfold w1, reconciled_world.
    destruct (length names <? length code_list)%nat; reflexivity. }
  destruct (fetch_loop_spec (zip code_list names') Frame.empty w1)
    as (Hh & _ & k & Hk & Hr & Hok).
  rewrite fst_zip in Hr by lia. rewrite snd_zip in Hok by lia.
  rewrite length_zip, Hlen, Nat.min_id in Hk, Hok.
  unfold mbind, M_bind.
  destruct (foldM fetch_step Frame.empty (zip code_list names') w1)
    as [[result|e] w2]; cbn in Hh, Hr, Hok |- *.
  - split; [exact Hh|]. destruct (Hok result eq_refl) as [-> Hcols].
    rewrite firstn_all in Hr. rewrite Hreq in Hr.
    split; [exists (length code_list); rewrite firstn_all; auto|].
    intros df Hdf. split; [exact Hr|].
    apply loc_slice_columns in Hdf. rewrite Hdf, Hcols. reflexivity.
  - split; [exact Hh|]. rewrite Hreq in Hr.
    split; [exists k; auto|]. intros df Hdf; discriminate Hdf.
Qed.

End fetching.

(** ** Decimal spellings *)

Section decimal.

Lemma str_of_uint_inj u : forall u',
  str_of_uint u = str_of_uint u' -> u = u'.
Proof.
  induction u as [|u IH|u IH|u IH|u IH|u IH|u IH|u IH|u IH|u IH|u IH];
    intros [|u'|u'|u'|u'|u'|u'|u'|u'|u'|u']; cbn; intros Heq;
    try reflexivity; try discriminate Heq;
    injection Heq as Heq; f_equal; apply IH; exact Heq.
Qed.

Lemma str_of_uint_digits u : all_digits (str_of_uint u) = true.
Proof. induction u; cbn; auto. Qed.

Lemma str_of_Z_inj z z' : str_of_Z z = str_of_Z z' -> z = z'.
Proof.
  assert (Hhead : forall p s, str_of_uint (Pos.to_uint p) <> 45%N :: s).
  { intros p s Hs. pose proof (str_of_uint_digits (Pos.to_uint p)) as Hd.
    rewrite Hs in Hd. discriminate Hd. }
  assert (Hzero : forall p, str_of_uint (Pos.to_uint p) <> lit "0").
  { intros p Hs. apply (DecimalPos.Unsigned.to_uint_nonzero p).
    apply str_of_uint_inj. exact Hs. }
  destruct z as [|p|p], z' as [|p'|p']; cbn [str_of_Z]; intros Heq;
    try reflexivity.
  - symmetry in Heq. destruct (Hzero _ Heq).
  - discriminate Heq.
  - destruct (Hzero _ Heq).
  - f_equal. apply DecimalPos.Unsigned.to_uint_inj, str_of_uint_inj. exact Heq.
  - destruct (Hhead _ _ Heq).
  - discriminate Heq.
  - symmetry in Heq. destruct (Hhead _ _ Heq).
  - injection Heq as Heq. f_equal.
    apply DecimalPos.Unsigned.to_uint_inj, str_of_uint_inj. exact Heq.
Qed.

Lemma str_of_nat_inj n n' : str_of_nat n = str_of_nat n' -> n = n'.
Proof.
  unfold str_of_nat. intros Heq.
  apply DecimalNat.Unsigned.to_uint_inj, str_of_uint_inj. exact Heq.
Qed.

End decimal.

(** ** get_multiple_series: the two lists *)

(** The synthesized names: [k] of them, [unnamed_1] to [unnamed_k] in
    this order, no two alike. *)
Lemma unnamed_length k : length (unnamed k) = k.
Proof. unfold unnamed. rewrite length_map, length_seq. reflexivity. Qed.

Lemma unnamed_lookup k i :
  (i < k)%nat -> unnamed k !! i = Some (lit "unnamed_" ++ str_of_nat (S i)).
Proof.
  intros Hi. unfold unnamed.
  rewrite list_lookup_fmap, lookup_seq_lt by exact Hi. reflexivity.
Qed.

Lemma unnamed_NoDup k : NoDup (unnamed k).
Proof.
  assert (Hinj : Inj (=) (=) (fun i => lit "unnamed_" ++ str_of_nat i)).
  { intros a b Hab. apply app_inv_head in Hab. apply str_of_nat_inj. exact Hab. }
  unfold unnamed. apply (NoDup_fmap_2 _). apply NoDup_seq.
Qed.

(** C1, as stated, fails: with codes [1,2,3] and names ["a","b"] the three
    codes are requested, the third under the name ["unnamed_1"]. *)
Lemma get_multiple_series_truncates_counterexample :
  requests (snd (Demo.fetch [1; 2; 3] [lit "a"; lit "b"]))
  = [series_url 1; series_url 2; series_url 3]
  /\ requests (snd (Demo.fetch [1; 2; 3] [lit "a"; lit "b"]))
     <> [series_url 1; series_url 2]
  /\ (fun df => (columns df).*1) <$> fst (Demo.fetch [1; 2; 3] [lit "a"; lit "b"])
     = Ok [lit "a"; lit "b"; lit "unnamed_1"].
Proof.
  vm_compute. split; [reflexivity|]. split; [discriminate | reflexivity].
Qed.

(** C1, amended.  [get_multiple_series] never drops a code.  Whatever the
    lengths of the two lists, the codes are requested in order, up to the
    first fetch that fails, and all of them when the call ends well.  With
    fewer names than codes the names missing are synthesized; a list is
    cut only when the names outnumber the codes, and it is the name list,
    cut to the number of codes. *)
Theorem get_multiple_series_fetches_every_code {UnionL : IndexUnion stamp}
    w code_list l names start end_ :
  heap w !! l = Some names ->
  let out := get_multiple_series code_list l start end_ w in
  (exists k, (k <= length code_list)%nat
     /\ requests (snd out) = requests w ++ map series_url (take k code_list))
  /\ (forall df, fst out = Ok df ->
        requests (snd out) = requests w ++ map series_url code_list
        /\ length (columns df) = length code_list
        /\ ((length names < length code_list)%nat ->
              (columns df).*1
              = names ++ unnamed (length code_list - length names))
        /\ ((length code_list < length names)%nat ->
              (columns df).*1 = take (length code_list) names)).
Proof.
  intros Hl. cbv zeta.
  destruct (get_multiple_series_outcome w code_list l names start end_ Hl)
    as (_ & Hk & Hok).
  split; [exact Hk|].
  intros df Hdf. destruct (Hok df Hdf) as [Hr Hcols].
  split; [exact Hr|]. split; [|split].
  - rewrite <- (length_fmap fst), Hcols. apply reconciled_length.
  - intros Hlt. rewrite Hcols. unfold reconciled.
    replace (length code_list <? length names)%nat with false
      by (symmetry; apply Nat.ltb_ge; lia).
    reflexivity.
  - intros Hlt. rewrite Hcols. unfold reconciled.
    apply Nat.ltb_lt in Hlt. rewrite Hlt. reflexivity.
Qed.

Lemma get_multiple_series_fetches_every_code_witness :
  requests (snd (Demo.fetch [1; 2; 3] [lit "a"; lit "b"]))
  = [] ++ map series_url [1; 2; 3].
Proof.
  unfold Demo.fetch.
  destruct (get_multiple_series_fetches_every_code (UnionL := Demo.union)
              (Demo.world_with [lit "a"; lit "b"]) [1; 2; 3] O
              [lit "a"; lit "b"] None None eq_refl) as [_ Hok].
  destruct (fst (get_multiple_series (UnionL := Demo.union) [1; 2; 3] O None None
                   (Demo.world_with [lit "a"; lit "b"]))) as [df|e] eqn:E.
  - exact (proj1 (Hok df eq_refl)).
  - vm_compute in E. discriminate E.
Defined.

(** C2.  When the codes outnumber the names, the name list is padded up
    to the number of codes: the names given stay where they are, and the
    [i]-th name after them is ["unnamed_"] followed by the decimal spelling
    of [i], counting from 1, so that no two synthesized names are alike.
    The call is the loop over the codes paired with the padded names; when
    it ends well every code was requested and the columns carry the padded
    names.  For codes [1,2] and names ["a"] these are the names
    ["a"; "unnamed_1"]. *)
Theorem get_multiple_series_pads_names {UnionL : IndexUnion stamp}
    w code_list l names start end_ :
  heap w !! l = Some names ->
  (length names < length code_list)%nat ->
  let padded := names ++ unnamed (length code_list - length names) in
  let out := get_multiple_series code_list l start end_ w in
  length padded = length code_list
  /\ take (length names) padded = names
  /\ (forall i, (i < length code_list - length names)%nat ->
        padded !! (length names + i)%nat
        = Some (lit "unnamed_" ++ str_of_nat (S i)))
  /\ NoDup (drop (length names) padded)
  /\ out = (result ← foldM fetch_step Frame.empty (zip code_list padded);
            lift (Loc.loc_slice start end_ result)) (extended w l padded)
  /\ (forall df, fst out = Ok df ->
        requests (snd out) = requests w ++ map series_url code_list
        /\ (columns df).*1 = padded)
  /\ ((code_list = [1; 2] /\ names = [lit "a"]) ->
        padded = [lit "a"; lit "unnamed_1"]).
Proof.
  intros Hl Hlt. cbv zeta.
  assert (Hrec : reconciled code_list names
                 = names ++ unnamed (length code_list - length names)).
  { unfold reconciled.
    replace (length code_list <? length names)%nat with false
      by (symmetry; apply Nat.ltb_ge; lia).
    reflexivity. }
  split; [rewrite <- Hrec; apply reconciled_length|].
  split; [apply take_app_length|].
  split.
  { intros i Hi. rewrite lookup_app_r by lia.
    replace (length names + i - length names)%nat with i by lia.
    apply unnamed_lookup. exact Hi. }
  split; [rewrite drop_app_length; apply unnamed_NoDup|].
  split.
  { rewrite (get_multiple_series_run _ _ _ _ _ _ Hl), Hrec.
    unfold reconciled_world. apply Nat.ltb_lt in Hlt. rewrite Hlt. reflexivity. }
  split.
  { intros df Hdf.
    destruct (get_multiple_series_outcome w code_list l names start end_ Hl)
      as (_ & _ & Hok).
    rewrite <- Hrec. apply Hok. exact Hdf. }
  intros [-> ->]. reflexivity.
Qed.

Lemma get_multiple_series_pads_names_witness :
  (requests (snd (Demo.fetch [1; 2] [lit "a"])) = [] ++ map series_url [1; 2]
   /\ (fun df => (columns df).*1) <$> fst (Demo.fetch [1; 2] [lit "a"])
      = Ok [lit "a"; lit "unnamed_1"])
  /\ (requests (snd (Demo.fetch [7; 8; 9; 10] [lit "a"]))
      = [] ++ map series_url [7; 8; 9; 10]
      /\ (fun df => (columns df).*1) <$> fst (Demo.fetch [7; 8; 9; 10] [lit "a"])
         = Ok [lit "a"; lit "unnamed_1"; lit "unnamed_2"; lit "unnamed_3"]).
Proof.
  unfold Demo.fetch. split.
  - destruct (get_multiple_series_pads_names (UnionL := Demo.union)
                (Demo.world_with [lit "a"]) [1; 2] O [lit "a"] None None
                eq_refl ltac:(cbn; lia)) as (_ & _ & _ & _ & _ & Hok & _).
    destruct (fst (get_multiple_series (UnionL := Demo.union) [1; 2] O None None
                     (Demo.world_with [lit "a"]))) as [df|e] eqn:E.
    + destruct (Hok df eq_refl) as [Hr Hc]. split; [exact Hr|].
      cbn. rewrite Hc. reflexivity.
    + vm_compute in E. discriminate E.
  - destruct (get_multiple_series_pads_names (UnionL := Demo.union)
                (Demo.world_with [lit "a"]) [7; 8; 9; 10] O [lit "a"] None None
                eq_refl ltac:(cbn; lia)) as (_ & _ & _ & _ & _ & Hok & _).
    destruct (fst (get_multiple_series (UnionL := Demo.union) [7; 8; 9; 10] O
                     None None (Demo.world_with [lit "a"]))) as [df|e] eqn:E.
    + destruct (Hok df eq_refl) as [Hr Hc]. split; [exact Hr|].
      cbn. rewrite Hc. reflexivity.
    + vm_compute in E. discriminate E.
Defined.

(** C3, on the code: when the codes outnumber the names, the list object
    the caller passed as [name_list] has grown by the synthesized names
    when the call is over, whatever the network did; otherwise it is as it
    was. *)
Theorem get_multiple_series_name_list_after {UnionL : IndexUnion stamp}
    w code_list l names start end_ :
  heap w !! l = Some names ->
  let out := get_multiple_series code_list l start end_ w in
  ((length names < length code_list)%nat ->
     heap (snd out) !! l
     = Some (names ++ unnamed (length code_list - length names))
     /\ heap (snd out) !! l <> Some names)
  /\ ((length code_list <= length names)%nat -> heap (snd out) = heap w).
Proof.
  intros Hl. cbv zeta.
  destruct (get_multiple_series_outcome w code_list l names start end_ Hl)
    as (Hh & _ & _).
  rewrite Hh. unfold reconciled_world. split.
  - intros Hlt. pose proof Hlt as Hlt'. apply Nat.ltb_lt in Hlt'. rewrite Hlt'.
    cbn. rewrite lookup_insert_eq. split; [reflexivity|].
    intros [= E]. apply (f_equal length) in E.
    rewrite length_app in E. unfold unnamed in E.
    rewrite length_map, length_seq in E. lia.
  - intros Hle. replace (length names <? length code_list)%nat with false
      by (symmetry; apply Nat.ltb_ge; lia).
    reflexivity.
Qed.

Lemma get_multiple_series_name_list_after_witness :
  heap (snd (get_multiple_series (UnionL := Demo.union) [1; 2] O None None
               (Demo.world_with [lit "a"]))) !! O
  = Some ([lit "a"] ++ unnamed (2 - 1)).
Proof.
  apply (get_multiple_series_name_list_after (UnionL := Demo.union)
           (Demo.world_with [lit "a"]) [1; 2] O [lit "a"] None None eq_refl).
  cbn. lia.
Defined.

(** The growth shows in a later call with the same list: three codes
    after two get the name [unnamed_1] twice. *)
Example get_multiple_series_second_call :
  let w1 := snd (get_multiple_series (UnionL := Demo.union) [1; 2] O None None
                   (Demo.world_with [lit "a"])) in
  (fun df => (columns df).*1)
    <$> fst (get_multiple_series (UnionL := Demo.union) [3; 4; 5] O None None w1)
  = Ok [lit "a"; lit "unnamed_1"; lit "unnamed_1"].
Proof. vm_compute. reflexivity. Qed.

(** ** get_series: the date range *)

Lemma rmap_length {A B} (f : A -> result B) (l : list A) : forall l',
  rmap f l = Ok l' -> length l' = length l.
Proof.
  induction l as [|x l IH]; intros l'; cbn; [intros [= <-]; reflexivity|].
  destruct (f x) as [y|]; cbn; [|discriminate].
  destruct (rmap f l) as [ys|]; cbn; [|discriminate].
  intros [= <-]. cbn. f_equal. apply IH. reflexivity.
Qed.

Section date_range.

Lemma date_leb_spec a b :
  Pd.date_leb a b = true <->
  (year a < year b
   \/ (year a = year b
       /\ (month a < month b \/ (month a = month b /\ day a <= day b)))).
Proof.
  unfold Pd.date_leb.
  rewrite !orb_true_iff, !andb_true_iff, !orb_true_iff, !andb_true_iff.
  rewrite !Z.ltb_lt, !Z.eqb_eq, Z.leb_le. reflexivity.
Qed.

Lemma date_ltb_spec a b :
  Pd.date_ltb a b = true <->
  (year a < year b
   \/ (year a = year b
       /\ (month a < month b \/ (month a = month b /\ day a < day b)))).
Proof.
  unfold Pd.date_ltb.
  rewrite negb_true_iff, <- not_true_iff_false, date_leb_spec. lia.
Qed.

Lemma date_leb_trans a b c :
  Pd.date_leb a b = true -> Pd.date_leb b c = true -> Pd.date_leb a c = true.
Proof. rewrite !date_leb_spec. lia. Qed.

Lemma date_ltb_leb_trans a b c :
  Pd.date_ltb a b = true -> Pd.date_leb b c = true -> Pd.date_ltb a c = true.
Proof. rewrite !date_ltb_spec, date_leb_spec. lia. Qed.

(** In an ascending index every label is at or after the first. *)
Lemma monotonic_cons d ds :
  Loc.is_monotonic_increasing (d :: ds) = true ->
  Loc.is_monotonic_increasing ds = true
  /\ Forall (fun x => Pd.date_leb d x = true) ds.
Proof.
  revert d. induction ds as [|x ds IH]; intros d Hm.
  - split; [reflexivity | constructor].
  - cbn [Loc.is_monotonic_increasing] in Hm.
    apply andb_true_iff in Hm as [Hdx Hm].
    split; [exact Hm|]. constructor; [exact Hdx|].
    destruct (IH x Hm) as [_ Hall].
    eapply Forall_impl; [exact Hall|].
    cbn. intros y Hxy. eapply date_leb_trans; eauto.
Qed.

Context {V : Type}.
Implicit Types (vals : list V) (lo hi : option date).

Lemma searchsorted_left_cons lo d ds :
  from_option (Loc.searchsorted_left (d :: ds)) O lo
  = if Spec.above lo d then O else S (from_option (Loc.searchsorted_left ds) O lo).
Proof.
  destruct lo as [l|]; [|reflexivity]. cbn. unfold Pd.date_ltb.
  destruct (Pd.date_leb l d); reflexivity.
Qed.

Lemma searchsorted_right_cons hi d ds :
  from_option (Loc.searchsorted_right (d :: ds)) (length (d :: ds)) hi
  = if Spec.below hi d
    then S (from_option (Loc.searchsorted_right ds) (length ds) hi)
    else O.
Proof. destruct hi as [h|]; reflexivity. Qed.

(** Past the upper bound nothing is within the range. *)
Lemma filter_above lo hi d ds : forall vals,
  Spec.below hi d = false ->
  Forall (fun x => Pd.date_leb d x = true) ds ->
  List.filter (Spec.row_within lo hi) (zip (map Some ds) vals) = [].
Proof.
  intros vals Hd Hall. revert vals.
  induction Hall as [|x ds Hx _ IH]; intros vals; [reflexivity|].
  destruct vals as [|v vals]; [reflexivity|].
  cbn. unfold Spec.row_within at 1, Spec.within. cbn [fst].
  destruct hi as [h|]; [|discriminate Hd]. cbn in Hd |- *.
  assert (Hxh : Pd.date_leb x h = false).
  { apply not_true_iff_false. intros Hxh.
    rewrite (date_leb_trans _ _ _ Hx Hxh) in Hd. discriminate Hd. }
  rewrite Hxh, andb_false_r. apply IH.
Qed.

(** The rows between the two positions that pandas searches for are the
    rows within the range. *)
Lemma searchsorted_filter lo hi ds : forall vals,
  Loc.is_monotonic_increasing ds = true ->
  take (from_option (Loc.searchsorted_right ds) (length ds) hi
        - from_option (Loc.searchsorted_left ds) O lo)
       (drop (from_option (Loc.searchsorted_left ds) O lo)
             (zip (map Some ds) vals))
  = List.filter (Spec.row_within lo hi) (zip (map Some ds) vals).
Proof.
  induction ds as [|d ds IH]; intros vals Hm.
  - cbn. rewrite drop_nil, take_nil. reflexivity.
  - destruct (monotonic_cons d ds Hm) as [Hm' Hall].
    specialize (IH (tail vals) Hm').
    destruct vals as [|v vals].
    { cbn. rewrite drop_nil, take_nil. reflexivity. }
    cbn [tail] in IH.
    rewrite searchsorted_left_cons, searchsorted_right_cons.
    assert (Hlow : Spec.above lo d = true ->
                   from_option (Loc.searchsorted_left ds) O lo = O).
    { destruct ds as [|x ds']; [destruct lo; reflexivity|].
      rewrite searchsorted_left_cons. intros Hd.
      apply Forall_cons in Hall as [Hdx _].
      replace (Spec.above lo x) with true; [reflexivity|].
      destruct lo as [l|]; [|reflexivity]. cbn in Hd |- *.
      symmetry. eapply date_leb_trans; eauto. }
    pose proof (filter_above lo hi d (d :: ds) (v :: vals)) as Hhigh.
    change (zip (map Some (d :: ds)) (v :: vals))
      with ((Some d, v) :: zip (map Some ds) vals) in *.
    cbn [List.filter] in Hhigh |- *.
    unfold Spec.row_within at 1 in Hhigh. unfold Spec.row_within at 1.
    cbn [fst] in Hhigh |- *.
    change (Spec.within lo hi d) with (Spec.above lo d && Spec.below hi d) in *.
    destruct (Spec.above lo d) eqn:Elo, (Spec.below hi d) eqn:Ehi; cbn [andb] in *.
    + rewrite Nat.sub_0_r, drop_0. cbn [take]. f_equal.
      rewrite (Hlow eq_refl), Nat.sub_0_r, drop_0 in IH. exact IH.
    + cbn. symmetry. apply Hhigh; [reflexivity|].
      constructor; [|exact Hall]. apply date_leb_spec. lia.
    + cbn [Nat.sub drop]. exact IH.
    + cbn. symmetry. apply Hhigh; [reflexivity|].
      constructor; [|exact Hall]. apply date_leb_spec. lia.
Qed.

Lemma filter_unbounded ds : forall vals,
  List.filter (Spec.row_within None None) (zip (map Some ds) vals)
  = zip (map Some ds) vals.
Proof.
  induction ds as [|d ds IH]; intros [|v vals]; try reflexivity.
  cbn. f_equal. apply IH.
Qed.

Lemma zip_take {A B} n (a : list A) : forall (b : list B),
  zip (take n a) (take n b) = take n (zip a b).
Proof.
  revert a. induction n as [|n IH]; intros [|x a] [|y b]; cbn;
    try reflexivity;
    first [ f_equal; apply IH | destruct (take n a); reflexivity ].
Qed.

Lemma zip_drop {A B} n (a : list A) : forall (b : list B),
  length a = length b -> zip (drop n a) (drop n b) = drop n (zip a b).
Proof.
  revert a. induction n as [|n IH]; intros [|x a] [|y b] Hlen; cbn;
    try reflexivity; try discriminate.
  apply IH. cbn in Hlen. lia.
Qed.

Lemma dates_Some ds : Loc.dates (map Some ds) = Some ds.
Proof.
  unfold Loc.dates. induction ds as [|d ds IH]; [reflexivity|].
  cbn. cbn in IH. rewrite IH. reflexivity.
Qed.

Lemma dates_inv idx ds : Loc.dates idx = Some ds -> idx = map Some ds.
Proof.
  unfold Loc.dates. rewrite mapM_Some. intros Hall.
  induction Hall as [|x d idx ds Hx _ IH]; [reflexivity|].
  cbn in Hx |- *. subst x. f_equal. exact IH.
Qed.

(** Taking the rows that pass a test, column by column, takes the rows of
    every column that pass it. *)
Lemma zip_filter_rows {A B} (keep : A -> bool) (idx : list A) :
  forall vals : list B,
    length vals = length idx ->
    zip (List.filter keep idx)
        (map snd (List.filter (fun row => keep (fst row)) (zip idx vals)))
    = List.filter (fun row => keep (fst row)) (zip idx vals).
Proof.
  induction idx as [|l idx IH]; intros [|v vals] Hlen; try reflexivity;
    try discriminate Hlen.
  cbn. destruct (keep l); cbn; [f_equal|]; apply IH; cbn in Hlen; lia.
Qed.

(** Slicing a one-column frame between two bounds and taking the column:
    the dated rows within the range, whether pandas searches the sorted
    index or compares label by label. *)
Lemma slice_between_getitem lo hi (idx : list stamp) name vals :
  length vals = length idx ->
  lo = None \/ Loc.reverse_sorted idx = false ->
  (sliced ← Loc.slice_between lo hi (mkFrame idx [(name, vals)]);
   Frame.getitem sliced name)
  = Ok (mkSeries name (List.filter (Spec.row_within lo hi) (zip idx vals))).
Proof.
  intros Hlen Hrev.
  assert (Hget : forall (f : DataFrame stamp V) idx' col,
            f = mkFrame idx' [(name, col)] ->
            Frame.getitem f name = Ok (mkSeries name (zip idx' col))).
  { intros f idx' col ->. unfold Frame.getitem. cbn.
    destruct (decide (name = name)); [reflexivity | congruence]. }
  assert (Hmask : forall lo',
            Frame.getitem
              (Frame.take_rows (Loc.in_range lo' hi) (mkFrame idx [(name, vals)]))
              name
            = Ok (mkSeries name
                    (List.filter (Spec.row_within lo' hi) (zip idx vals)))).
  { intros lo'. erewrite Hget by reflexivity. cbn [index snd].
    rewrite zip_filter_rows by exact Hlen. reflexivity. }
  unfold Loc.slice_between, mbind, result_bind, rbind. cbn [index].
  destruct (Loc.dates idx) as [ds|] eqn:Hd; [|apply Hmask].
  apply dates_inv in Hd. subst idx.
  destruct (Loc.is_monotonic_increasing ds) eqn:Hm.
  - erewrite Hget by reflexivity. do 2 f_equal. cbn [index snd].
    rewrite length_map in Hlen.
    rewrite zip_take, zip_drop by (rewrite length_map; lia).
    apply searchsorted_filter. exact Hm.
  - destruct (Loc.is_strictly_decreasing ds) eqn:Hs; [|apply Hmask].
    destruct Hrev as [->|Hrev]; [apply Hmask|].
    unfold Loc.reverse_sorted in Hrev. rewrite dates_Some, Hm, Hs in Hrev.
    discriminate Hrev.
Qed.

End date_range.

Section bounds.

Lemma forallb_Zrange (f : Z -> bool) (a : Z) (n : nat) :
  forallb f (map (fun i => a + Z.of_nat i) (seq 0 n)) = true ->
  forall z, a <= z < a + Z.of_nat n -> f z = true.
Proof.
  rewrite forallb_forall. intros Hall z Hz. apply Hall.
  apply in_map_iff. exists (Z.to_nat (z - a)). split; [lia|].
  apply in_seq. lia.
Qed.

(** Every day that can stand as a bound is read back from its spelling:
    checked day by day. *)
Lemma parse_bound_days :
  forallb (fun y =>
    forallb (fun m =>
      forallb (fun d =>
        implb (Spec.slice_day (mkdate y m d))
              match Loc.parse_bound (Some (Spec.iso_date (mkdate y m d))) with
              | Ok (Some d') => bool_decide (d' = mkdate y m d)
              | _ => false
              end)
        (map (fun i => 1 + Z.of_nat i) (seq 0 31)))
      (map (fun i => 1 + Z.of_nat i) (seq 0 12)))
    (map (fun i => 1677 + Z.of_nat i) (seq 0 586))
  = true.
Proof. vm_compute. reflexivity. Qed.

Lemma parse_bound_iso d :
  Spec.slice_day d = true ->
  Loc.parse_bound (Some (Spec.iso_date d)) = Ok (Some d).
Proof.
  intros Hd. pose proof Hd as Hd'. destruct d as [y m dd].
  unfold Spec.slice_day, Pd.is_calendar_day in Hd'. cbn [year month day] in Hd'.
  repeat (apply andb_true_iff in Hd' as [Hd' ?]).
  repeat match goal with
         | H : (_ <=? _) = true |- _ => apply Z.leb_le in H
         | H : Pd.date_leb _ _ = true |- _ =>
             apply date_leb_spec in H; cbn [year month day] in H
         end.
  assert (Hdm : Pd.days_in_month y m <= 31).
  { unfold Pd.days_in_month.
    destruct (m =? 2); [destruct (Pd.is_leap y); lia|].
    destruct ((m =? 4) || (m =? 6) || (m =? 9) || (m =? 11)); lia. }
  pose proof (forallb_Zrange _ _ _ parse_bound_days y ltac:(lia)) as Hy.
  cbv beta in Hy.
  pose proof (forallb_Zrange _ _ _ Hy m ltac:(lia)) as Hm. cbv beta in Hm.
  pose proof (forallb_Zrange _ _ _ Hm dd ltac:(lia)) as Hdd. cbv beta in Hdd.
  rewrite Hd in Hdd. cbn [implb] in Hdd.
  destruct (Loc.parse_bound (Some (Spec.iso_date (mkdate y m dd))))
    as [[d'|]|]; try discriminate Hdd.
  apply bool_decide_eq_true in Hdd. congruence.
Qed.

Lemma parse_bound_iso_option b :
  from_option Spec.slice_day true b = true ->
  Loc.parse_bound (Spec.iso_date <$> b) = Ok b.
Proof.
  destruct b as [d|]; [|reflexivity]. cbn. intros Hd.
  apply parse_bound_iso. exact Hd.
Qed.

(** What [get_series] returns for a payload of two columns whose dates
    parse, with bounds that are days written ['yyyy-mm-dd']. *)
Lemma get_series_between w code name lo hi h0 h1 dcol vcol parsed :
  server w (requests w) (series_url code) = Ok [(h0, dcol); (h1, vcol)] ->
  name <> lit "Data" ->
  Pd.to_datetime Pd.fmt_dmY dcol = Ok parsed ->
  length vcol = length dcol ->
  from_option Spec.slice_day true lo = true ->
  from_option Spec.slice_day true hi = true ->
  lo = None \/ Loc.reverse_sorted (map stamp_of_cell parsed) = false ->
  fst (get_series code name (Spec.iso_date <$> lo) (Spec.iso_date <$> hi)
         pd_Series (lit "Data") w)
  = Ok (PSeries (mkSeries name
                   (Spec.date_range lo hi
                      (zip (map stamp_of_cell parsed) vcol)))).
Proof.
  intros Hsrv Hname Hparse Hlen Hlo Hhi Hrev.
  pose proof (rmap_length _ _ _ Hparse) as Hp.
  unfold get_series, mbind, M_bind, read_csv, lift, mret, M_ret.
  rewrite Hsrv. cbn [fst snd].
  destruct (decide (name = lit "Data")) as [|_]; [contradiction|].
  rewrite Hparse.
  pose proof (slice_between_getitem lo hi (map stamp_of_cell parsed) name vcol
                ltac:(rewrite length_map; lia) Hrev) as Hs.
  unfold mbind, result_bind, rbind in Hs.
  assert (Hget : Frame.getitem
                   (mkFrame (map stamp_of_cell parsed) [(name, vcol)]) name
                 = Ok (mkSeries name (zip (map stamp_of_cell parsed) vcol))).
  { unfold Frame.getitem. cbn.
    destruct (decide (name = name)); [reflexivity | congruence]. }
  unfold Loc.loc_slice.
  pose proof (parse_bound_iso_option lo Hlo) as Elo.
  pose proof (parse_bound_iso_option hi Hhi) as Ehi.
  destruct lo as [l|], hi as [h|]; cbn [fmap option_fmap option_map] in *;
    unfold mbind, result_bind, rbind;
    rewrite ?Elo, ?Ehi;
    try (change (Loc.parse_bound None) with (Ok (@None date)); cbv beta iota);
    try (destruct (Loc.slice_between _ _ _) as [sliced|e];
         [rewrite Hs; reflexivity | discriminate Hs]).
  rewrite Hget. reflexivity.
Qed.

End bounds.

(** C10, as stated, fails for a bound late in the calendar: pandas widens
    the day [2262-04-11] to its last nanosecond, which no [Timestamp]
    holds, and the call raises although every observation is dated
    earlier. *)
Lemma get_series_date_range_counterexample :
  fst (get_series 433 (lit "value") None (Some (lit "2262-04-11")) pd_Series
         (lit "Data") (Demo.world_with []))
  = Err Pd.OutOfBoundsDatetime
  /\ Forall (fun d => Pd.date_leb d (mkdate 2262 4 11) = true)
            [mkdate 2019 12 31; mkdate 2020 1 1; mkdate 2020 1 2]
  /\ fst (get_series 433 (lit "value") None None pd_Series (lit "Data")
            (Demo.world_with []))
     = Ok (PSeries (mkSeries (lit "value")
             [ (Some (mkdate 2019 12 31), Flt 0.5%float);
               (Some (mkdate 2020 1 1), Flt 0.25%float);
               (Some (mkdate 2020 1 2), Flt 0.125%float) ])).
Proof.
  split; [vm_compute; reflexivity|].
  split; [repeat constructor | vm_compute; reflexivity].
Qed.

(** C10, amended.  For bounds that are days written ['yyyy-mm-dd'], from
    1677-09-22 to 2262-04-10, [get_series] returns the observations whose
    parsed date lies in the inclusive range from [start] to [end], in the
    order of the payload; a bound that is [None] is open, and with a bound
    given the rows without a date are left out.  This holds for every
    order of the payload when there is no [start], and for every payload
    that is not reverse-sorted when there is one.  With [start=None] and
    [end="2020-01-01"] the result holds exactly the observations dated
    2020-01-01 or earlier. *)
Theorem get_series_date_range w code name lo hi h0 h1 dcol vcol parsed :
  server w (requests w) (series_url code) = Ok [(h0, dcol); (h1, vcol)] ->
  name <> lit "Data" ->
  Pd.to_datetime Pd.fmt_dmY dcol = Ok parsed ->
  length vcol = length dcol ->
  from_option Spec.slice_day true lo = true ->
  from_option Spec.slice_day true hi = true ->
  lo = None \/ Loc.reverse_sorted (map stamp_of_cell parsed) = false ->
  let rows := zip (map stamp_of_cell parsed) vcol in
  fst (get_series code name (Spec.iso_date <$> lo) (Spec.iso_date <$> hi)
         pd_Series (lit "Data") w)
  = Ok (PSeries (mkSeries name (Spec.date_range lo hi rows)))
  /\ (forall l v,
        In (l, v) (Spec.date_range lo hi rows)
        <-> In (l, v) rows
            /\ ((lo = None /\ hi = None)
                \/ exists d, l = Some d
                     /\ from_option (fun a => Pd.date_leb a d) true lo = true
                     /\ from_option (fun b => Pd.date_leb d b) true hi = true))
  /\ (lo = None -> hi = Some (mkdate 2020 1 1) ->
        fst (get_series code name None (Some (lit "2020-01-01"))
               pd_Series (lit "Data") w)
        = Ok (PSeries (mkSeries name (Spec.date_range lo hi rows)))
        /\ forall l v,
             In (l, v) (Spec.date_range lo hi rows)
             <-> In (l, v) rows
                 /\ exists d, l = Some d
                      /\ Pd.date_leb d (mkdate 2020 1 1) = true).
Proof.
  intros Hsrv Hname Hparse Hlen Hlo Hhi Hrev rows.
  pose proof (get_series_between w code name lo hi h0 h1 dcol vcol parsed
                Hsrv Hname Hparse Hlen Hlo Hhi Hrev) as Hget.
  fold rows in Hget.
  assert (Hin : forall lo' hi' l v,
            In (l, v) (List.filter (Spec.row_within lo' hi') rows)
            <-> In (l, v) rows
                /\ exists d, l = Some d
                     /\ from_option (fun a => Pd.date_leb a d) true lo' = true
                     /\ from_option (fun b => Pd.date_leb d b) true hi' = true).
  { intros lo' hi' l v. rewrite filter_In.
    unfold Spec.row_within, Spec.within, Spec.above, Spec.below. cbn [fst].
    destruct l as [d|].
    - rewrite andb_true_iff. split.
      + intros [Hr [Ha Hb]]. split; [exact Hr|]. exists d. auto.
      + intros [Hr (d' & [= <-] & Ha & Hb)]. auto.
    - split; [intros [_ Hf]; discriminate Hf|].
      intros [_ (d' & Hd' & _)]. discriminate Hd'. }
  split; [exact Hget|]. split.
  - intros l v. unfold Spec.date_range.
    destruct lo as [a|], hi as [b|].
    1-3: rewrite Hin; split;
      [ intros [Hr He]; split; [exact Hr | right; exact He]
      | intros [Hr [[Hn Hn']|He]]; [congruence | split; assumption] ].
    split; [intros Hr; split; [exact Hr | left; split; reflexivity]|].
    intros [Hr _]. exact Hr.
  - intros -> ->. split; [exact Hget|].
    intros l v. unfold Spec.date_range. rewrite Hin. cbn. 
    split.
    + intros [Hr (d & -> & _ & Hb)]. split; [exact Hr|]. eauto.
    + intros [Hr (d & -> & Hb)]. split; [exact Hr|]. eauto.
Qed.

Lemma get_series_date_range_witness :
  fst (get_series 433 (lit "value") None (Some (lit "2020-01-01")) pd_Series
         (lit "Data") (Demo.world_with []))
  = Ok (PSeries (mkSeries (lit "value")
          [ (Some (mkdate 2019 12 31), Flt 0.5%float);
            (Some (mkdate 2020 1 1), Flt 0.25%float) ]))
  /\ fst (get_series 433 (lit "value") (Some (lit "2020-01-01"))
            (Some (lit "2020-01-02")) pd_Series (lit "Data") Demo.unsorted_world)
     = Ok (PSeries (mkSeries (lit "value")
             [ (Some (mkdate 2020 1 2), Flt 0.5%float);
               (Some (mkdate 2020 1 1), Flt 0.125%float) ])).
Proof.
  split.
  - apply (get_series_date_range (Demo.world_with []) 433 (lit "value")
             None (Some (mkdate 2020 1 1)) (lit "data") (lit "valor")
             [Str (lit "31/12/2019"); Str (lit "01/01/2020"); Str (lit "02/01/2020")]
             [Flt 0.5%float; Flt 0.25%float; Flt 0.125%float]
             [Stamp (mkdate 2019 12 31); Stamp (mkdate 2020 1 1);
              Stamp (mkdate 2020 1 2)]);
      try (vm_compute; reflexivity).
    + vm_compute. discriminate.
    + left. reflexivity.
  - apply (get_series_date_range Demo.unsorted_world 433 (lit "value")
             (Some (mkdate 2020 1 1)) (Some (mkdate 2020 1 2))
             (lit "data") (lit "valor")
             [Str (lit "02/01/2020"); Str (lit "31/12/2019"); NA;
              Str (lit "01/01/2020")]
             [Flt 0.5%float; Flt 0.25%float; Flt 0.75%float; Flt 0.125%float]
             [Stamp (mkdate 2020 1 2); Stamp (mkdate 2019 12 31); NA;
              Stamp (mkdate 2020 1 1)]);
      try (vm_compute; reflexivity).
    + vm_compute. discriminate.
    + right. vm_compute. reflexivity.
Defined.

(** ** Binary64 and exact arithmetic *)

Section float64_facts.

Lemma SFeqb_refl x : x <> S754_nan -> SFeqb x x = true.
Proof.
  unfold SFeqb, SFcompare. destruct x as [s|s| |s m e]; intros Hx;
    try reflexivity; try congruence.
  - destruct s; reflexivity.
  - destruct s; rewrite Z.compare_refl, Pos.compare_cont_refl; reflexivity.
Qed.

Lemma is_nan_spec x : PrimFloat.is_nan x = true <-> Prim2SF x = S754_nan.
Proof.
  unfold PrimFloat.is_nan. rewrite negb_true_iff, FloatAxioms.eqb_spec. split.
  - intros Hx. destruct (Prim2SF x) eqn:E; try reflexivity;
      rewrite SFeqb_refl in Hx; congruence.
  - intros ->. reflexivity.
Qed.

Lemma float_div_nan x y :
  PrimFloat.is_nan y = true -> PrimFloat.is_nan (x / y) = true.
Proof.
  rewrite !is_nan_spec, div_spec. intros ->.
  unfold SF64div, SFdiv. destruct (Prim2SF x); reflexivity.
Qed.

Lemma float_sub_nan x y :
  PrimFloat.is_nan x = true -> PrimFloat.is_nan (x - y) = true.
Proof.
  rewrite !is_nan_spec, sub_spec. intros ->. reflexivity.
Qed.

Lemma float_finite_nonzero x :
  PrimFloat.is_finite x = true -> PrimFloat.is_zero x = false ->
  exists s m e, Prim2SF x = S754_finite s m e.
Proof.
  unfold PrimFloat.is_finite, PrimFloat.is_infinity, PrimFloat.is_zero.
  rewrite negb_true_iff, orb_false_iff, !FloatAxioms.eqb_spec, abs_spec.
  intros [Hnan Hinf] Hzero.
  destruct (Prim2SF x) as [s|s| |s m e] eqn:E.
  - destruct s; discriminate Hzero.
  - destruct s; discriminate Hinf.
  - apply is_nan_spec in E. congruence.
  - eauto.
Qed.

(** A finite binary64 number other than zero, divided by itself, is
    exactly one: the quotient of the mantissas is a power of two, and
    rounding leaves it alone. *)
Lemma float_div_self x :
  PrimFloat.is_finite x = true -> PrimFloat.is_zero x = false ->
  (x / x)%float = 1%float.
Proof.
  intros Hfin Hnz.
  destruct (float_finite_nonzero x Hfin Hnz) as (s & m & e & Hx).
  apply Prim2SF_inj. rewrite div_spec, Hx.
  unfold SF64div, SFdiv.
  assert (Hcore : SFdiv_core_binary prec emax (Zpos m) e (Zpos m) e
                  = (2 ^ 53, -53, loc_Exact)).
  { unfold SFdiv_core_binary.
    replace (Zdigits2 (Z.pos m) + e - (Zdigits2 (Z.pos m) + e)) with 0 by lia.
    replace (e - e) with 0 by lia.
    change (Z.min (fexp prec emax 0) 0) with (-53).
    change (0 - -53) with 53.
    cbv iota beta.
    rewrite Z.shiftl_mul_pow2 by lia.
    assert (Hdiv : Z.div_eucl (Z.pos m * 2 ^ 53) (Z.pos m)
                   = ((Z.pos m * 2 ^ 53) / Z.pos m,
                      (Z.pos m * 2 ^ 53) mod Z.pos m)).
    { unfold Z.div, Z.modulo.
      destruct (Z.div_eucl (Z.pos m * 2 ^ 53) (Z.pos m)); reflexivity. }
    rewrite Hdiv, (Z.mul_comm (Z.pos m)), Z.div_mul, Z.mod_mul by lia.
    unfold new_location, new_location_even, new_location_odd.
    destruct (Z.even (Z.pos m)); reflexivity. }
  rewrite Hcore. destruct s; vm_compute; reflexivity.
Qed.

(** Rounding keeps the sign: shifting a mantissa that is not negative and
    rounding it to nearest never gives a negative one, so a rounded
    number of positive sign is zero, finite or infinite, never [NaN]. *)
Lemma iter_pos_invariant {A} (P : A -> Prop) (f : A -> A) :
  (forall x, P x -> P (f x)) -> forall p x, P x -> P (SpecFloat.iter_pos f p x).
Proof.
  intros Hf. induction p as [p IH|p IH|]; intros x Hx; cbn; auto.
Qed.

Lemma shr_1_nonneg mrs : 0 <= shr_m mrs -> 0 <= shr_m (shr_1 mrs).
Proof.
  destruct mrs as [m r s0]. destruct m as [|p|p]; cbn; [lia| |lia].
  intros _. destruct p; cbn; lia.
Qed.

Lemma shr_fexp_nonneg m e l :
  0 <= m -> 0 <= shr_m (fst (shr_fexp prec emax m e l)).
Proof.
  intros Hm. unfold shr_fexp, shr.
  assert (H0 : 0 <= shr_m (shr_record_of_loc m l))
    by (destruct l as [|[]]; exact Hm).
  destruct (fexp prec emax (Zdigits2 m + e) - e) as [|p|p]; cbn [fst];
    try exact H0.
  apply (iter_pos_invariant (fun mrs => 0 <= shr_m mrs)); [|exact H0].
  apply shr_1_nonneg.
Qed.

Lemma round_nearest_even_nonneg m l : 0 <= m -> 0 <= round_nearest_even m l.
Proof.
  intros Hm. unfold round_nearest_even.
  destruct l as [|[]]; try lia. destruct (Z.even m); lia.
Qed.

Lemma binary_round_aux_nonneg m e l :
  0 <= m ->
  SFleb (S754_zero false) (binary_round_aux prec emax false m e l) = true.
Proof.
  intros Hm. unfold binary_round_aux.
  pose proof (shr_fexp_nonneg m e l Hm) as H1.
  destruct (shr_fexp prec emax m e l) as [mrs' e'].
  cbn [fst] in H1.
  pose proof (shr_fexp_nonneg
                (round_nearest_even (shr_m mrs') (loc_of_shr_record mrs'))
                e' loc_Exact (round_nearest_even_nonneg _ _ H1)) as H2.
  destruct (shr_fexp prec emax
              (round_nearest_even (shr_m mrs') (loc_of_shr_record mrs'))
              e' loc_Exact) as [mrs'' e''].
  cbn [fst] in H2.
  destruct (shr_m mrs'') as [|p|p]; [reflexivity| |lia].
  destruct (e'' <=? emax - prec); reflexivity.
Qed.

(** A binary64 number that is positive and finite. *)
Lemma float_positive_finite x :
  (0 <? x)%float = true -> PrimFloat.is_finite x = true ->
  exists m e, Prim2SF x = S754_finite false m e.
Proof.
  rewrite ltb_spec.
  unfold PrimFloat.is_finite, PrimFloat.is_infinity.
  rewrite negb_true_iff, orb_false_iff, FloatAxioms.eqb_spec, abs_spec.
  change (Prim2SF 0) with (S754_zero false).
  intros Hpos [_ Hinf].
  destruct (Prim2SF x) as [s0|s0| |s0 m e]; try discriminate Hpos.
  - destruct s0; [discriminate Hpos | discriminate Hinf].
  - destruct s0; [discriminate Hpos|]. eauto.
Qed.

(** A number that is not negative, times or over a positive finite one,
    is not negative, and it is a number. *)
Lemma float_mul_nonneg x y :
  (0 <=? x)%float = true ->
  (0 <? y)%float = true -> PrimFloat.is_finite y = true ->
  (0 <=? x * y)%float = true.
Proof.
  intros Hx Hy Hfin.
  destruct (float_positive_finite y Hy Hfin) as (my & ey & Ey).
  rewrite leb_spec in Hx |- *. rewrite mul_spec, Ey.
  change (Prim2SF 0) with (S754_zero false) in *.
  unfold SF64mul, SFmul.
  destruct (Prim2SF x) as [s0|s0| |s0 mx ex]; try discriminate Hx.
  - reflexivity.
  - destruct s0; [discriminate Hx | reflexivity].
  - destruct s0; [discriminate Hx|]. apply binary_round_aux_nonneg. lia.
Qed.

Lemma float_div_nonneg x y :
  (0 <=? x)%float = true ->
  (0 <? y)%float = true -> PrimFloat.is_finite y = true ->
  (0 <=? x / y)%float = true.
Proof.
  intros Hx Hy Hfin.
  destruct (float_positive_finite y Hy Hfin) as (my & ey & Ey).
  rewrite leb_spec in Hx |- *. rewrite div_spec, Ey.
  change (Prim2SF 0) with (S754_zero false) in *.
  unfold SF64div, SFdiv.
  destruct (Prim2SF x) as [s0|s0| |s0 mx ex]; try discriminate Hx.
  - reflexivity.
  - destruct s0; [discriminate Hx | reflexivity].
  - destruct s0; [discriminate Hx|].
    unfold SFdiv_core_binary.
    set (e' := Z.min _ _). set (m' := match _ with 0 => _ | _ => _ end).
    assert (Hm' : 0 <= m').
    { unfold m'. destruct (ex - ey - e') as [|p|p]; try lia.
      apply Z.shiftl_nonneg. lia. }
    assert (Hdiv : Z.div_eucl m' (Z.pos my) = (m' / Z.pos my, m' mod Z.pos my)).
    { unfold Z.div, Z.modulo. destruct (Z.div_eucl m' (Z.pos my)); reflexivity. }
    rewrite Hdiv. cbn [xorb]. apply binary_round_aux_nonneg.
    apply Z.div_pos; lia.
Qed.

Lemma float_positive_nonneg x :
  (0 <? x)%float = true -> (0 <=? x)%float = true.
Proof.
  rewrite ltb_spec, leb_spec. unfold SFltb, SFleb.
  destruct (SFcompare (Prim2SF 0) (Prim2SF x)) as [[]|]; congruence.
Qed.

Lemma float_positive_nonzero x :
  (0 <? x)%float = true -> PrimFloat.is_zero x = false.
Proof.
  unfold PrimFloat.is_zero. rewrite ltb_spec, FloatAxioms.eqb_spec.
  change (Prim2SF 0) with (S754_zero false).
  change (Prim2SF zero) with (S754_zero false).
  destruct (Prim2SF x) as [s0|s0| |s0 m e]; intros Hx; try discriminate Hx;
    destruct s0; try discriminate Hx; reflexivity.
Qed.

End float64_facts.

#[global] Instance float64_nan_laws : NanLaws float.
Proof.
  split.
  - reflexivity.
  - intros x y. apply float_div_nan.
  - intros x y. apply float_sub_nan.
Qed.

#[global] Instance exact_nan_laws : NanLaws exact.
Proof.
  split.
  - reflexivity.
  - intros [x|] [y|]; cbn; congruence.
  - intros [x|] [y|]; cbn; congruence.
Qed.

(** ** index2yoy and mom2yoy *)

Section yoy.
Context {T : Type} `{Numeric T}.

Lemma shift_lookup_lt n (values : list T) t x :
  values !! t = Some x -> (t < n)%nat -> shift n values !! t = Some nan.
Proof.
  intros Hx Hlt. unfold shift.
  apply lookup_lt_Some in Hx.
  rewrite lookup_take_lt by lia.
  rewrite lookup_app_l by (rewrite length_replicate; lia).
  apply lookup_replicate_2. exact Hlt.
Qed.

Lemma shift_lookup_ge n (values : list T) t x :
  values !! t = Some x -> (n <= t)%nat ->
  shift n values !! t = values !! (t - n)%nat.
Proof.
  intros Hx Hge. unfold shift.
  apply lookup_lt_Some in Hx.
  rewrite lookup_take_lt by lia.
  rewrite lookup_app_r by (rewrite length_replicate; lia).
  rewrite length_replicate. reflexivity.
Qed.

Lemma yoy_values_lookup (values : list T) t x :
  values !! t = Some x ->
  ((t < 12)%nat ->
     yoy_values values !! t = Some (sub (div x nan) one))
  /\ ((12 <= t)%nat ->
        exists x12, values !! (t - 12)%nat = Some x12
                    /\ yoy_values values !! t = Some (sub (div x x12) one)).
Proof.
  intros Hx. unfold yoy_values. rewrite lookup_zip_with, Hx. cbn. split.
  - intros Hlt. rewrite (shift_lookup_lt 12 values t x Hx Hlt). reflexivity.
  - intros Hge. rewrite (shift_lookup_ge 12 values t x Hx Hge).
    assert (Hsome : is_Some (values !! (t - 12)%nat)).
    { apply lookup_lt_is_Some. apply lookup_lt_Some in Hx. lia. }
    destruct Hsome as [x12 Hx12]. exists x12. rewrite Hx12. split; reflexivity.
Qed.

Lemma yoy_values_length (values : list T) :
  length (yoy_values values) = length values.
Proof.
  unfold yoy_values, shift. rewrite length_zip_with, length_take.
  rewrite length_app, length_replicate. lia.
Qed.

End yoy.

(** C7.  [mom2yoy] is [index2yoy] after [mom2index], for a series and for
    a table: where [mom2index] yields an index, [mom2yoy] yields
    [index2yoy] of that index, and where [mom2index] raises, [mom2yoy]
    raises the same. *)
Theorem mom2yoy_composition {L T : Type} {EqL : EqDecision L}
    {UnionL : IndexUnion L} {NumT : Numeric T} (series : pdobj L T) :
  mom2yoy series = (index ← mom2index series; Ok (index2yoy index))
  /\ (forall index, mom2index series = Ok index ->
        mom2yoy series = Ok (index2yoy index))
  /\ (forall e, mom2index series = Err e -> mom2yoy series = Err e).
Proof.
  split; [reflexivity|]. unfold mom2yoy.
  split; intros ? ->; reflexivity.
Qed.

(** C9.  For a series [s], [index2yoy] keeps the name and the labels, and
    its value at position [t] is [s[t] / s[t-12] - 1] for [t >= 12] and is
    missing for [t < 12]. *)
Theorem index2yoy_positions {L T : Type} `{Numeric T} `{!NanLaws T}
    (s : Series L T) :
  exists r,
    index2yoy (PSeries s) = PSeries r
    /\ sname r = sname s
    /\ (items r).*1 = (items s).*1
    /\ forall t x,
         (items s).*2 !! t = Some x ->
         ((12 <= t)%nat ->
            exists x12, (items s).*2 !! (t - 12)%nat = Some x12
                        /\ (items r).*2 !! t = Some (sub (div x x12) one))
         /\ ((t < 12)%nat ->
               exists y, (items r).*2 !! t = Some y /\ isna y = true).
Proof.
  eexists. split; [reflexivity|]. cbn [sname items].
  assert (Hlen : length (map fst (items s))
                 = length (yoy_values (map snd (items s))))
    by (rewrite yoy_values_length, !length_map; reflexivity).
  split; [reflexivity|].
  split; [apply fst_zip, Nat.eq_le_incl; exact Hlen|].
  intros t x Hx.
  rewrite snd_zip by (apply Nat.eq_le_incl; symmetry; exact Hlen).
  destruct (yoy_values_lookup (map snd (items s)) t x Hx) as [Hlt Hge].
  split; [exact Hge|].
  intros Ht. eexists. split; [apply Hlt; exact Ht|].
  apply isna_sub_l, isna_div_r, isna_nan.
Qed.

Lemma index2yoy_positions_witness :
  exists r,
    index2yoy (PSeries Demo.fourteen) = PSeries r
    /\ (items r).*2 !! 13%nat = Some 6%float
    /\ (exists y, (items r).*2 !! 3%nat = Some y /\ PrimFloat.is_nan y = true).
Proof.
  destruct (index2yoy_positions Demo.fourteen) as (r & Hr & _ & _ & Hpos).
  exists r. split; [exact Hr|]. split.
  - destruct (Hpos 13%nat 14%float eq_refl) as [Hge _].
    destruct (Hge ltac:(lia)) as (x12 & Hx12 & Hy).
    cbn in Hx12. injection Hx12 as <-. exact Hy.
  - destruct (Hpos 3%nat 4%float eq_refl) as [_ Hlt].
    apply Hlt. lia.
Defined.

(** ** get_market_expectations: the reference date *)

Section reference_date.

Lemma is_digit_spec c : is_digit c = true <-> (48 <= c <= 57)%N.
Proof. unfold is_digit. rewrite andb_true_iff, !N.leb_le. reflexivity. Qed.

Lemma leading_digits_all year :
  all_digits year = true -> Expect.leading_digits year = year.
Proof.
  induction year as [|c year IH]; [reflexivity|]. cbn.
  intros Hd. apply andb_true_iff in Hd as [Hc Hd]. rewrite Hc, IH; auto.
Qed.

Lemma sub_quarter_skip_all s : forall k,
  (length s <= k)%nat -> Expect.sub_quarter_from k s = [].
Proof.
  induction s as [|c s IH]; intros k Hk; [reflexivity|].
  destruct k as [|k]; [cbn in Hk; lia|]. cbn. apply IH. cbn in Hk. lia.
Qed.

Lemma sub_quarter_from_scan c d sp rest :
  Expect.sub_quarter_from 0 (c :: d :: sp :: rest)
  = if N.eqb c 81 && is_digit d && N.eqb sp 32
       && negb (Nat.eqb (length (Expect.leading_digits rest)) 0)
    then Expect.leading_digits rest ++ lit "-" ++ [c; d]
         ++ Expect.sub_quarter_from (2 + length (Expect.leading_digits rest))
              (d :: sp :: rest)
    else c :: Expect.sub_quarter_from 0 (d :: sp :: rest).
Proof. reflexivity. Qed.

(** The regular expression turns ["Q<n> <year>"] into ["<year>-Q<n>"]. *)
Lemma sub_quarter_whole n year :
  is_digit n = true -> all_digits year = true -> year <> [] ->
  Expect.sub_quarter_from 0 (81%N :: n :: 32%N :: year)
  = year ++ lit "-" ++ [81%N; n].
Proof.
  intros Hn Hy Hne.
  rewrite sub_quarter_from_scan, (leading_digits_all year Hy), Hn.
  replace (negb (Nat.eqb (length year) 0)) with true
    by (destruct year; [congruence | reflexivity]).
  change (N.eqb 81 81 && true && N.eqb 32 32 && true) with true. cbv iota.
  rewrite sub_quarter_skip_all by (cbn; lia).
  reflexivity.
Qed.

Lemma replace_slash n year :
  is_digit n = true -> all_digits year = true ->
  replace (81%N :: n :: 47%N :: year) (lit "/") (lit " ")
  = 81%N :: n :: 32%N :: year.
Proof.
  intros Hn Hy. rewrite (replace_char _ 47%N). cbn [flat_map].
  apply is_digit_spec in Hn.
  replace (N.eqb n 47) with false by (symmetry; apply N.eqb_neq; lia).
  cbn. do 3 f_equal.
  induction year as [|c year IH]; [reflexivity|]. cbn in Hy |- *.
  apply andb_true_iff in Hy as [Hc Hy]. apply is_digit_spec in Hc.
  replace (N.eqb c 47) with false by (symmetry; apply N.eqb_neq; lia).
  cbn. f_equal. apply IH. exact Hy.
Qed.

Lemma all_digits_ascii year :
  all_digits year = true -> Expect.is_ascii year = true.
Proof.
  unfold all_digits, Expect.is_ascii. rewrite !forallb_forall.
  intros Hy c Hc. specialize (Hy c Hc). apply is_digit_spec in Hy.
  apply N.ltb_lt. lia.
Qed.

(** One reference value through the four steps of the quarterly branch. *)
Lemma quarter_cell s d :
  Spec.quarter_start s = Some d ->
  exists n year,
    s = n :: 47%N :: year
    /\ Expect.prepend_cell (lit "Q") (Str s) = Ok (Str (81%N :: n :: 47%N :: year))
    /\ Expect.str_replace_cell (lit "/") (lit " ") (Str (81%N :: n :: 47%N :: year))
       = Ok (Str (81%N :: n :: 32%N :: year))
    /\ Expect.sub_quarter_cell (Str (81%N :: n :: 32%N :: year))
       = Ok (Str (year ++ lit "-Q" ++ [n]))
    /\ Expect.quarter_start_cell (Str (year ++ lit "-Q" ++ [n])) = Ok (Stamp d).
Proof.
  unfold Spec.quarter_start.
  destruct s as [|n [|slash year]]; try discriminate.
  destruct (N.eqb slash 47 && is_digit n && Pd.year_field year
            && (1 <=? digit_value n) && (digit_value n <=? 4)) eqn:Hc;
    [|discriminate].
  repeat (apply andb_true_iff in Hc as [Hc ?]).
  apply N.eqb_eq in Hc; subst slash.
  destruct (Pd.make_date (digits_value year) (3 * (digit_value n - 1) + 1) 1)
    as [d'|] eqn:Hd; [|discriminate].
  intros [= ->].
  assert (Hy : all_digits year = true /\ exists y1 y2 y3 y4, year = [y1; y2; y3; y4]).
  { unfold Pd.year_field in *.
    match goal with Hf : all_digits year && _ = true |- _ =>
      apply andb_true_iff in Hf as [Hall Hlen] end.
    split; [exact Hall|]. apply Nat.eqb_eq in Hlen.
    destruct year as [|y1 [|y2 [|y3 [|y4 [|? ?]]]]]; try discriminate Hlen.
    eauto. }
  destruct Hy as [Hall (y1 & y2 & y3 & y4 & ->)].
  exists n, [y1; y2; y3; y4]. split; [reflexivity|]. split; [reflexivity|].
  split.
  { unfold Expect.str_replace_cell. rewrite replace_slash by assumption.
    reflexivity. }
  split.
  { unfold Expect.sub_quarter_cell.
    assert (Ha : Expect.is_ascii (81%N :: n :: 32%N :: [y1; y2; y3; y4]) = true).
    { change (Expect.is_ascii (81%N :: n :: 32%N :: [y1; y2; y3; y4]))
        with ((n <? 128)%N && Expect.is_ascii [y1; y2; y3; y4]).
      rewrite (all_digits_ascii _ Hall), andb_true_r.
      match goal with Hn : is_digit n = true |- _ =>
        apply is_digit_spec in Hn; apply N.ltb_lt; lia end. }
    rewrite Ha, sub_quarter_whole by (assumption || discriminate).
    reflexivity. }
  change ([y1; y2; y3; y4] ++ lit "-Q" ++ [n])
    with [y1; y2; y3; y4; 45%N; 81%N; n].
  cbv beta iota delta [Expect.quarter_start_cell].
  rewrite Hall.
  match goal with Hn : is_digit n = true |- _ => rewrite Hn end.
  cbn [N.eqb Pos.eqb andb].
  match goal with
  | H1 : (1 <=? digit_value n) = true, H2 : (digit_value n <=? 4) = true |- _ =>
      rewrite H1, H2 end.
  cbn [andb]. rewrite Hd. reflexivity.
Qed.

(** A column of such values through the four steps, taken column by
    column as the source does. *)
Lemma quarter_column raw : forall ref,
  Forall2 (fun c c' => exists s d,
             c = Str s /\ Spec.quarter_start s = Some d /\ c' = Stamp d) raw ref ->
  (qs ← rmap (Expect.prepend_cell (lit "Q")) raw;
   qs ← rmap (Expect.str_replace_cell (lit "/") (lit " ")) qs;
   qs ← rmap Expect.sub_quarter_cell qs;
   rmap Expect.quarter_start_cell qs) = Ok ref.
Proof.
  intros ref Hall.
  assert (G : exists q1 q2 q3,
            rmap (Expect.prepend_cell (lit "Q")) raw = Ok q1
            /\ rmap (Expect.str_replace_cell (lit "/") (lit " ")) q1 = Ok q2
            /\ rmap Expect.sub_quarter_cell q2 = Ok q3
            /\ rmap Expect.quarter_start_cell q3 = Ok ref).
  { induction Hall as [|c c' raw ref (s & d & -> & Hq & ->) _ IH].
    - exists [], [], []. repeat split.
    - destruct IH as (q1 & q2 & q3 & H1 & H2 & H3 & H4).
      destruct (quarter_cell s d Hq) as (n & year & -> & E1 & E2 & E3 & E4).
      eexists (_ :: q1), (_ :: q2), (_ :: q3).
      cbn [rmap]. rewrite E1, H1. cbn [rbind rmap].
      rewrite E2, H2. cbn [rbind rmap]. rewrite E3, H3. cbn [rbind rmap].
      rewrite E4, H4. repeat split. }
  destruct G as (q1 & q2 & q3 & -> & H2 & H3 & H4).
  cbn. rewrite H2. cbn. rewrite H3. cbn. exact H4.
Qed.

Lemma getitem_setitem_ne df c c' vals :
  c <> c' ->
  is_Some (list_find (fun col => fst col = c) df) ->
  Expect.getitem (Expect.setitem df c vals) c' = Expect.getitem df c'.
Proof.
  intros Hne. unfold Expect.getitem, Expect.setitem.
  induction df as [|[h v] df IH]; intros [x Hx]; [discriminate Hx|].
  cbn [Frame.set_column]. destruct (decide (h = c)) as [->|Hh].
  - cbn. destruct (decide (c = c')); [contradiction|].
    destruct (decide (c = c')); [contradiction|]. reflexivity.
  - cbn in Hx |- *. destruct (decide (h = c)); [contradiction|].
    destruct (decide (h = c')); [reflexivity|].
    assert (Hs : is_Some (list_find (fun col => col.1 = c) df)).
    { destruct (list_find (fun col => col.1 = c) df); [eauto | discriminate Hx]. }
    specialize (IH Hs).
    destruct (list_find (fun col => col.1 = c') (Frame.set_column df c vals))
      as [[i [h1 v1]]|], (list_find (fun col => col.1 = c') df) as [[j [h2 v2]]|];
      cbn in IH |- *; congruence.
Qed.

(** A string of digits holds no slash. *)
Lemma split_on_digits s : all_digits s = true -> split_on 47 s = [s].
Proof.
  induction s as [|c s IH]; [reflexivity|]. cbn. intros Hd.
  apply andb_true_iff in Hd as [Hc Hd]. apply is_digit_spec in Hc.
  replace (N.eqb c 47) with false by (symmetry; apply N.eqb_neq; lia).
  rewrite (IH Hd). reflexivity.
Qed.

Lemma split_on_slash a rest :
  all_digits a = true -> split_on 47 (a ++ 47%N :: rest) = a :: split_on 47 rest.
Proof.
  induction a as [|c a IH]; [reflexivity|]. cbn. intros Hd.
  apply andb_true_iff in Hd as [Hc Hd]. apply is_digit_spec in Hc.
  replace (N.eqb c 47) with false by (symmetry; apply N.eqb_neq; lia).
  rewrite (IH Hd). reflexivity.
Qed.

Lemma digits_or_slash a b :
  all_digits a = true -> all_digits b = true ->
  forallb (fun c => is_digit c || N.eqb c 47) (a ++ 47%N :: b) = true.
Proof.
  intros Ha Hb. rewrite forallb_app. cbn [forallb].
  assert (H : forall t, all_digits t = true ->
                forallb (fun c => is_digit c || N.eqb c 47) t = true).
  { intros t. unfold all_digits. rewrite !forallb_forall.
    intros Ht c Hc. rewrite (Ht c Hc). reflexivity. }
  rewrite (H a Ha), (H b Hb). reflexivity.
Qed.

(** The month and the year of ["<m>/<year>"], read with [%m/%Y]. *)
Lemma strptime_month m y :
  all_digits m = true -> (length m = 1 \/ length m = 2)%nat ->
  all_digits y = true -> length y = 4%nat ->
  Pd.strptime Pd.fmt_mY (m ++ 47%N :: y)
  = Pd.make_date (digits_value y) (digits_value m) 1.
Proof.
  intros Hm Hlm Hy Hly. unfold Pd.strptime.
  rewrite digits_or_slash, split_on_slash, split_on_digits by assumption.
  unfold Pd.short_field, Pd.year_field. rewrite Hm, Hy, Hly.
  destruct Hlm as [-> | ->]; reflexivity.
Qed.

Lemma strptime_year y :
  all_digits y = true -> length y = 4%nat ->
  Pd.strptime Pd.fmt_Y y = Pd.make_date (digits_value y) 1 1.
Proof.
  intros Hy Hly. unfold Pd.strptime.
  assert (H : forallb (fun c => is_digit c || N.eqb c 47) y = true).
  { revert Hy. unfold all_digits. rewrite !forallb_forall.
    intros Ht c Hc. rewrite (Ht c Hc). reflexivity. }
  rewrite H, split_on_digits by assumption.
  unfold Pd.year_field. rewrite Hy, Hly. reflexivity.
Qed.

Lemma first_of_month_date y m d :
  Spec.first_of_month y m = Some d -> Pd.make_date y m 1 = Ok d.
Proof.
  unfold Spec.first_of_month. destruct (Pd.make_date y m 1); congruence.
Qed.

(** One reference value of the monthly payload through [%m/%Y]. *)
Lemma month_cell s d :
  Spec.month_start s = Some d ->
  Pd.to_datetime_cell Pd.fmt_mY (Str s) = Ok (Stamp d).
Proof.
  unfold Spec.month_start, Pd.to_datetime_cell.
  destruct s as [|m1 [|c2 [|c3 [|c4 [|c5 [|c6 [|c7 [|c8 s]]]]]]]];
    try discriminate.
  - destruct (N.eqb c2 47 && is_digit m1 && all_digits [c3; c4; c5; c6]) eqn:Hc;
      [|discriminate].
    repeat (apply andb_true_iff in Hc as [Hc ?]).
    apply N.eqb_eq in Hc. subst c2. intros Hd.
    change [m1; 47%N; c3; c4; c5; c6] with ([m1] ++ 47%N :: [c3; c4; c5; c6]).
    rewrite strptime_month; auto; [|cbn; rewrite andb_true_r; assumption].
    rewrite (first_of_month_date _ _ _ Hd). reflexivity.
  - destruct (N.eqb c3 47 && is_digit m1 && is_digit c2
              && all_digits [c4; c5; c6; c7]) eqn:Hc; [|discriminate].
    repeat (apply andb_true_iff in Hc as [Hc ?]).
    apply N.eqb_eq in Hc. subst c3. intros Hd.
    change [m1; c2; 47%N; c4; c5; c6; c7]
      with ([m1; c2] ++ 47%N :: [c4; c5; c6; c7]).
    rewrite strptime_month; auto;
      [|cbn; rewrite andb_true_r; apply andb_true_iff; split; assumption].
    rewrite (first_of_month_date _ _ _ Hd). reflexivity.
Qed.

(** The years of four digits, spelled out by [str] and read back: checked
    year by year. *)
Lemma year_cells :
  forallb (fun z =>
             match Pd.strptime Pd.fmt_Y (str_of_Z z), Pd.make_date z 1 1 with
             | Ok a, Ok b => bool_decide (a = b)
             | Err _, Err _ => true
             | _, _ => false
             end)
          (map (fun i => 1000 + Z.of_nat i) (seq 0 (Z.to_nat 9000)))
  = true.
Proof. vm_compute. reflexivity. Qed.

(** One reference value of the annual payload through [%Y]. *)
Lemma year_cell c d :
  Spec.year_start c = Some d ->
  Pd.to_datetime_cell Pd.fmt_Y c = Ok (Stamp d).
Proof.
  unfold Spec.year_start, Pd.to_datetime_cell.
  destruct c as [s|z| | |]; try discriminate.
  - destruct s as [|y1 [|y2 [|y3 [|y4 [|y5 s]]]]]; try discriminate.
    destruct (all_digits [y1; y2; y3; y4]) eqn:Hy; [|discriminate].
    intros Hd. rewrite strptime_year by auto.
    rewrite (first_of_month_date _ _ _ Hd). reflexivity.
  - destruct ((1000 <=? z) && (z <=? 9999)) eqn:Hz; [|discriminate].
    apply andb_true_iff in Hz as [Hlo Hhi].
    apply Z.leb_le in Hlo, Hhi. intros Hd.
    apply first_of_month_date in Hd.
    replace (z <? 0) with false by (symmetry; apply Z.ltb_ge; lia).
    pose proof (forallb_Zrange _ _ _ year_cells z ltac:(lia)) as Hc.
    cbv beta in Hc. rewrite Hd in Hc.
    destruct (Pd.strptime Pd.fmt_Y (str_of_Z z)) as [a|]; [|discriminate Hc].
    apply bool_decide_eq_true in Hc. subst a. reflexivity.
Qed.

(** A column through [pd.to_datetime], cell by cell. *)
Lemma to_datetime_column f (start_of : cell -> option date) raw : forall ref,
  (forall c d, start_of c = Some d -> Pd.to_datetime_cell f c = Ok (Stamp d)) ->
  Forall2 (fun c c' => exists d, start_of c = Some d /\ c' = Stamp d) raw ref ->
  Pd.to_datetime f raw = Ok ref.
Proof.
  intros ref Hcell Hall. unfold Pd.to_datetime.
  induction Hall as [|c c' raw ref (d & Hd & ->) _ IH]; [reflexivity|].
  cbn [rmap]. rewrite (Hcell c d Hd), IH. reflexivity.
Qed.

End reference_date.

(** C6.  Once the payload is in and its observation dates are parsed,
    [get_market_expectations] treats the reference-date column by
    frequency.  For ['monthly'] every value ["<m>/<year>"] becomes the
    first day of that month, 2021-02-01 for ["2/2021"]; for ['annual']
    every year becomes its first day, 2021-01-01 for 2021; for
    ['quarterly'] every value ["<n>/<year>"] becomes the first day of
    quarter [n] of the year, 2021-04-01 for ["2/2021"]; for every other
    frequency the column is the raw one. *)
Theorem get_market_expectations_reference_date
    w frequency Indicators start end_ url df data data' raw :
  create_query_url frequency Indicators start end_ = Ok url ->
  server w (requests w) url = Ok df ->
  Expect.getitem df (lit "Data") = Ok data ->
  Pd.to_datetime_default data = Ok data' ->
  Expect.getitem df (lit "DataReferencia") = Ok raw ->
  let df' := Expect.setitem df (lit "Data") data' in
  let out := fst (get_market_expectations frequency Indicators start end_ w) in
  (frequency = lit "monthly" ->
     forall ref,
       Forall2 (fun c c' => exists s d,
                  c = Str s /\ Spec.month_start s = Some d /\ c' = Stamp d)
               raw ref ->
       out = Ok (Expect.setitem df' (lit "DataReferencia") ref))
  /\ (frequency = lit "annual" ->
        forall ref,
          Forall2 (fun c c' => exists d,
                     Spec.year_start c = Some d /\ c' = Stamp d)
                  raw ref ->
          out = Ok (Expect.setitem df' (lit "DataReferencia") ref))
  /\ (frequency = lit "quarterly" ->
        forall ref,
          Forall2 (fun c c' => exists s d,
                     c = Str s /\ Spec.quarter_start s = Some d /\ c' = Stamp d)
                  raw ref ->
          out = Ok (Expect.setitem df' (lit "DataReferencia") ref))
  /\ (frequency <> lit "monthly" -> frequency <> lit "annual" ->
      frequency <> lit "quarterly" ->
        out = Ok df' /\ Expect.getitem df' (lit "DataReferencia") = Ok raw)
  /\ Spec.quarter_start (lit "2/2021") = Some (mkdate 2021 4 1)
  /\ Spec.month_start (lit "2/2021") = Some (mkdate 2021 2 1)
  /\ Spec.month_start (lit "11/2021") = Some (mkdate 2021 11 1)
  /\ Spec.year_start (Int 2021) = Some (mkdate 2021 1 1)
  /\ Spec.year_start (Str (lit "2021")) = Some (mkdate 2021 1 1).
Proof.
  intros Hurl Hsrv Hdata Hparse Href df' out.
  assert (Href' : Expect.getitem df' (lit "DataReferencia") = Ok raw).
  { unfold df'. rewrite getitem_setitem_ne; [exact Href | discriminate |].
    unfold Expect.getitem in Hdata.
    destruct (list_find (fun col => col.1 = lit "Data") df);
      [eauto | discriminate Hdata]. }
  assert (Hout : out =
            if decide (frequency = lit "monthly") then
              ref ← Pd.to_datetime Pd.fmt_mY raw;
              Ok (Expect.setitem df' (lit "DataReferencia") ref)
            else if decide (frequency = lit "annual") then
              ref ← Pd.to_datetime Pd.fmt_Y raw;
              Ok (Expect.setitem df' (lit "DataReferencia") ref)
            else if decide (frequency = lit "quarterly") then
              ref ← (qs ← rmap (Expect.prepend_cell (lit "Q")) raw;
                     qs ← rmap (Expect.str_replace_cell (lit "/") (lit " ")) qs;
                     qs ← rmap Expect.sub_quarter_cell qs;
                     rmap Expect.quarter_start_cell qs);
              Ok (Expect.setitem df' (lit "DataReferencia") ref)
            else Ok df').
  { unfold out, get_market_expectations, mbind, M_bind, read_csv, lift, mret, M_ret.
    rewrite Hurl, Hsrv, Hdata, Hparse. fold df'.
    destruct (decide (frequency = lit "monthly")).
    { rewrite Href'. unfold result_bind, rbind.
      destruct (Pd.to_datetime Pd.fmt_mY raw); reflexivity. }
    destruct (decide (frequency = lit "annual")).
    { rewrite Href'. unfold result_bind, rbind.
      destruct (Pd.to_datetime Pd.fmt_Y raw); reflexivity. }
    destruct (decide (frequency = lit "quarterly")); [|reflexivity].
    rewrite Href'. unfold result_bind, rbind.
    destruct (rmap (Expect.prepend_cell (lit "Q")) raw) as [q1|]; [|reflexivity].
    destruct (rmap (Expect.str_replace_cell (lit "/") (lit " ")) q1) as [q2|];
      [|reflexivity].
    destruct (rmap Expect.sub_quarter_cell q2) as [q3|]; [|reflexivity].
    destruct (rmap Expect.quarter_start_cell q3); reflexivity. }
  rewrite Hout.
  split; [|split; [|split; [|split; [|repeat split; vm_compute; reflexivity]]]].
  - intros -> ref Hall.
    destruct (decide (lit "monthly" = lit "monthly")) as [_|E]; [|congruence].
    rewrite (to_datetime_column Pd.fmt_mY
               (fun c => match c with Str s => Spec.month_start s | _ => None end)
               raw ref).
    + reflexivity.
    + intros [s|z|x|d0|] d Hd; try discriminate Hd. apply month_cell. exact Hd.
    + eapply Forall2_impl; [exact Hall|].
      intros c c' (s & d & -> & Hd & ->). exists d. split; [exact Hd | reflexivity].
  - intros -> ref Hall.
    destruct (decide (lit "annual" = lit "monthly")) as [E|_]; [discriminate E|].
    destruct (decide (lit "annual" = lit "annual")) as [_|E]; [|congruence].
    rewrite (to_datetime_column Pd.fmt_Y Spec.year_start raw ref);
      [reflexivity | apply year_cell | exact Hall].
  - intros -> ref Hall.
    destruct (decide (lit "quarterly" = lit "monthly")) as [E|_];
      [discriminate E|].
    destruct (decide (lit "quarterly" = lit "annual")) as [E|_];
      [discriminate E|].
    destruct (decide (lit "quarterly" = lit "quarterly")) as [_|E];
      [|congruence].
    rewrite (quarter_column raw ref Hall). reflexivity.
  - intros H1 H2 H3.
    destruct (decide (frequency = lit "monthly")); [contradiction|].
    destruct (decide (frequency = lit "annual")); [contradiction|].
    destruct (decide (frequency = lit "quarterly")); [contradiction|].
    split; [reflexivity | exact Href'].
Qed.

Lemma get_market_expectations_reference_date_witness :
  (fun df => Expect.getitem df (lit "DataReferencia"))
    <$> fst (get_market_expectations (lit "quarterly") None None None
               Demo.expectations_world)
  = Ok (Ok [Stamp (mkdate 2021 4 1); Stamp (mkdate 2022 10 1)])
  /\ (fun df => Expect.getitem df (lit "DataReferencia"))
       <$> fst (get_market_expectations (lit "monthly") None None None
                  Demo.expectations_world)
     = Ok (Ok [Stamp (mkdate 2021 2 1); Stamp (mkdate 2022 4 1)])
  /\ (fun df => Expect.getitem df (lit "DataReferencia"))
       <$> fst (get_market_expectations (lit "annual") None None None
                  Demo.annual_world)
     = Ok (Ok [Stamp (mkdate 2021 1 1); Stamp (mkdate 2022 1 1)]).
Proof.
  split; [|split].
  - pose proof (get_market_expectations_reference_date
                  Demo.expectations_world (lit "quarterly") None None None
                  _ Demo.expectations
                  [Str (lit "2021-01-04"); Str (lit "2021-01-05")]
                  [Stamp (mkdate 2021 1 4); Stamp (mkdate 2021 1 5)]
                  [Str (lit "2/2021"); Str (lit "4/2022")]
                  ltac:(vm_compute; reflexivity) eq_refl
                  ltac:(vm_compute; reflexivity) ltac:(vm_compute; reflexivity)
                  ltac:(vm_compute; reflexivity))
      as (_ & _ & Hq & _).
    cbv zeta in Hq.
    rewrite (Hq eq_refl [Stamp (mkdate 2021 4 1); Stamp (mkdate 2022 10 1)]).
    + vm_compute. reflexivity.
    + repeat constructor; eexists _, _; (split; [reflexivity|]);
        (split; [vm_compute; reflexivity | reflexivity]).
  - pose proof (get_market_expectations_reference_date
                  Demo.expectations_world (lit "monthly") None None None
                  _ Demo.expectations
                  [Str (lit "2021-01-04"); Str (lit "2021-01-05")]
                  [Stamp (mkdate 2021 1 4); Stamp (mkdate 2021 1 5)]
                  [Str (lit "2/2021"); Str (lit "4/2022")]
                  ltac:(vm_compute; reflexivity) eq_refl
                  ltac:(vm_compute; reflexivity) ltac:(vm_compute; reflexivity)
                  ltac:(vm_compute; reflexivity))
      as (Hm & _).
    cbv zeta in Hm.
    rewrite (Hm eq_refl [Stamp (mkdate 2021 2 1); Stamp (mkdate 2022 4 1)]).
    + vm_compute. reflexivity.
    + repeat constructor; eexists _, _; (split; [reflexivity|]);
        (split; [vm_compute; reflexivity | reflexivity]).
  - pose proof (get_market_expectations_reference_date
                  Demo.annual_world (lit "annual") None None None
                  _ Demo.annual
                  [Str (lit "2021-01-04"); Str (lit "2021-01-05")]
                  [Stamp (mkdate 2021 1 4); Stamp (mkdate 2021 1 5)]
                  [Int 2021; Int 2022]
                  ltac:(vm_compute; reflexivity) eq_refl
                  ltac:(vm_compute; reflexivity) ltac:(vm_compute; reflexivity)
                  ltac:(vm_compute; reflexivity))
      as (_ & Ha & _).
    cbv zeta in Ha.
    rewrite (Ha eq_refl [Stamp (mkdate 2021 1 1); Stamp (mkdate 2022 1 1)]).
    + vm_compute. reflexivity.
    + repeat constructor; eexists; (split; [vm_compute; reflexivity | reflexivity]).
Defined.

(** ** mom2index *)

Section mom2index_series.
Context {L T : Type} `{Numeric T}.

(** The running product: at position [k], the product of the first [k+1]
    values, multiplied from the left. *)
Lemma cumprod_from_lookup (values : list T) : forall acc k,
  (k < length values)%nat ->
  cumprod_from acc values !! k = Some (fold_left mul (take (S k) values) acc).
Proof.
  induction values as [|x values IH]; intros acc k Hk; [cbn in Hk; lia|].
  destruct k as [|k]; [reflexivity|].
  cbn [cumprod_from lookup]. apply IH. cbn in Hk. lia.
Qed.

Lemma cumprod_lookup x (values : list T) k :
  (k <= length values)%nat ->
  cumprod (x :: values) !! k = Some (fold_left mul (take k values) x).
Proof.
  intros Hk. destruct k as [|k]; [reflexivity|].
  cbn [cumprod]. apply cumprod_from_lookup. lia.
Qed.

Lemma cumprod_from_length (values : list T) : forall acc,
  length (cumprod_from acc values) = length values.
Proof.
  induction values as [|x values IH]; intros acc; [reflexivity|].
  cbn. rewrite IH. reflexivity.
Qed.

Lemma cumprod_length (values : list T) :
  length (cumprod values) = length values.
Proof.
  destruct values; [reflexivity|]. cbn. rewrite cumprod_from_length. reflexivity.
Qed.

(** What [_mom2index] returns for a series whose first value that is not
    missing is [v0], at the label [l0]. *)
Lemma _mom2index_kept (s : Series L T) l0 v0 rest :
  items (dropna s) = (l0, v0) :: rest ->
  _mom2index s
  = Ok (mkSeries (sname s)
          (zip (l0 :: rest.*1)
               (map (fun x => div x (add v0 one))
                    (cumprod (map (fun x => add x one) (v0 :: rest.*2)))))).
Proof.
  intros Hk. unfold _mom2index. rewrite Hk. reflexivity.
Qed.

Lemma _mom2index_values (s : Series L T) l0 v0 rest :
  items (dropna s) = (l0, v0) :: rest ->
  exists r,
    _mom2index s = Ok r
    /\ sname r = sname s
    /\ (items r).*1 = l0 :: rest.*1
    /\ length (items r) = S (length rest)
    /\ forall k, (k <= length rest)%nat ->
         (items r).*2 !! k
         = Some (div (fold_left mul
                        (take k (map (fun x => add x one) rest.*2))
                        (add v0 one))
                     (add v0 one)).
Proof.
  intros Hk. eexists. split; [apply (_mom2index_kept s l0 v0 rest Hk)|].
  cbn [sname items].
  assert (Hlen : length (l0 :: rest.*1)
                 = length (map (fun x => div x (add v0 one))
                             (cumprod (map (fun x => add x one) (v0 :: rest.*2))))).
  { rewrite length_map, cumprod_length, length_map. cbn.
    rewrite !length_fmap. reflexivity. }
  split; [reflexivity|].
  split; [apply fst_zip, Nat.eq_le_incl; exact Hlen|].
  split.
  { rewrite length_zip, <- Hlen, Nat.min_id. cbn. rewrite length_fmap. reflexivity. }
  intros k Hkr.
  rewrite snd_zip by (apply Nat.eq_le_incl; symmetry; exact Hlen).
  change (map (fun x => add x one) (v0 :: rest.*2))
    with (add v0 one :: map (fun x => add x one) rest.*2).
  rewrite list_lookup_fmap, cumprod_lookup
    by (rewrite length_map, length_fmap; exact Hkr).
  reflexivity.
Qed.

End mom2index_series.

Section mom2index_float.
Context {L : Type}.

(** In binary64 the first value of the index is exactly [1.0], as long as
    one plus the first observation is finite and not zero. *)
Lemma _mom2index_first_float (s : Series L float) l0 v0 rest :
  items (dropna s) = (l0, v0) :: rest ->
  PrimFloat.is_finite (v0 + 1) = true ->
  PrimFloat.is_zero (v0 + 1) = false ->
  exists r, _mom2index s = Ok r /\ head (items r) = Some (l0, 1%float).
Proof.
  intros Hk Hfin Hnz. eexists. split; [apply (_mom2index_kept s l0 v0 rest Hk)|].
  cbn. rewrite float_div_self by assumption. reflexivity.
Qed.

Lemma cumprod_from_nonneg_float (values : list float) : forall acc,
  (0 <=? acc)%float = true ->
  Forall (fun x => (0 <? x)%float = true /\ PrimFloat.is_finite x = true) values ->
  Forall (fun x => (0 <=? x)%float = true) (cumprod_from acc values).
Proof.
  induction values as [|x values IH]; intros acc Hacc Hall; [constructor|].
  apply Forall_cons in Hall as [[Hx Hfin] Hall]. cbn [cumprod_from].
  assert (Hp : (0 <=? acc * x)%float = true)
    by (apply float_mul_nonneg; assumption).
  constructor; [exact Hp | apply IH; assumption].
Qed.

Lemma cumprod_nonneg_float (values : list float) :
  Forall (fun x => (0 <? x)%float = true /\ PrimFloat.is_finite x = true) values ->
  Forall (fun x => (0 <=? x)%float = true) (cumprod values).
Proof.
  destruct values as [|x values]; [constructor|].
  intros Hall. pose proof Hall as Hall'.
  apply Forall_cons in Hall' as [[Hx _] Hrest]. cbn [cumprod].
  pose proof (float_positive_nonneg x Hx) as Hx'.
  constructor; [exact Hx' | apply cumprod_from_nonneg_float; assumption].
Qed.

(** In binary64, factors that are positive and finite give an index that
    starts at exactly [1.0] and never goes below zero: every value is a
    number that is not negative.  (It can reach [0.0] when the running
    product underflows, and infinity when it overflows.) *)
Lemma _mom2index_nonneg_float (s : Series L float) l0 v0 rest :
  items (dropna s) = (l0, v0) :: rest ->
  Forall (fun v => (0 <? v + 1)%float = true
                   /\ PrimFloat.is_finite (v + 1) = true) (v0 :: rest.*2) ->
  exists r,
    _mom2index s = Ok r
    /\ head (items r) = Some (l0, 1%float)
    /\ Forall (fun x => (0 <=? x)%float = true) (items r).*2.
Proof.
  intros Hk Hall. eexists.
  split; [apply (_mom2index_kept s l0 v0 rest Hk)|].
  pose proof Hall as Hall'. apply Forall_cons in Hall' as [[H0 Hf0] _].
  split.
  { cbn. rewrite float_div_self;
      [reflexivity | exact Hf0 | apply float_positive_nonzero; exact H0]. }
  cbn [items].
  assert (Hnn : Forall (fun x => (0 <=? x)%float = true)
                  (map (fun x => div x (add v0 one))
                     (cumprod (map (fun x => add x one) (v0 :: rest.*2))))).
  { apply List.Forall_map.
    eapply Forall_impl; [apply cumprod_nonneg_float, List.Forall_map; exact Hall|].
    cbn beta. intros x Hx. apply float_div_nonneg; assumption. }
  rewrite snd_zip; [exact Hnn|].
  rewrite length_map, cumprod_length, length_map. cbn.
  rewrite !length_fmap. reflexivity.
Qed.

End mom2index_float.

Section mom2index_exact.
Context {L : Type}.

Lemma Qcinv_pos (b : Qc) : (0 < b)%Qc -> (0 < / b)%Qc.
Proof.
  unfold Qclt. intros Hb.
  change (this (/ b)%Qc) with (Qred (/ this b)).
  rewrite Qred_correct. apply Qinv_lt_0_compat. exact Hb.
Qed.

Lemma Qcmult_pos (a b : Qc) : (0 < a)%Qc -> (0 < b)%Qc -> (0 < a * b)%Qc.
Proof.
  intros Ha Hb. rewrite <- (Qcmult_0_l b).
  apply Qcmult_lt_compat_r; assumption.
Qed.

Lemma exact_pos_mul (x y : exact) :
  exact_pos x -> exact_pos y -> exact_pos (mul x y).
Proof. destruct x, y; cbn; try tauto. apply Qcmult_pos. Qed.

Lemma exact_pos_div (x y : exact) :
  exact_pos x -> exact_pos y -> exact_pos (div x y).
Proof.
  destruct x as [a|], y as [b|]; cbn; try tauto. intros Ha Hb.
  destruct (Qc_eq_dec b 0%Qc) as [->|_]; [inversion Hb|].
  cbn. apply Qcmult_pos; [exact Ha | apply Qcinv_pos; exact Hb].
Qed.

Lemma exact_div_self (x : exact) : exact_pos x -> div x x = Some 1%Qc.
Proof.
  destruct x as [a|]; cbn; [|tauto]. intros Ha.
  destruct (Qc_eq_dec a 0%Qc) as [->|Hne]; [inversion Ha|].
  f_equal. apply Qcmult_inv_r. exact Hne.
Qed.

Lemma cumprod_from_pos (values : list exact) : forall acc,
  exact_pos acc -> Forall exact_pos values ->
  Forall exact_pos (cumprod_from acc values).
Proof.
  induction values as [|x values IH]; intros acc Hacc Hall; [constructor|].
  apply Forall_cons in Hall as [Hx Hall]. cbn.
  constructor; [apply exact_pos_mul; assumption|].
  apply IH; [apply exact_pos_mul; assumption | exact Hall].
Qed.

Lemma cumprod_pos (values : list exact) :
  Forall exact_pos values -> Forall exact_pos (cumprod values).
Proof.
  destruct values as [|x values]; [constructor|].
  intros Hall. apply Forall_cons in Hall as [Hx Hall]. cbn.
  constructor; [exact Hx | apply cumprod_from_pos; assumption].
Qed.

(** Without rounding, positive factors give a positive index that starts
    at one. *)
Lemma _mom2index_positive (s : Series L exact) l0 v0 rest :
  items (dropna s) = (l0, v0) :: rest ->
  Forall (fun v => exact_pos (add v one)) (v0 :: rest.*2) ->
  exists r,
    _mom2index s = Ok r
    /\ head (items r) = Some (l0, Some 1%Qc)
    /\ Forall exact_pos (items r).*2.
Proof.
  intros Hk Hall. eexists.
  split; [apply (_mom2index_kept s l0 v0 rest Hk)|].
  pose proof Hall as Hall'. apply Forall_cons in Hall' as [H0 _].
  split.
  { cbn. rewrite exact_div_self by exact H0. reflexivity. }
  cbn [items].
  assert (Hpos : Forall exact_pos
                   (map (fun x => div x (add v0 one))
                      (cumprod (map (fun x => add x one) (v0 :: rest.*2))))).
  { apply List.Forall_map.
    eapply Forall_impl; [apply cumprod_pos, List.Forall_map; exact Hall|].
    cbn beta. intros x Hx. apply exact_pos_div; assumption. }
  rewrite snd_zip; [exact Hpos|].
  rewrite length_map, cumprod_length, length_map. cbn.
  rewrite !length_fmap. reflexivity.
Qed.

End mom2index_exact.

Section mom2index_table.
Context {L T : Type} {EqL : EqDecision L} {UnionL : IndexUnion L}
        {LawsL : IndexUnionLaws L} {NumT : Numeric T}.

Lemma assoc_elem (l : L) (rows : list (L * T)) y :
  Frame.assoc l rows = Some y -> l ∈ rows.*1.
Proof.
  induction rows as [|[k v] rows IH]; [discriminate|]. cbn.
  destruct (decide (k = l)) as [->|_]; [intros _; left|].
  intros Hy. right. apply IH. exact Hy.
Qed.

Lemma assoc_zip_map (f : L -> T) (l : L) (idx : list L) :
  l ∈ idx -> Frame.assoc l (zip idx (map f idx)) = Some (f l).
Proof.
  induction idx as [|k idx IH]; intros Hl; [inversion Hl|]. cbn.
  destruct (decide (k = l)) as [->|Hne]; [reflexivity|].
  apply IH. apply elem_of_cons in Hl as [->|Hl]; [congruence | exact Hl].
Qed.

(** The value a reindexed column has at a label it had before. *)
Lemma assoc_reindex (old new : list L) (vals : list T) l y :
  Frame.assoc l (zip old vals) = Some y -> l ∈ new ->
  Frame.assoc l (zip new (Frame.reindex old new vals)) = Some y.
Proof.
  intros Hy Hl. unfold Frame.reindex.
  rewrite (assoc_zip_map
             (fun l => default na (Frame.assoc l (zip old vals))) l new Hl).
  rewrite Hy. reflexivity.
Qed.

Lemma filter_zip_sublist (P : L * T -> bool) (idx : list L) : forall vals,
  (List.filter P (zip idx vals)).*1 `sublist_of` idx.
Proof.
  induction idx as [|k idx IH]; intros vals; [constructor|].
  destruct vals as [|v vals]; [apply sublist_nil_l|]. cbn.
  destruct (P (k, v)); cbn.
  - apply sublist_skip, IH.
  - apply sublist_cons, IH.
Qed.

Lemma assoc_zip_elem (l : L) (idx : list L) : forall (vals : list T) y,
  Frame.assoc l (zip idx vals) = Some y -> l ∈ idx.
Proof.
  induction idx as [|k idx IH]; intros [|v vals] y; try discriminate. cbn.
  destruct (decide (k = l)) as [->|_]; [intros _; left|].
  intros Hy. right. eapply IH. exact Hy.
Qed.

Lemma _mom2index_labels (s r : Series L T) :
  _mom2index s = Ok r ->
  sname r = sname s /\ (items r).*1 = (items (dropna s)).*1.
Proof.
  destruct (items (dropna s)) as [|[l0 v0] rest] eqn:Hk.
  - unfold _mom2index. rewrite Hk. discriminate.
  - destruct (_mom2index_values s l0 v0 rest Hk) as (r' & Hr' & Hn & Hl & _).
    rewrite Hr'. intros [= <-]. split; [exact Hn | exact Hl].
Qed.

Lemma concat_step (data acc : DataFrame L T) done col r :
  NoDup (index data) ->
  NoDup (index acc) ->
  Forall2 (rebased_alone data acc) done (columns acc) ->
  _mom2index (column_series data col) = Ok r ->
  exists acc',
    Frame.concat acc (Frame.of_series r) = Ok acc'
    /\ NoDup (index acc')
    /\ Forall2 (rebased_alone data acc') (done ++ [col]) (columns acc').
Proof.
  intros Hdata Hacc Hinv Hr.
  destruct (_mom2index_labels _ _ Hr) as [Hname Hlabels].
  assert (Hnd : NoDup (items r).*1).
  { rewrite Hlabels. eapply sublist_NoDup; [exact Hdata|].
    apply filter_zip_sublist. }
  assert (Hzip : zip (map fst (items r)) (map snd (items r)) = items r)
    by apply zip_fst_snd.
  unfold Frame.concat, Frame.of_series. cbn [index columns].
  destruct (decide (index acc = map fst (items r))) as [Heq|Hne].
  - eexists. split; [reflexivity|]. cbn [index columns].
    split; [exact Hacc|]. apply Forall2_app.
    + eapply Forall2_impl; [exact Hinv|]. intros c oc Hc. exact Hc.
    + constructor; [|constructor]. split; [exact Hname|].
      exists r. split; [exact Hr|]. cbn [snd index].
      rewrite Heq, Hzip. auto.
  - destruct (decide (NoDup (index acc) /\ NoDup (map fst (items r))))
      as [_|Hn]; [|exfalso; apply Hn; split; assumption].
    set (idx := index_union (index acc) (map fst (items r))).
    eexists. split; [reflexivity|]. cbn [index columns].
    split; [apply NoDup_index_union; assumption|].
    apply Forall2_app.
    + unfold Frame.reindex_columns. apply Forall2_fmap_r.
      eapply Forall2_impl; [exact Hinv|].
      intros c oc (Hn & r' & Hr' & Hval). split; [exact Hn|].
      exists r'. split; [exact Hr'|]. cbn [snd index].
      intros l y Hy. specialize (Hval l y Hy).
      apply assoc_reindex; [exact Hval|].
      apply elem_of_index_union. left.
      eapply assoc_zip_elem. exact Hval.
    + unfold Frame.reindex_columns. cbn [map].
      constructor; [|constructor]. split; [exact Hname|].
      exists r. split; [exact Hr|]. cbn [snd index].
      intros l y Hy. apply assoc_reindex.
      * rewrite Hzip. exact Hy.
      * apply elem_of_index_union. right. eapply assoc_elem. exact Hy.
Qed.

(** The loop over the columns keeps that property of the columns done. *)
Lemma mom2index_loop (data : DataFrame L T) cols : forall acc done,
  NoDup (index data) ->
  NoDup (index acc) ->
  Forall2 (rebased_alone data acc) done (columns acc) ->
  Forall (fun col => items (dropna (column_series data col)) <> []) cols ->
  exists out,
    rfold (fun index col =>
             index_ ← _mom2index (column_series data col);
             Frame.concat index (Frame.of_series index_)) acc cols = Ok out
    /\ Forall2 (rebased_alone data out) (done ++ cols) (columns out).
Proof.
  induction cols as [|col cols IH]; intros acc done Hdata Hacc Hinv Hall.
  - exists acc. rewrite app_nil_r. split; [reflexivity | exact Hinv].
  - apply Forall_cons in Hall as [Hcol Hall].
    destruct (items (dropna (column_series data col))) as [|[l0 v0] rest] eqn:Hk;
      [congruence|].
    pose proof (_mom2index_kept _ l0 v0 rest Hk) as Hr.
    destruct (concat_step data acc done col _ Hdata Hacc Hinv Hr)
      as (acc' & Hc & Hnd & Hinv').
    destruct (IH acc' (done ++ [col]) Hdata Hnd Hinv' Hall) as (out & Hout & Hfin).
    exists out. rewrite <- app_assoc in Hfin. split; [|exact Hfin].
    cbn [rfold]. rewrite Hr. unfold mbind, result_bind, rbind.
    unfold mbind, result_bind, rbind in Hout.
    rewrite Hc. exact Hout.
Qed.

(** For a table, every column of the result is the index of that column
    taken alone. *)
Lemma mom2index_columns (data : DataFrame L T) :
  NoDup (columns data).*1 ->
  NoDup (index data) ->
  Forall (fun col => items (dropna (column_series data col)) <> [])
         (columns data) ->
  exists out,
    mom2index (PFrame data) = Ok (PFrame out)
    /\ Forall2 (rebased_alone data out) (columns data) (columns out).
Proof.
  intros Hnames Hdata Hall.
  destruct (mom2index_loop data (columns data) Frame.empty [] Hdata
              (NoDup_nil_2) (List.Forall2_nil _) Hall) as (out & Hout & Hfin).
  exists out. split; [|exact Hfin].
  unfold mom2index.
  destruct (decide (NoDup (map fst (columns data)))) as [_|Hn];
    [|contradiction].
  unfold mbind, result_bind, rbind. unfold mbind, result_bind, rbind in Hout.
  rewrite Hout. reflexivity.
Qed.

End mom2index_table.

#[global] Instance demo_union_laws {L : Type} `{EqDecision L} :
  @IndexUnionLaws L Demo.union.
Proof.
  split.
  - intros a b x. unfold index_union, Demo.union.
    rewrite elem_of_app, list_elem_of_difference.
    destruct (decide (x ∈ a)); tauto.
  - intros a b Ha Hb. unfold index_union, Demo.union.
    apply NoDup_app. split; [exact Ha|]. split.
    + intros x Hx Hd. apply list_elem_of_difference in Hd. tauto.
    + apply NoDup_list_difference. exact Hb.
Qed.

(** C8, as stated, fails in three places.  A series that starts with a
    month-over-month change of [-1.0] has a non-missing value, yet its
    index is missing throughout: zero divided by zero.  Twenty-one changes
    of [-(1 - 2^-53)] all have [1 + mom = 2^-53 > 0], yet the running
    product underflows and the last value of the index is [0.0].  And an
    infinite change has [1 + mom > 0], yet its index is infinity over
    infinity, which is no number. *)
Lemma mom2index_rebased_counterexample :
  (exists r,
     mom2index (UnionL := Demo.union) (PSeries (Demo.series_of [(-1)%float; 0.5%float]))
     = Ok (PSeries r)
     /\ (items r).*2 = [PrimFloat.nan; PrimFloat.nan])
  /\ (let mom := replicate 21 (-0x1.fffffffffffffp-1)%float in
      forallb (fun x => (0 <? x + 1)%float) mom = true
      /\ exists r,
           mom2index (UnionL := Demo.union) (PSeries (Demo.series_of mom))
           = Ok (PSeries r)
           /\ (items r).*2 !! 20%nat = Some 0%float
           /\ (0 <? 0)%float = false)
  /\ ((0 <? PrimFloat.infinity + 1)%float = true
      /\ exists r,
           mom2index (UnionL := Demo.union)
             (PSeries (Demo.series_of [PrimFloat.infinity]))
           = Ok (PSeries r)
           /\ (items r).*2 = [PrimFloat.nan]).
Proof.
  split; [|split].
  - eexists. split; vm_compute; reflexivity.
  - cbv zeta. split; [vm_compute; reflexivity|].
    eexists. split; [vm_compute; reflexivity|].
    split; vm_compute; reflexivity.
  - split; [vm_compute; reflexivity|].
    eexists. split; vm_compute; reflexivity.
Qed.

(** C8, amended.  For a series whose first value that is not missing is
    [v0], [mom2index] drops the missing values, takes the running product
    of [1 + value] and divides it by its first element [1 + v0]; the result
    starts at the label of [v0].  In binary64 its first value is exactly
    [1.0] when [1 + v0] is finite and not zero, and when every [1 + value]
    is positive and finite no value is negative or [NaN]: every value is
    at least zero.  In exact arithmetic its first value is [1] and every
    value is positive when every [1 + value] is.  For a table with
    distinct column names and distinct row labels, every column of the
    result holds, label for label, the index of that column taken
    alone. *)
Theorem mom2index_rebased {L : Type} {EqL : EqDecision L}
    {UnionL : IndexUnion L} {LawsL : IndexUnionLaws L} :
  (forall (T : Type) (NumT : Numeric T) (s : Series L T) l0 v0 rest,
     items (dropna s) = (l0, v0) :: rest ->
     exists r,
       mom2index (PSeries s) = Ok (PSeries r)
       /\ sname r = sname s
       /\ (items r).*1 = l0 :: rest.*1
       /\ forall k, (k <= length rest)%nat ->
            (items r).*2 !! k
            = Some (div (fold_left mul
                           (take k (map (fun x => add x one) rest.*2))
                           (add v0 one))
                        (add v0 one)))
  /\ (forall (s : Series L float) l0 v0 rest,
        items (dropna s) = (l0, v0) :: rest ->
        PrimFloat.is_finite (v0 + 1) = true ->
        PrimFloat.is_zero (v0 + 1) = false ->
        exists r,
          mom2index (PSeries s) = Ok (PSeries r)
          /\ head (items r) = Some (l0, 1%float))
  /\ (forall (s : Series L float) l0 v0 rest,
        items (dropna s) = (l0, v0) :: rest ->
        Forall (fun v => (0 <? v + 1)%float = true
                         /\ PrimFloat.is_finite (v + 1) = true)
               (v0 :: rest.*2) ->
        exists r,
          mom2index (PSeries s) = Ok (PSeries r)
          /\ head (items r) = Some (l0, 1%float)
          /\ Forall (fun x => (0 <=? x)%float = true) (items r).*2)
  /\ (forall (s : Series L exact) l0 v0 rest,
        items (dropna s) = (l0, v0) :: rest ->
        Forall (fun v => exact_pos (add v one)) (v0 :: rest.*2) ->
        exists r,
          mom2index (PSeries s) = Ok (PSeries r)
          /\ head (items r) = Some (l0, Some 1%Qc)
          /\ Forall exact_pos (items r).*2)
  /\ (forall (T : Type) (NumT : Numeric T) (data : DataFrame L T),
        NoDup (columns data).*1 ->
        NoDup (index data) ->
        Forall (fun col => items (dropna (column_series data col)) <> [])
               (columns data) ->
        exists out,
          mom2index (PFrame data) = Ok (PFrame out)
          /\ Forall2 (rebased_alone data out) (columns data) (columns out)).
Proof.
  assert (Hser : forall (T : Type) (NumT : Numeric T) (s r : Series L T),
            _mom2index s = Ok r -> mom2index (PSeries s) = Ok (PSeries r)).
  { intros T NumT s r Hr. unfold mom2index. rewrite Hr. reflexivity. }
  split; [|split; [|split; [|split]]].
  - intros T NumT s l0 v0 rest Hk.
    destruct (_mom2index_values s l0 v0 rest Hk) as (r & Hr & Hn & Hl & _ & Hv).
    exists r. auto.
  - intros s l0 v0 rest Hk Hfin Hnz.
    destruct (_mom2index_first_float s l0 v0 rest Hk Hfin Hnz) as (r & Hr & Hh).
    exists r. auto.
  - intros s l0 v0 rest Hk Hall.
    destruct (_mom2index_nonneg_float s l0 v0 rest Hk Hall) as (r & Hr & Hh & Hp).
    exists r. auto.
  - intros s l0 v0 rest Hk Hall.
    destruct (_mom2index_positive s l0 v0 rest Hk Hall) as (r & Hr & Hh & Hp).
    exists r. auto.
  - intros T NumT data. apply mom2index_columns.
Qed.

Lemma mom2index_rebased_witness :
  (exists r,
     mom2index (UnionL := Demo.union)
       (PSeries (Demo.series_of [PrimFloat.nan; 0.5%float; 0.25%float]))
     = Ok (PSeries r)
     /\ head (items r) = Some (1%nat, 1%float))
  /\ (exists r,
        mom2index (UnionL := Demo.union)
          (PSeries (Demo.series_of [PrimFloat.nan; 0.5%float; (-0.25)%float]))
        = Ok (PSeries r)
        /\ head (items r) = Some (1%nat, 1%float)
        /\ Forall (fun x => (0 <=? x)%float = true) (items r).*2).
Proof.
  destruct (mom2index_rebased (L := nat) (UnionL := Demo.union))
    as (_ & Hfloat & Hsign & _).
  split.
  - apply (Hfloat (Demo.series_of [PrimFloat.nan; 0.5%float; 0.25%float])
                  1%nat 0.5%float [(2%nat, 0.25%float)]);
      vm_compute; reflexivity.
  - apply (Hsign (Demo.series_of [PrimFloat.nan; 0.5%float; (-0.25)%float])
                 1%nat 0.5%float [(2%nat, (-0.25)%float)]).
    + vm_compute. reflexivity.
    + repeat constructor; vm_compute; reflexivity.
Defined.

(** The same on exact numbers: changes of +1/2 and -1/4 around a
    missing month give the index 1, 3/4. *)
Example mom2index_exact_example :
  match mom2index (UnionL := Demo.union)
          (PSeries (Demo.series_of
                      [Some (Q2Qc (1 # 2)); None; Some (Q2Qc (-1 # 4))])) with
  | Ok (PSeries r) => map (fun row => option_map this (snd row)) (items r)
  | _ => []
  end
  = [Some (1 # 1)%Q; Some (3 # 4)%Q].
Proof. vm_compute. reflexivity. Qed.

(* ===================================================================== *)
(** * Part III. Further properties of the seven functions                 *)
(* ===================================================================== *)


(** ** get_series *)

(** X1.  A call of [get_series] makes exactly one request, to the URL of
    its code, whether it returns or raises; it touches no list object. *)
Theorem get_series_one_request code name start end_ rt date_column w :
  requests (snd (get_series code name start end_ rt date_column w))
  = requests w ++ [series_url code]
  /\ heap (snd (get_series code name start end_ rt date_column w)) = heap w
  /\ server (snd (get_series code name start end_ rt date_column w)) = server w.
Proof.
  rewrite get_series_world. repeat split.
Qed.

(** X2.  Different codes are fetched from different URLs. *)
Theorem series_url_inj code code' :
  code <> code' -> series_url code <> series_url code'.
Proof.
  unfold series_url. intros Hne Heq. apply Hne.
  apply app_inv_head in Heq. apply app_inv_tail in Heq.
  apply str_of_Z_inj. exact Heq.
Qed.

Lemma series_url_inj_witness : series_url 433 <> series_url (-433).
Proof. apply (series_url_inj 433 (-433)). lia. Defined.

(** X3.  The two return types carry the same data: asked for a frame,
    [get_series] returns the one-column frame of the series it returns
    when asked for a series, and raises where that call raises. *)
Theorem get_series_return_types code name start end_ date_column w :
  fst (get_series code name start end_ pd_DataFrame date_column w)
  = as_frame <$> fst (get_series code name start end_ pd_Series date_column w).
Proof.
  unfold get_series, mbind, M_bind, read_csv, lift, mret, M_ret. cbn [fst snd].
  destruct (server w (requests w) (series_url code)) as [df|e]; [|reflexivity].
  destruct (match df with
            | [(_, c0); (_, c1)] => Ok (c0, c1)
            | _ => Err Pd.ValueError
            end) as [[dates values]|e]; [|reflexivity].
  destruct (if decide (name = date_column) then Err Pd.ValueError
            else Pd.to_datetime Pd.fmt_dmY dates) as [parsed|e]; [|reflexivity].
  destruct (Loc.loc_slice start end_
              (mkFrame (map stamp_of_cell parsed) [(name, values)]))
    as [sliced|e]; [|reflexivity].
  destruct (Frame.getitem sliced name) as [column|e]; reflexivity.
Qed.

Section get_series_edges.

(** What [get_series] computes from a payload of two columns whose dates
    parse. *)
Lemma get_series_payload code name start end_ rt date_column w h0 h1 dcol vcol parsed :
  server w (requests w) (series_url code) = Ok [(h0, dcol); (h1, vcol)] ->
  name <> date_column ->
  Pd.to_datetime Pd.fmt_dmY dcol = Ok parsed ->
  fst (get_series code name start end_ rt date_column w)
  = (sliced ← Loc.loc_slice start end_
                (mkFrame (map stamp_of_cell parsed) [(name, vcol)]);
     column ← Frame.getitem sliced name;
     Ok match rt with
        | pd_Series => PSeries column
        | pd_DataFrame => PFrame (Frame.of_series column)
        end).
Proof.
  intros Hsrv Hname Hparse.
  unfold get_series, mbind, M_bind, read_csv, lift, mret, M_ret.
  rewrite Hsrv. cbn [fst snd].
  destruct (decide (name = date_column)) as [|_]; [contradiction|].
  rewrite Hparse. unfold result_bind, rbind.
  destruct (Loc.loc_slice start end_
              (mkFrame (map stamp_of_cell parsed) [(name, vcol)]))
    as [sliced|e]; [|reflexivity].
  destruct (Frame.getitem sliced name); reflexivity.
Qed.

End get_series_edges.

(** X4.  Without bounds [get_series] returns every observation of the
    payload, in the order of the payload and under the name asked for,
    whatever the order of the dates. *)
Theorem get_series_unbounded code name date_column w h0 h1 dcol vcol parsed :
  server w (requests w) (series_url code) = Ok [(h0, dcol); (h1, vcol)] ->
  name <> date_column ->
  Pd.to_datetime Pd.fmt_dmY dcol = Ok parsed ->
  length vcol = length dcol ->
  exists r,
    fst (get_series code name None None pd_Series date_column w)
    = Ok (PSeries r)
    /\ sname r = name
    /\ (items r).*1 = map stamp_of_cell parsed
    /\ (items r).*2 = vcol.
Proof.
  intros Hsrv Hname Hparse Hlen.
  rewrite (get_series_payload _ _ _ _ _ _ _ _ _ _ _ _ Hsrv Hname Hparse).
  cbn [Loc.loc_slice]. unfold mbind, result_bind, rbind.
  unfold Frame.getitem. cbn [columns list_find fst].
  destruct (decide (name = name)) as [_|Hn]; [|congruence].
  cbn. eexists. split; [reflexivity|]. cbn [sname items].
  pose proof (rmap_length _ _ _ Hparse) as Hp.
  split; [reflexivity|].
  split; [apply fst_zip | apply snd_zip]; rewrite length_map; lia.
Qed.

Lemma get_series_unbounded_witness :
  exists r,
    fst (get_series 433 (lit "ipca") None None pd_Series (lit "Data")
           (Demo.world_with []))
    = Ok (PSeries r)
    /\ sname r = lit "ipca"
    /\ (items r).*1
       = map stamp_of_cell
           [Stamp (mkdate 2019 12 31); Stamp (mkdate 2020 1 1); Stamp (mkdate 2020 1 2)]
    /\ (items r).*2 = [Flt 0.5%float; Flt 0.25%float; Flt 0.125%float].
Proof.
  apply (get_series_unbounded 433 (lit "ipca") (lit "Data") (Demo.world_with [])
           (lit "data") (lit "valor")
           [Str (lit "31/12/2019"); Str (lit "01/01/2020"); Str (lit "02/01/2020")]);
    try (vm_compute; reflexivity).
  vm_compute. discriminate.
Defined.

(** X5.  A payload that does not have exactly two columns makes
    [get_series] raise [ValueError], after the request was made. *)
Theorem get_series_two_columns code name start end_ rt date_column w df :
  server w (requests w) (series_url code) = Ok df ->
  length df <> 2%nat ->
  get_series code name start end_ rt date_column w
  = (Err Pd.ValueError, logged w (series_url code)).
Proof.
  intros Hsrv Hlen.
  unfold get_series, mbind, M_bind, read_csv, lift, mret, M_ret.
  rewrite Hsrv. cbn [fst snd].
  destruct df as [|[h0 c0] [|[h1 c1] [|c2 df]]]; try reflexivity.
  cbn in Hlen. congruence.
Qed.

Lemma get_series_two_columns_witness :
  get_series 1 (lit "value") None None pd_Series (lit "Data")
    Demo.expectations_world
  = (Err Pd.ValueError, logged Demo.expectations_world (series_url 1)).
Proof.
  apply (get_series_two_columns 1 (lit "value") None None pd_Series (lit "Data")
           Demo.expectations_world Demo.expectations).
  - reflexivity.
  - cbn. lia.
Defined.

(** X6.  A range whose end lies before its start is not an error: for
    two days written ['yyyy-mm-dd'], from 1677-09-22 to 2262-04-10, and a
    payload that is not reverse-sorted, the result is the empty series
    under the name asked for. *)
Theorem get_series_empty_range w code name lo hi h0 h1 dcol vcol parsed :
  server w (requests w) (series_url code) = Ok [(h0, dcol); (h1, vcol)] ->
  name <> lit "Data" ->
  Pd.to_datetime Pd.fmt_dmY dcol = Ok parsed ->
  length vcol = length dcol ->
  Spec.slice_day lo = true ->
  Spec.slice_day hi = true ->
  Pd.date_ltb hi lo = true ->
  Loc.reverse_sorted (map stamp_of_cell parsed) = false ->
  fst (get_series code name (Some (Spec.iso_date lo)) (Some (Spec.iso_date hi))
         pd_Series (lit "Data") w)
  = Ok (PSeries (mkSeries name [])).
Proof.
  intros Hsrv Hname Hparse Hlen Hlo Hhi Hlt Hrev.
  etrans.
  { exact (get_series_between w code name (Some lo) (Some hi) h0 h1 dcol vcol
             parsed Hsrv Hname Hparse Hlen Hlo Hhi (or_intror Hrev)). }
  do 3 f_equal. unfold Spec.date_range.
  assert (Hnone : forall rows : list (stamp * cell),
            List.filter (Spec.row_within (Some lo) (Some hi)) rows = []).
  { induction rows as [|[[d|] v] rows IH]; cbn; [reflexivity| |exact IH].
    unfold Spec.row_within, Spec.within, Spec.above, Spec.below. cbn.
    replace (Pd.date_leb lo d && Pd.date_leb d hi) with false; [exact IH|].
    symmetry. apply not_true_iff_false. intros Hb.
    apply andb_true_iff in Hb as [H1 H2].
    rewrite date_leb_spec in H1, H2. rewrite date_ltb_spec in Hlt. lia. }
  apply Hnone.
Qed.

Lemma get_series_empty_range_witness :
  fst (get_series 433 (lit "value") (Some (lit "2020-01-02"))
         (Some (lit "2019-12-31")) pd_Series (lit "Data") (Demo.world_with []))
  = Ok (PSeries (mkSeries (lit "value") [])).
Proof.
  apply (get_series_empty_range (Demo.world_with []) 433 (lit "value")
           (mkdate 2020 1 2) (mkdate 2019 12 31)
           (lit "data") (lit "valor")
           [Str (lit "31/12/2019"); Str (lit "01/01/2020"); Str (lit "02/01/2020")]
           [Flt 0.5%float; Flt 0.25%float; Flt 0.125%float]
           [Stamp (mkdate 2019 12 31); Stamp (mkdate 2020 1 1);
            Stamp (mkdate 2020 1 2)]);
    try (vm_compute; reflexivity).
  vm_compute. discriminate.
Defined.

(** ** get_multiple_series *)

Section get_multiple_series_edges.
Context {UnionL : IndexUnion stamp}.

Lemma fetch_step_refused acc c name w e :
  server w (requests w) (series_url c) = Err e ->
  fetch_step acc (c, name) w = (Err e, logged w (series_url c)).
Proof.
  intros Hsrv. unfold fetch_step, get_series, mbind, M_bind, read_csv.
  rewrite Hsrv. reflexivity.
Qed.

(** Once the service refuses a code, the loop stops there. *)
Lemma fetch_loop_refused pairs : forall acc w i c e,
  pairs.*1 !! i = Some c ->
  (forall h, server w h (series_url c) = Err e) ->
  (exists e', fst (foldM fetch_step acc pairs w) = Err e')
  /\ exists k, (k <= S i)%nat
       /\ requests (snd (foldM fetch_step acc pairs w))
          = requests w ++ map series_url (take k pairs.*1).
Proof.
  induction pairs as [|[c0 n0] pairs IH]; intros acc w i c e Hi Hsrv;
    [discriminate Hi|].
  change (foldM fetch_step acc ((c0, n0) :: pairs) w)
    with (match fetch_step acc (c0, n0) w with
          | (Ok a, w') => foldM fetch_step a pairs w'
          | (Err e, w') => (Err e, w')
          end).
  destruct (fetch_step_spec acc c0 n0 w) as [Hw _].
  destruct i as [|i].
  - injection Hi as ->.
    rewrite (fetch_step_refused acc c n0 w e (Hsrv _)). cbn [fst snd].
    split; [eauto|]. exists 1%nat. split; [lia|]. cbn. rewrite take_0. reflexivity.
  - destruct (fetch_step acc (c0, n0) w) as [[acc'|e0] w1]; cbn in Hw; subst w1.
    + destruct (IH acc' (logged w (series_url c0)) i c e Hi Hsrv)
        as [Herr (k & Hk & Hr)].
      split; [exact Herr|]. exists (S k). split; [lia|].
      rewrite Hr. cbn. rewrite <- app_assoc. reflexivity.
    + cbn [fst snd]. split; [eauto|]. exists 1%nat. split; [lia|].
      cbn. rewrite take_0. reflexivity.
Qed.

End get_multiple_series_edges.

(** X7.  With an empty list of codes and no bounds,
    [get_multiple_series] makes no request and leaves every list object
    as it was, the list of names included, however many names it holds;
    it returns the empty frame. *)
Theorem get_multiple_series_no_codes {UnionL : IndexUnion stamp} w l names :
  heap w !! l = Some names ->
  get_multiple_series [] l None None w = (Ok Frame.empty, w).
Proof.
  intros Hl. rewrite (get_multiple_series_run _ _ _ _ _ _ Hl).
  unfold reconciled_world. cbn [length].
  replace (length names <? 0)%nat with false
    by (symmetry; apply Nat.ltb_ge; lia).
  reflexivity.
Qed.

Lemma get_multiple_series_no_codes_witness :
  get_multiple_series (UnionL := Demo.union) [] O None None
    (Demo.world_with [lit "a"])
  = (Ok Frame.empty, Demo.world_with [lit "a"]).
Proof.
  apply (get_multiple_series_no_codes (UnionL := Demo.union)
           (Demo.world_with [lit "a"]) O [lit "a"]).
  reflexivity.
Defined.

(** X8.  A fetch that fails aborts the whole call: when the service
    refuses the code at position [i], [get_multiple_series] raises, and
    it has requested at most the codes up to that position. *)
Theorem get_multiple_series_aborts {UnionL : IndexUnion stamp}
    w code_list l names start end_ i c e :
  heap w !! l = Some names ->
  code_list !! i = Some c ->
  (forall h, server w h (series_url c) = Err e) ->
  (exists e', fst (get_multiple_series code_list l start end_ w) = Err e')
  /\ exists k, (k <= S i)%nat
       /\ requests (snd (get_multiple_series code_list l start end_ w))
          = requests w ++ map series_url (take k code_list).
Proof.
  intros Hl Hi Hsrv. rewrite (get_multiple_series_run _ _ _ _ _ _ Hl).
  set (w1 := reconciled_world w code_list l names).
  assert (Hw1 : server w1 = server w /\ requests w1 = requests w).
  { unfold w1, reconciled_world.
    destruct (length names <? length code_list)%nat; split; reflexivity. }
  destruct Hw1 as [Hs1 Hr1].
  pose proof (reconciled_length code_list names) as Hlen.
  destruct (fetch_loop_refused (zip code_list (reconciled code_list names))
              Frame.empty w1 i c e) as [[e' He'] (k & Hk & Hr)].
  { rewrite fst_zip by lia. exact Hi. }
  { intros h. rewrite Hs1. apply Hsrv. }
  rewrite fst_zip in Hr by lia.
  unfold mbind, M_bind.
  destruct (foldM fetch_step Frame.empty
              (zip code_list (reconciled code_list names)) w1) as [[res|e0] w2];
    cbn in He', Hr |- *; [discriminate He'|].
  split; [eauto|]. exists k. split; [exact Hk|]. rewrite Hr, Hr1. reflexivity.
Qed.

Lemma get_multiple_series_aborts_witness :
  (exists e',
     fst (get_multiple_series (UnionL := Demo.union) [1; 2; 3] O None None
            Demo.refusing_world) = Err e')
  /\ exists k, (k <= 2)%nat
       /\ requests (snd (get_multiple_series (UnionL := Demo.union) [1; 2; 3] O
                           None None Demo.refusing_world))
          = requests Demo.refusing_world ++ map series_url (take k [1; 2; 3]).
Proof.
  apply (get_multiple_series_aborts (UnionL := Demo.union) Demo.refusing_world
           [1; 2; 3] O [lit "a"] None None 1%nat 2 (TransportError (lit "404"))).
  - reflexivity.
  - reflexivity.
  - intros h. vm_compute. reflexivity.
Defined.

(** X9.  [get_multiple_series] touches no list object but the one passed
    as [name_list], whether it returns or raises. *)
Theorem get_multiple_series_frame {UnionL : IndexUnion stamp}
    w code_list l names start end_ l' :
  heap w !! l = Some names ->
  l' <> l ->
  heap (snd (get_multiple_series code_list l start end_ w)) !! l'
  = heap w !! l'.
Proof.
  intros Hl Hne.
  destruct (get_multiple_series_outcome w code_list l names start end_ Hl)
    as (Hh & _ & _).
  cbv zeta in Hh. rewrite Hh. unfold reconciled_world.
  destruct (length names <? length code_list)%nat; [|reflexivity].
  cbn. apply lookup_insert_ne. congruence.
Qed.

Lemma get_multiple_series_frame_witness :
  heap (snd (get_multiple_series (UnionL := Demo.union) [1; 2] O None None
               Demo.two_lists)) !! 1%nat
  = Some [lit "b"].
Proof.
  etrans.
  - apply (get_multiple_series_frame (UnionL := Demo.union) Demo.two_lists
             [1; 2] O [lit "a"] None None 1%nat); [reflexivity | lia].
  - reflexivity.
Defined.

(** X10.  The names synthesized in one call are [unnamed_1], ...,
    [unnamed_k], pairwise distinct. *)
Theorem unnamed_distinct k :
  length (unnamed k) = k /\ NoDup (unnamed k)
  /\ forall i, (i < k)%nat ->
       unnamed k !! i = Some (lit "unnamed_" ++ str_of_nat (S i)).
Proof.
  unfold unnamed. split; [rewrite length_map, length_seq; reflexivity|].
  split.
  - assert (Hinj : Inj (=) (=) (fun i => lit "unnamed_" ++ str_of_nat i)).
    { intros a b Hab. apply app_inv_head in Hab. apply str_of_nat_inj. exact Hab. }
    apply (NoDup_fmap_2 _). apply NoDup_seq.
  - intros i Hi. rewrite list_lookup_fmap, lookup_seq_lt by exact Hi.
    reflexivity.
Qed.

(** X11.  The names appended to the caller's list stay there, and the
    numbering starts at 1 in every call: after a call with more codes than
    names, a later call with the same list and still more codes appends
    [unnamed_1] again.  The frame it returns has a column [unnamed_1] at
    the position of the first name synthesized by either call, and the
    caller's list ends up holding the names of all its columns. *)
Theorem get_multiple_series_names_collide {UnionL : IndexUnion stamp}
    w codes1 codes2 l names start1 end1 start2 end2 df :
  heap w !! l = Some names ->
  (length names < length codes1)%nat ->
  (length codes1 < length codes2)%nat ->
  let w1 := snd (get_multiple_series codes1 l start1 end1 w) in
  let out := get_multiple_series codes2 l start2 end2 w1 in
  fst out = Ok df ->
  let names1 := names ++ unnamed (length codes1 - length names) in
  heap w1 !! l = Some names1
  /\ (columns df).*1 = names1 ++ unnamed (length codes2 - length codes1)
  /\ (columns df).*1 !! length names = Some (lit "unnamed_1")
  /\ (columns df).*1 !! length codes1 = Some (lit "unnamed_1")
  /\ heap (snd out) !! l = Some (columns df).*1.
Proof.
  intros Hl H1 H2 w1 out Hdf names1.
  assert (Hl1 : heap w1 !! l = Some names1).
  { destruct (get_multiple_series_outcome w codes1 l names start1 end1 Hl)
      as (Hh & _ & _).
    cbv zeta in Hh. unfold w1. rewrite Hh. unfold reconciled_world.
    apply Nat.ltb_lt in H1. rewrite H1. cbn. apply lookup_insert_eq. }
  assert (Hlen1 : length names1 = length codes1).
  { unfold names1. rewrite length_app, unnamed_length. lia. }
  destruct (get_multiple_series_outcome w1 codes2 l names1 start2 end2 Hl1)
    as (Hh2 & _ & Hok).
  cbv zeta in Hh2, Hok. fold out in Hh2, Hok.
  destruct (Hok df Hdf) as [_ Hcols].
  assert (Hrec : reconciled codes2 names1
                 = names1 ++ unnamed (length codes2 - length codes1)).
  { unfold reconciled.
    replace (length codes2 <? length names1)%nat with false
      by (symmetry; apply Nat.ltb_ge; lia).
    rewrite Hlen1. reflexivity. }
  rewrite Hrec in Hcols.
  split; [exact Hl1|]. split; [exact Hcols|]. rewrite Hcols.
  split; [|split].
  - rewrite lookup_app_l by lia. unfold names1.
    rewrite lookup_app_r by lia. rewrite Nat.sub_diag.
    apply (unnamed_lookup _ O). lia.
  - rewrite lookup_app_r by lia. rewrite Hlen1, Nat.sub_diag.
    apply (unnamed_lookup _ O). lia.
  - rewrite Hh2. unfold reconciled_world.
    replace (length names1 <? length codes2)%nat with true
      by (symmetry; apply Nat.ltb_lt; lia).
    cbn. rewrite lookup_insert_eq, Hlen1. reflexivity.
Qed.

Lemma get_multiple_series_names_collide_witness :
  exists df,
    fst (get_multiple_series (UnionL := Demo.union) [3; 4; 5] O None None
           (snd (get_multiple_series (UnionL := Demo.union) [1; 2] O None None
                   (Demo.world_with [lit "a"]))))
    = Ok df
    /\ (columns df).*1 = [lit "a"; lit "unnamed_1"; lit "unnamed_1"]
    /\ heap (snd (get_multiple_series (UnionL := Demo.union) [3; 4; 5] O None None
                    (snd (get_multiple_series (UnionL := Demo.union) [1; 2] O
                            None None (Demo.world_with [lit "a"])))))
          !! O
       = Some [lit "a"; lit "unnamed_1"; lit "unnamed_1"].
Proof.
  destruct (fst (get_multiple_series (UnionL := Demo.union) [3; 4; 5] O None None
                   (snd (get_multiple_series (UnionL := Demo.union) [1; 2] O
                           None None (Demo.world_with [lit "a"])))))
    as [df|e] eqn:E.
  - destruct (get_multiple_series_names_collide (UnionL := Demo.union)
                (Demo.world_with [lit "a"]) [1; 2] [3; 4; 5] O [lit "a"]
                None None None None df eq_refl ltac:(cbn; lia) ltac:(cbn; lia) E)
      as (_ & Hc & _ & _ & Hh).
    exists df. split; [reflexivity|]. split; [exact Hc|].
    rewrite Hh, Hc. reflexivity.
  - vm_compute in E. discriminate E.
Defined.

(** ** create_query_url *)

Section query_url_edges.

(** Induction over a string two characters at a time, as the scan for the
    accented substrings goes. *)
Lemma pystr_ind2 (P : pystr -> Prop) :
  P [] -> (forall c, P [c]) ->
  (forall c c' s, P s -> P (c' :: s) -> P (c :: c' :: s)) ->
  forall s, P s.
Proof.
  intros H0 H1 H2 s.
  assert (G : P s /\ forall c, P (c :: s)).
  { induction s as [|c' s [IH IH']]; [split; auto|].
    split; [apply IH'|]. intros c. apply H2; [exact IH | apply IH']. }
  exact (proj1 G).
Qed.

Lemma escape_accents_step c s :
  Spec.escape_accents (c :: s)
  = if N.eqb c 226 then lit "%C3%A2" ++ Spec.escape_accents s
    else if N.eqb c 237 then lit "%C3%AD" ++ Spec.escape_accents s
    else if N.eqb c 231 then
      match s with
      | c' :: s'' =>
          if N.eqb c' 227 then lit "%C3%A7%C3%A3o" ++ Spec.escape_accents s''
          else c :: Spec.escape_accents s
      | [] => [c]
      end
    else c :: Spec.escape_accents s.
Proof. reflexivity. Qed.

(** The pass keeps every property of characters that the characters of
    the three escapes have. *)
Lemma escape_accents_Forall (P : N -> Prop) s :
  Forall P (lit "%C3%A7%C3%A3o") -> Forall P (lit "%C3%A2") ->
  Forall P (lit "%C3%AD") ->
  Forall P s -> Forall P (Spec.escape_accents s).
Proof.
  intros HA HB HC.
  induction s as [| c | c c' s IH IH'] using pystr_ind2; intros Hs.
  - constructor.
  - rewrite escape_accents_step.
    repeat match goal with |- context [N.eqb ?a ?b] => destruct (N.eqb a b) end;
      cbn [Spec.escape_accents]; rewrite ?app_nil_r; auto.
  - apply Forall_cons in Hs as [Hc Hs]. pose proof Hs as Hs'.
    apply Forall_cons in Hs' as [Hc' Hs'].
    rewrite escape_accents_step.
    destruct (N.eqb c 226); [apply Forall_app; auto|].
    destruct (N.eqb c 237); [apply Forall_app; auto|].
    destruct (N.eqb c 231); [|constructor; auto].
    destruct (N.eqb c' 227); [apply Forall_app; auto|].
    constructor; auto.
Qed.

Lemma escape_accents_free s :
  accent_free s = true -> Spec.escape_accents s = s.
Proof.
  induction s as [|c s IH]; [reflexivity|].
  cbn [accent_free]. intros Hf.
  repeat (apply andb_true_iff in Hf as [Hf ?]).
  rewrite escape_accents_step.
  apply negb_true_iff in Hf. rewrite Hf.
  match goal with H : negb (N.eqb c 237) = true |- _ =>
    apply negb_true_iff in H; rewrite H end.
  destruct (N.eqb c 231); [|rewrite IH; auto].
  destruct s as [|c' s'']; [reflexivity|].
  match goal with H : negb (true && _) = true |- _ =>
    cbn in H; apply negb_true_iff in H; rewrite H end.
  rewrite IH; auto.
Qed.

Lemma escape_accents_head s :
  match Spec.escape_accents s with c :: _ => N.eqb c 227 | [] => false end
  = match s with c :: _ => N.eqb c 227 | [] => false end.
Proof.
  destruct s as [|c s]; [reflexivity|]. rewrite escape_accents_step.
  destruct (N.eqb c 226) eqn:E1;
    [apply N.eqb_eq in E1; subst c; reflexivity|].
  destruct (N.eqb c 237) eqn:E2;
    [apply N.eqb_eq in E2; subst c; reflexivity|].
  destruct (N.eqb c 231) eqn:E3; [|reflexivity].
  apply N.eqb_eq in E3; subst c.
  destruct s as [|c' s'']; [reflexivity|].
  destruct (N.eqb c' 227); reflexivity.
Qed.

Lemma accent_free_escape s : accent_free (Spec.escape_accents s) = true.
Proof.
  induction s as [| c | c c' s IH IH'] using pystr_ind2.
  - reflexivity.
  - rewrite escape_accents_step.
    destruct (N.eqb c 226) eqn:E1; [reflexivity|].
    destruct (N.eqb c 237) eqn:E2; [reflexivity|].
    destruct (N.eqb c 231) eqn:E3; cbn; rewrite E1, E2, ?E3; reflexivity.
  - rewrite escape_accents_step.
    destruct (N.eqb c 226) eqn:E1; [exact IH'|].
    destruct (N.eqb c 237) eqn:E2; [exact IH'|].
    destruct (N.eqb c 231) eqn:E3.
    + destruct (N.eqb c' 227) eqn:E4; [exact IH|].
      cbn [accent_free]. rewrite E1, E2, IH'.
      rewrite (escape_accents_head (c' :: s)), E4, andb_false_r. reflexivity.
    + cbn [accent_free]. rewrite E1, E2, E3, IH'. reflexivity.
Qed.

(** The base URLs are ASCII without a space. *)
Lemma urls_dict_plain frequency base :
  urls_dict !! frequency = Some base ->
  Forall (fun c => c <> 32%N /\ (c < 128)%N) base.
Proof.
  intros Hb. apply elem_of_list_to_map_2 in Hb.
  assert (Hall : Forall (fun kv => Forall (fun c => c <> 32%N /\ (c < 128)%N) (snd kv))
                        urls_dict_entries).
  { apply (bool_decide_unpack _). vm_compute. reflexivity. }
  rewrite Forall_forall in Hall. exact (Hall _ Hb).
Qed.

Lemma percent20_no_space s : Forall (fun c => c <> 32%N) (Spec.percent20 s).
Proof.
  unfold Spec.percent20. induction s as [|c s IH]; [constructor|]. cbn.
  destruct (N.eqb c 32) eqn:E.
  - apply Forall_app. split; [|exact IH].
    apply (bool_decide_unpack _). vm_compute. reflexivity.
  - constructor; [apply N.eqb_neq; exact E | exact IH].
Qed.

Lemma create_query_url_shape frequency Indicators start end_ url :
  create_query_url frequency Indicators start end_ = Ok url ->
  exists base,
    urls_dict !! frequency = Some base
    /\ url = Spec.query_url base Indicators start end_.
Proof.
  unfold create_query_url at 1.
  destruct (urls_dict !! frequency) as [base|] eqn:Hb; [|discriminate].
  intros Hu. exists base. split; [reflexivity|].
  assert (Hk : create_query_url frequency Indicators start end_
               = Ok (Spec.query_url base Indicators start end_)).
  { unfold create_query_url. rewrite Hb. f_equal.
    rewrite replace_accents_one_pass, replace_space.
    unfold Spec.query_url. f_equal. f_equal.
    destruct Indicators as [[|i rest]|], start as [[|c1 s1]|], end_ as [[|c2 s2]|];
      reflexivity. }
  unfold create_query_url in Hk. rewrite Hb in Hk. congruence.
Qed.

End query_url_edges.

(** X12.  The URL that [create_query_url] returns never holds a space,
    whatever the indicators and the dates. *)
Theorem create_query_url_no_space frequency Indicators start end_ url :
  create_query_url frequency Indicators start end_ = Ok url ->
  32%N ∉ url.
Proof.
  intros Hu.
  destruct (create_query_url_shape _ _ _ _ _ Hu) as (base & Hb & ->).
  assert (Hall : Forall (fun c => c <> 32%N)
                   (Spec.query_url base Indicators start end_)).
  { unfold Spec.query_url. apply escape_accents_Forall.
    - apply (bool_decide_unpack _). vm_compute. reflexivity.
    - apply (bool_decide_unpack _). vm_compute. reflexivity.
    - apply (bool_decide_unpack _). vm_compute. reflexivity.
    - apply Forall_app. split.
      { eapply Forall_impl; [apply (urls_dict_plain _ _ Hb)|]. cbn. tauto. }
      apply Forall_app. split.
      { apply (bool_decide_unpack _). vm_compute. reflexivity. }
      apply Forall_app. split; [apply percent20_no_space|].
      apply (bool_decide_unpack _). vm_compute. reflexivity. }
  rewrite Forall_forall in Hall. intros Hin. exact (Hall _ Hin eq_refl).
Qed.

Lemma create_query_url_no_space_witness :
  32%N ∉ Spec.query_url
           (lit "https://olinda.bcb.gov.br/olinda/servico/Expectativas/versao/v1/odata/ExpectativasMercadoAnuais")
           (Some [lit "PIB Total"; lit "IPCA"]) (Some (lit "2021-01-01")) None.
Proof.
  apply (create_query_url_no_space (lit "annual")
           (Some [lit "PIB Total"; lit "IPCA"]) (Some (lit "2021-01-01")) None).
  vm_compute. reflexivity.
Defined.

(** X13.  None of the three accented substrings is left in the URL:
    running the three replacements of [create_query_url] on its result
    once more changes nothing. *)
Theorem create_query_url_patch_idempotent frequency Indicators start end_ url :
  create_query_url frequency Indicators start end_ = Ok url ->
  replace
    (replace (replace url a_circumflex (lit "%C3%A2"))
       c_cedilla_a_tilde (lit "%C3%A7%C3%A3o"))
    i_acute (lit "%C3%AD")
  = url
  /\ accent_free url = true.
Proof.
  intros Hu.
  destruct (create_query_url_shape _ _ _ _ _ Hu) as (base & Hb & ->).
  unfold Spec.query_url. rewrite replace_accents_one_pass.
  split; [apply escape_accents_free|]; apply accent_free_escape.
Qed.

Lemma create_query_url_patch_idempotent_witness :
  accent_free
    (Spec.query_url
       (lit "https://olinda.bcb.gov.br/olinda/servico/Expectativas/versao/v1/odata/ExpectativaMercadoMensais")
       (Some [lit "Produ" ++ c_cedilla_a_tilde ++ lit "o industrial";
              lit "C" ++ a_circumflex ++ lit "mbio"]) None None)
  = true.
Proof.
  apply (create_query_url_patch_idempotent (lit "monthly")
           (Some [lit "Produ" ++ c_cedilla_a_tilde ++ lit "o industrial";
                  lit "C" ++ a_circumflex ++ lit "mbio"]) None None).
  vm_compute. reflexivity.
Defined.

(** X14.  An empty list of indicators and an empty date string count as
    not given; and with no filter given the URL still carries the
    parameter [$filter=], empty. *)
Theorem create_query_url_empty_arguments frequency Indicators start end_ :
  create_query_url frequency (Some []) start end_
  = create_query_url frequency None start end_
  /\ create_query_url frequency Indicators (Some []) end_
     = create_query_url frequency Indicators None end_
  /\ create_query_url frequency Indicators start (Some [])
     = create_query_url frequency Indicators start None
  /\ forall base,
       urls_dict !! frequency = Some base ->
       create_query_url frequency None None None
       = Ok (base ++ lit "?$top=100000000&$filter=&$format=text/csv&$select="
                  ++ select).
Proof.
  split; [reflexivity|]. split; [reflexivity|]. split; [reflexivity|].
  intros base Hb.
  assert (Hu : create_query_url frequency None None None
               = Ok (Spec.escape_accents
                       (base ++ lit "?$top=100000000&$filter=&$format=text/csv&$select="
                             ++ select))).
  { unfold create_query_url. rewrite Hb. f_equal.
    rewrite replace_accents_one_pass. reflexivity. }
  rewrite Hu. f_equal. apply escape_accents_free.
  (* nothing to escape: the base URLs and the fixed query are ASCII *)
  assert (Hascii : forall t, Forall (fun c => (c < 128)%N) t -> accent_free t = true).
  { induction t as [|c t IH]; [reflexivity|]. intros Ht.
    apply Forall_cons in Ht as [Hc Ht]. cbn [accent_free].
    rewrite (IH Ht).
    replace (N.eqb c 226) with false by (symmetry; apply N.eqb_neq; lia).
    replace (N.eqb c 237) with false by (symmetry; apply N.eqb_neq; lia).
    replace (N.eqb c 231) with false by (symmetry; apply N.eqb_neq; lia).
    reflexivity. }
  apply Hascii, Forall_app. split.
  - eapply Forall_impl; [apply (urls_dict_plain _ _ Hb)|]. cbn. tauto.
  - apply (bool_decide_unpack _). vm_compute. reflexivity.
Qed.

(** ** get_market_expectations *)

Section expectations_edges.

Lemma column_kept_refl df : Forall2 column_kept df df.
Proof. apply Forall2_same_length_lookup_2; [reflexivity|].
  intros i x y Hx Hy. rewrite Hx in Hy. injection Hy as <-. repeat split. Qed.

Lemma column_kept_trans (a b c : table) :
  Forall2 column_kept a b -> Forall2 column_kept b c -> Forall2 column_kept a c.
Proof.
  intros Hab. revert c. induction Hab as [|x y a b Hxy _ IH]; intros c Hbc.
  - inversion Hbc. constructor.
  - inversion Hbc as [|y' z b' c' Hyz Hbc']; subst. constructor; [|apply IH; exact Hbc'].
    destruct Hxy as (Hn & Hl & Hs), Hyz as (Hn' & Hl' & Hs').
    split; [congruence|]. split; [congruence|].
    intros H1 H2. rewrite Hs' by congruence. apply Hs; assumption.
Qed.

(** Assigning to a column that is there replaces it in place. *)
Lemma setitem_kept df c old vals :
  c = lit "Data" \/ c = lit "DataReferencia" ->
  Expect.getitem df c = Ok old ->
  length vals = length old ->
  Forall2 column_kept df (Expect.setitem df c vals).
Proof.
  intros Hc. unfold Expect.getitem, Expect.setitem.
  induction df as [|[h v] df IH]; intros Hget Hlen; [discriminate Hget|].
  cbn [Frame.set_column]. cbn in Hget.
  destruct (decide (h = c)) as [->|Hne].
  - injection Hget as <-. constructor; [|apply column_kept_refl].
    split; [reflexivity|]. split; [exact Hlen|]. cbn.
    intros H1 H2. destruct Hc; congruence.
  - constructor; [repeat split|]. apply IH; [|exact Hlen].
    destruct (list_find (fun col => col.1 = c) df) as [[i [h' v']]|];
      cbn in Hget |- *; [exact Hget | discriminate Hget].
Qed.

Lemma getitem_setitem_eq df c old vals :
  Expect.getitem df c = Ok old ->
  Expect.getitem (Expect.setitem df c vals) c = Ok vals.
Proof.
  unfold Expect.getitem, Expect.setitem.
  induction df as [|[h v] df IH]; intros Hget; [discriminate Hget|].
  cbn [Frame.set_column]. cbn in Hget.
  destruct (decide (h = c)) as [->|Hne].
  - cbn. destruct (decide (c = c)); [reflexivity | congruence].
  - cbn. destruct (decide (h = c)); [contradiction|].
    assert (Hs : Expect.getitem df c = Ok old).
    { unfold Expect.getitem.
      destruct (list_find (fun col => col.1 = c) df) as [[i [h' v']]|];
        cbn in Hget |- *; [exact Hget | discriminate Hget]. }
    specialize (IH Hs). unfold Expect.getitem in IH.
    destruct (list_find (fun col => col.1 = c) (Frame.set_column df c vals))
      as [[i [h' v']]|]; cbn in IH |- *; [exact IH | discriminate IH].
Qed.

Lemma get_market_expectations_run frequency Indicators start end_ url w :
  create_query_url frequency Indicators start end_ = Ok url ->
  get_market_expectations frequency Indicators start end_ w
  = (df ← server w (requests w) url; normalize frequency df, logged w url).
Proof.
  intros Hurl.
  unfold get_market_expectations, normalize, mbind, M_bind, read_csv, lift,
    mret, M_ret, logged.
  rewrite Hurl.
  destruct (server w (requests w) url) as [df|e]; [|reflexivity].
  unfold result_bind, rbind.
  destruct (Expect.getitem df (lit "Data")) as [data|]; [|reflexivity].
  destruct (Pd.to_datetime_default data) as [data'|]; [|reflexivity].
  set (df' := Expect.setitem df (lit "Data") data').
  destruct (decide (frequency = lit "monthly")).
  { destruct (Expect.getitem df' (lit "DataReferencia")) as [ref|]; [|reflexivity].
    destruct (Pd.to_datetime Pd.fmt_mY ref); reflexivity. }
  destruct (decide (frequency = lit "annual")).
  { destruct (Expect.getitem df' (lit "DataReferencia")) as [ref|]; [|reflexivity].
    destruct (Pd.to_datetime Pd.fmt_Y ref); reflexivity. }
  destruct (decide (frequency = lit "quarterly")); [|reflexivity].
  destruct (Expect.getitem df' (lit "DataReferencia")) as [ref|]; [|reflexivity].
  destruct (rmap (Expect.prepend_cell (lit "Q")) ref) as [q1|]; [|reflexivity].
  destruct (rmap (Expect.str_replace_cell (lit "/") (lit " ")) q1) as [q2|];
    [|reflexivity].
  destruct (rmap Expect.sub_quarter_cell q2) as [q3|]; [|reflexivity].
  destruct (rmap Expect.quarter_start_cell q3); reflexivity.
Qed.

Lemma normalize_kept frequency df out :
  normalize frequency df = Ok out -> Forall2 column_kept df out.
Proof.
  unfold normalize, mbind, result_bind, rbind.
  destruct (Expect.getitem df (lit "Data")) as [data|] eqn:Hdata; [|discriminate].
  destruct (Pd.to_datetime_default data) as [data'|] eqn:Hparse; [|discriminate].
  pose proof (rmap_length _ _ _ Hparse) as Hlen.
  pose proof (setitem_kept df (lit "Data") data data' (or_introl eq_refl) Hdata Hlen)
    as Hk1.
  set (df' := Expect.setitem df (lit "Data") data') in *.
  assert (Hstep : forall ref ref',
            Expect.getitem df' (lit "DataReferencia") = Ok ref ->
            length ref' = length ref ->
            Forall2 column_kept df (Expect.setitem df' (lit "DataReferencia") ref')).
  { intros ref ref' Hr Hl. eapply column_kept_trans; [exact Hk1|].
    eapply setitem_kept; eauto. }
  destruct (decide (frequency = lit "monthly")).
  { destruct (Expect.getitem df' (lit "DataReferencia")) as [ref|] eqn:Hr;
      [|discriminate].
    destruct (Pd.to_datetime Pd.fmt_mY ref) as [ref'|] eqn:Hp; [|discriminate].
    intros [= <-]. eapply Hstep; [reflexivity|]. eapply rmap_length; eauto. }
  destruct (decide (frequency = lit "annual")).
  { destruct (Expect.getitem df' (lit "DataReferencia")) as [ref|] eqn:Hr;
      [|discriminate].
    destruct (Pd.to_datetime Pd.fmt_Y ref) as [ref'|] eqn:Hp; [|discriminate].
    intros [= <-]. eapply Hstep; [reflexivity|]. eapply rmap_length; eauto. }
  destruct (decide (frequency = lit "quarterly")); [|intros [= <-]; exact Hk1].
  destruct (Expect.getitem df' (lit "DataReferencia")) as [ref|] eqn:Hr;
    [|discriminate].
  destruct (rmap (Expect.prepend_cell (lit "Q")) ref) as [q1|] eqn:H1; [|discriminate].
  destruct (rmap (Expect.str_replace_cell (lit "/") (lit " ")) q1) as [q2|] eqn:H2;
    [|discriminate].
  destruct (rmap Expect.sub_quarter_cell q2) as [q3|] eqn:H3; [|discriminate].
  destruct (rmap Expect.quarter_start_cell q3) as [q4|] eqn:H4; [|discriminate].
  intros [= <-]. eapply Hstep; [reflexivity|].
  rewrite (rmap_length _ _ _ H4), (rmap_length _ _ _ H3), (rmap_length _ _ _ H2).
  eapply rmap_length; eauto.
Qed.

End expectations_edges.

(** X15.  For a frequency of the table, [get_market_expectations] makes
    exactly one request, to the URL that [create_query_url] builds,
    whether the payload is accepted or not; it touches no list object. *)
Theorem get_market_expectations_one_request frequency Indicators start end_ url w :
  create_query_url frequency Indicators start end_ = Ok url ->
  snd (get_market_expectations frequency Indicators start end_ w) = logged w url.
Proof.
  intros Hurl. rewrite (get_market_expectations_run _ _ _ _ _ _ Hurl). reflexivity.
Qed.

Lemma get_market_expectations_one_request_witness :
  snd (get_market_expectations (lit "institutions") None None None
         Demo.expectations_world)
  = logged Demo.expectations_world
      (Spec.query_url
         (lit "https://olinda.bcb.gov.br/olinda/servico/Expectativas/versao/v1/odata/ExpectativasMercadoInstituicoes")
         None None None).
Proof.
  apply (get_market_expectations_one_request (lit "institutions") None None None).
  vm_compute. reflexivity.
Defined.

(** X16.  What [get_market_expectations] returns has the columns of the
    payload, under the same names, in the same order and of the same
    length; every column other than [Data] and [DataReferencia] is
    returned as it was received. *)
Theorem get_market_expectations_columns frequency Indicators start end_ url w df out :
  create_query_url frequency Indicators start end_ = Ok url ->
  server w (requests w) url = Ok df ->
  fst (get_market_expectations frequency Indicators start end_ w) = Ok out ->
  Forall2 column_kept df out.
Proof.
  intros Hurl Hsrv. rewrite (get_market_expectations_run _ _ _ _ _ _ Hurl).
  cbn [fst]. rewrite Hsrv. apply normalize_kept.
Qed.

Lemma get_market_expectations_columns_witness :
  exists out,
    fst (get_market_expectations (lit "monthly") None None None
           Demo.expectations_world) = Ok out
    /\ Forall2 column_kept Demo.expectations out.
Proof.
  eexists. split; [lazy; reflexivity|].
  eapply (get_market_expectations_columns (lit "monthly") None None None _
            Demo.expectations_world);
    lazy; reflexivity.
Defined.

(** X17.  A payload without a [Data] column makes every frequency raise
    [KeyError].  One without a [DataReferencia] column makes the monthly,
    annual and quarterly frequencies raise [KeyError], and is accepted by
    the others. *)
Theorem get_market_expectations_missing_column
    frequency Indicators start end_ url w df :
  create_query_url frequency Indicators start end_ = Ok url ->
  server w (requests w) url = Ok df ->
  (Expect.getitem df (lit "Data") = Err Pd.KeyError ->
     fst (get_market_expectations frequency Indicators start end_ w)
     = Err Pd.KeyError)
  /\ (forall data data',
        Expect.getitem df (lit "Data") = Ok data ->
        Pd.to_datetime_default data = Ok data' ->
        Expect.getitem df (lit "DataReferencia") = Err Pd.KeyError ->
        fst (get_market_expectations frequency Indicators start end_ w)
        = if decide (frequency = lit "monthly" \/ frequency = lit "annual"
                     \/ frequency = lit "quarterly")
          then Err Pd.KeyError
          else Ok (Expect.setitem df (lit "Data") data')).
Proof.
  intros Hurl Hsrv. rewrite (get_market_expectations_run _ _ _ _ _ _ Hurl).
  cbn [fst]. rewrite Hsrv. unfold normalize, mbind, result_bind, rbind. split.
  - intros ->. reflexivity.
  - intros data data' Hdata Hparse Href. rewrite Hdata, Hparse.
    rewrite getitem_setitem_ne, Href; [|discriminate|].
    2:{ unfold Expect.getitem in Hdata.
        destruct (list_find (fun col => col.1 = lit "Data") df);
          [eauto | discriminate Hdata]. }
    destruct (decide (frequency = lit "monthly")) as [->|H1].
    { destruct (decide _) as [_|Hn]; [reflexivity | exfalso; apply Hn; auto]. }
    destruct (decide (frequency = lit "annual")) as [->|H2].
    { destruct (decide _) as [_|Hn]; [reflexivity | exfalso; apply Hn; auto]. }
    destruct (decide (frequency = lit "quarterly")) as [->|H3].
    { destruct (decide _) as [_|Hn]; [reflexivity | exfalso; apply Hn; auto]. }
    destruct (decide _) as [[|[|]]|_]; try contradiction. reflexivity.
Qed.

Lemma get_market_expectations_missing_column_witness :
  fst (get_market_expectations (lit "annual") None None None Demo.surveys_world)
  = Err Pd.KeyError.
Proof.
  destruct (get_market_expectations_missing_column (lit "annual") None None None
              (Spec.query_url
                 (lit "https://olinda.bcb.gov.br/olinda/servico/Expectativas/versao/v1/odata/ExpectativasMercadoAnuais")
                 None None None)
              Demo.surveys_world Demo.surveys) as [_ Href].
  - vm_compute. reflexivity.
  - reflexivity.
  - etrans.
    + apply (Href [Str (lit "2021-01-04"); Str (lit "2021-01-05")]
               [Stamp (mkdate 2021 1 4); Stamp (mkdate 2021 1 5)]);
        vm_compute; reflexivity.
    + vm_compute. reflexivity.
Defined.

(** X24.  Only the monthly, annual and quarterly frequencies have their
    reference dates parsed.  For any other frequency of the table, the
    two top-5 ones included, only [Data] is turned into timestamps: the
    column [DataReferencia] is returned as it was received. *)
Theorem get_market_expectations_reference_untouched
    frequency Indicators start end_ url w df data data' :
  create_query_url frequency Indicators start end_ = Ok url ->
  frequency <> lit "monthly" ->
  frequency <> lit "annual" ->
  frequency <> lit "quarterly" ->
  server w (requests w) url = Ok df ->
  Expect.getitem df (lit "Data") = Ok data ->
  Pd.to_datetime_default data = Ok data' ->
  exists out,
    fst (get_market_expectations frequency Indicators start end_ w) = Ok out
    /\ out = Expect.setitem df (lit "Data") data'
    /\ Expect.getitem out (lit "DataReferencia")
       = Expect.getitem df (lit "DataReferencia").
Proof.
  intros Hurl Hm Ha Hq Hsrv Hdata Hparse.
  rewrite (get_market_expectations_run _ _ _ _ _ _ Hurl).
  cbn [fst]. rewrite Hsrv. unfold normalize, mbind, result_bind, rbind.
  rewrite Hdata, Hparse.
  destruct (decide (frequency = lit "monthly")); [contradiction|].
  destruct (decide (frequency = lit "annual")); [contradiction|].
  destruct (decide (frequency = lit "quarterly")); [contradiction|].
  eexists. split; [reflexivity|]. split; [reflexivity|].
  apply getitem_setitem_ne; [discriminate|].
  unfold Expect.getitem in Hdata.
  destruct (list_find (fun col => col.1 = lit "Data") df);
    [eauto | discriminate Hdata].
Qed.

Lemma get_market_expectations_reference_untouched_witness :
  exists out,
    fst (get_market_expectations (lit "top5s-monthly") None None None
           Demo.expectations_world) = Ok out
    /\ Expect.getitem out (lit "DataReferencia")
       = Ok [Str (lit "2/2021"); Str (lit "4/2022")].
Proof.
  destruct (get_market_expectations_reference_untouched
              (lit "top5s-monthly") None None None
              (Spec.query_url
                 (lit "https://olinda.bcb.gov.br/olinda/servico/Expectativas/versao/v1/odata/ExpectativasMercadoTop5Mensais")
                 None None None)
              Demo.expectations_world Demo.expectations
              [Str (lit "2021-01-04"); Str (lit "2021-01-05")]
              [Stamp (mkdate 2021 1 4); Stamp (mkdate 2021 1 5)])
    as (out & Hout & _ & Href);
    try (vm_compute; reflexivity); try (vm_compute; discriminate).
  exists out. split; [exact Hout|]. rewrite Href. vm_compute. reflexivity.
Defined.

(** ** mom2index *)

(** X18.  [mom2index] has nothing to rebase in a series without a value
    that is not missing, an empty one included: it raises [IndexError].
    So does a table whose first column is such a series.  A table without
    columns gives the empty frame. *)
Theorem mom2index_nothing_to_rebase {L T : Type} {EqL : EqDecision L}
    {UnionL : IndexUnion L} {NumT : Numeric T} :
  (forall s : Series L T,
     Forall (fun row => isna (snd row) = true) (items s) ->
     mom2index (PSeries s) = Err Pd.IndexError)
  /\ (forall idx c vals cols,
        Forall (fun x => isna x = true) vals ->
        NoDup (c :: cols.*1) ->
        mom2index (PFrame (mkFrame idx ((c, vals) :: cols))) = Err Pd.IndexError)
  /\ (forall idx : list L,
        mom2index (PFrame (mkFrame idx [])) = Ok (PFrame Frame.empty)).
Proof.
  assert (Hdrop : forall rows : list (L * T),
            Forall (fun row => isna (snd row) = true) rows ->
            List.filter (fun row => negb (isna (snd row))) rows = []).
  { induction 1 as [|row rows Hrow _ IH]; [reflexivity|].
    cbn. rewrite Hrow. exact IH. }
  assert (Hser : forall s : Series L T,
            Forall (fun row => isna (snd row) = true) (items s) ->
            _mom2index s = Err Pd.IndexError).
  { intros s Hall. unfold _mom2index, dropna. cbn [items].
    rewrite (Hdrop _ Hall). reflexivity. }
  split; [|split].
  - intros s Hall. unfold mom2index. rewrite (Hser s Hall). reflexivity.
  - intros idx c vals cols Hall Hnd. unfold mom2index. cbn [columns].
    destruct (decide (NoDup (map fst ((c, vals) :: cols)))) as [_|Hn];
      [|contradiction].
    cbn [rfold]. rewrite Hser; [reflexivity|].
    unfold column_series. cbn [items fst snd index].
    clear Hnd. revert idx. induction Hall as [|x vals Hx _ IH]; intros [|l idx];
      try constructor; auto.
  - intros idx. unfold mom2index. cbn [columns map].
    destruct (decide (NoDup [])) as [_|Hn]; [reflexivity|].
    destruct Hn. constructor.
Qed.

Section exact_index.
Context {L : Type}.

Lemma exact_mul_div_comm (x a p : exact) :
  div (mul x a) p = mul (div x p) a.
Proof.
  destruct x as [x|], a as [a|], p as [p|]; cbn; try reflexivity.
  - destruct (Qc_eq_dec p 0%Qc); [reflexivity|]. cbn. f_equal.
    unfold Qcdiv. ring.
  - destruct (Qc_eq_dec p 0%Qc); reflexivity.
Qed.

Lemma exact_fold_div (l : list exact) : forall x p,
  div (fold_left mul l x) p = fold_left mul l (div x p).
Proof.
  induction l as [|a l IH]; intros x p; [reflexivity|].
  cbn [fold_left]. rewrite IH, exact_mul_div_comm. reflexivity.
Qed.

Lemma exact_div_same (q : Qc) : q <> 0%Qc -> div (Some q) (Some q) = Some 1%Qc.
Proof.
  intros Hq. cbn. destruct (Qc_eq_dec q 0%Qc); [contradiction|].
  f_equal. apply Qcmult_inv_r. exact Hq.
Qed.

(** Computed exactly, the index is the running product of the changes
    after the first. *)
Lemma _mom2index_exact (s : Series L exact) l0 v0 rest q :
  items (dropna s) = (l0, v0) :: rest ->
  add v0 one = Some q -> q <> 0%Qc ->
  exists r,
    _mom2index s = Ok r
    /\ (items r).*1 = l0 :: rest.*1
    /\ length (items r) = S (length rest)
    /\ forall k, (k <= length rest)%nat ->
         (items r).*2 !! k
         = Some (fold_left mul (take k (map (fun x => add x one) rest.*2))
                           (Some 1%Qc)).
Proof.
  intros Hk Hp Hq.
  destruct (_mom2index_values s l0 v0 rest Hk) as (r & Hr & _ & Hl & Hn & Hv).
  exists r. split; [exact Hr|]. split; [exact Hl|]. split; [exact Hn|].
  intros k Hkr. rewrite (Hv k Hkr), exact_fold_div, Hp, exact_div_same by exact Hq.
  reflexivity.
Qed.

End exact_index.

(** X19.  Computed without rounding, the first change drops out of the
    index: for a series whose first value not missing is [v0], with
    [1 + v0] not zero, the index at position [k] is the product of
    [1 + value] over the [k] values that follow [v0]; so it starts at 1. *)
Theorem mom2index_first_change_drops_out {L : Type} {EqL : EqDecision L}
    {UnionL : IndexUnion L} (s : Series L exact) l0 v0 rest q :
  items (dropna s) = (l0, v0) :: rest ->
  add v0 one = Some q -> q <> 0%Qc ->
  exists r,
    mom2index (PSeries s) = Ok (PSeries r)
    /\ (items r).*1 = l0 :: rest.*1
    /\ forall k, (k <= length rest)%nat ->
         (items r).*2 !! k
         = Some (fold_left mul (take k (map (fun x => add x one) rest.*2))
                           (Some 1%Qc)).
Proof.
  intros Hk Hp Hq.
  destruct (_mom2index_exact s l0 v0 rest q Hk Hp Hq) as (r & Hr & Hl & _ & Hv).
  exists r. split; [|auto]. unfold mom2index. rewrite Hr. reflexivity.
Qed.

Lemma mom2index_first_change_drops_out_witness :
  exists r,
    mom2index (UnionL := Demo.union) (PSeries Demo.doubling) = Ok (PSeries r)
    /\ (items r).*1 = seq 0 13
    /\ (items r).*2 !! 0%nat = Some (Some 1%Qc).
Proof.
  destruct (mom2index_first_change_drops_out (UnionL := Demo.union)
              Demo.doubling O (Some 1%Qc)
              (zip (seq 1 12) (replicate 12 (Some 1%Qc))) (Q2Qc 2))
    as (r & Hr & Hl & Hv).
  - reflexivity.
  - cbn. f_equal; try (apply Qc_is_canon; reflexivity).
  - discriminate.
  - exists r. split; [exact Hr|]. split; [exact Hl|].
    exact (Hv O ltac:(cbn; lia)).
Defined.

(** ** index2yoy and mom2yoy *)

Lemma yoy_values_column {T : Type} {NumT : Numeric T} {LawsT : NanLaws T}
    (values : list T) :
  yoy_column values (yoy_values values).
Proof.
  split; [apply yoy_values_length|].
  intros t x Hx. destruct (yoy_values_lookup values t x Hx) as [Hlt Hge].
  split; [exact Hge|].
  intros Ht. eexists. split; [apply Hlt; exact Ht|].
  apply isna_sub_l, isna_div_r, isna_nan.
Qed.

(** X20.  For a table, [index2yoy] keeps the row labels and the column
    names, and works column by column: in every column the value at row
    [t >= 12] is the column's value at [t] over its value at [t - 12]
    less one, and the first twelve rows are missing. *)
Theorem index2yoy_table {L T : Type} {NumT : Numeric T} {LawsT : NanLaws T}
    (f : DataFrame L T) :
  exists g,
    index2yoy (PFrame f) = PFrame g
    /\ index g = index f
    /\ Forall2 (fun col ocol =>
                  fst ocol = fst col /\ yoy_column (snd col) (snd ocol))
               (columns f) (columns g).
Proof.
  eexists. split; [reflexivity|]. cbn [index columns]. split; [reflexivity|].
  apply Forall2_fmap_r, Forall2_same_length_lookup_2; [reflexivity|].
  intros i col col' Hc Hc'. rewrite Hc in Hc'. injection Hc' as <-.
  cbn. split; [reflexivity | apply yoy_values_column].
Qed.

Lemma index2yoy_table_witness :
  exists g,
    index2yoy (PFrame (mkFrame (seq 0 14) [(lit "index", (items Demo.fourteen).*2)]))
    = PFrame g
    /\ index g = seq 0 14
    /\ (columns g).*1 = [lit "index"].
Proof.
  destruct (index2yoy_table
              (mkFrame (seq 0 14) [(lit "index", (items Demo.fourteen).*2)]))
    as (g & Hg & Hi & Hc).
  exists g. split; [exact Hg|]. split; [exact Hi|].
  cbn [columns] in Hc. inversion Hc as [|col ocol cols ocols [Hn _] Hrest]; subst.
  inversion Hrest; subst. cbn. rewrite Hn. reflexivity.
Defined.

(** X21.  A series of at most twelve observations has a result of the
    same length that is missing throughout. *)
Theorem index2yoy_short_series {L T : Type} {NumT : Numeric T}
    {LawsT : NanLaws T} (s : Series L T) :
  (length (items s) <= 12)%nat ->
  exists r,
    index2yoy (PSeries s) = PSeries r
    /\ length (items r) = length (items s)
    /\ Forall (fun row => isna (snd row) = true) (items r).
Proof.
  intros Hlen. eexists. split; [reflexivity|]. cbn [items].
  destruct (yoy_values_column (map snd (items s))) as [Hl Hpos].
  assert (Hzl : length (zip (map fst (items s)) (yoy_values (map snd (items s))))
                = length (items s)).
  { rewrite length_zip, Hl, !length_map. lia. }
  split; [exact Hzl|].
  apply Forall_lookup_2. intros t [l y] Hrow.
  pose proof (lookup_lt_Some _ _ _ Hrow) as Ht. rewrite Hzl in Ht.
  apply lookup_zip_with_Some in Hrow as (l' & y' & [= <- <-] & _ & Hy).
  destruct (lookup_lt_is_Some_2 (map snd (items s)) t) as [x Hx];
    [rewrite length_map; lia|].
  destruct (Hpos t x Hx) as [_ Hlt].
  destruct (Hlt ltac:(lia)) as (y0 & Hy0 & Hna).
  rewrite Hy in Hy0. injection Hy0 as <-. exact Hna.
Qed.

Lemma index2yoy_short_series_witness :
  exists r,
    index2yoy (PSeries (Demo.series_of [1; 2; 4]%float)) = PSeries r
    /\ length (items r) = 3%nat
    /\ Forall (fun row => PrimFloat.is_nan (snd row) = true) (items r).
Proof.
  destruct (index2yoy_short_series (Demo.series_of [1; 2; 4]%float)
              ltac:(cbn; lia)) as (r & Hr & Hl & Hall).
  exists r. split; [exact Hr|]. split; [exact Hl | exact Hall].
Defined.

(** X22.  In binary64, an index that stands twelve rows later exactly
    where it stood, at a finite value other than zero, has a
    year-over-year change of exactly [0.0] there. *)
Theorem index2yoy_unchanged {L : Type} (s : Series L float) t x :
  (items s).*2 !! t = Some x ->
  (12 <= t)%nat ->
  (items s).*2 !! (t - 12)%nat = Some x ->
  PrimFloat.is_finite x = true ->
  PrimFloat.is_zero x = false ->
  exists r,
    index2yoy (PSeries s) = PSeries r
    /\ (items r).*2 !! t = Some 0%float.
Proof.
  intros Hx Ht Hx12 Hfin Hnz. eexists. split; [reflexivity|]. cbn [items].
  destruct (yoy_values_lookup (map snd (items s)) t x Hx) as [_ Hge].
  destruct (Hge Ht) as (x12 & Hx12' & Hy).
  change (map snd (items s)) with ((items s).*2) in Hx12'.
  rewrite Hx12 in Hx12'. injection Hx12' as <-.
  rewrite snd_zip by (rewrite yoy_values_length, !length_map; lia).
  rewrite Hy. cbn [sub div one float64].
  rewrite float_div_self by assumption. reflexivity.
Qed.

Lemma index2yoy_unchanged_witness :
  exists r,
    index2yoy (PSeries (Demo.series_of (replicate 13 100%float))) = PSeries r
    /\ (items r).*2 !! 12%nat = Some 0%float.
Proof.
  apply (index2yoy_unchanged (Demo.series_of (replicate 13 100%float))
           12%nat 100%float); reflexivity.
Defined.

Section exact_yoy.
Context {L : Type}.

Lemma exact_mul_assoc (x y z : exact) : mul (mul x y) z = mul x (mul y z).
Proof.
  destruct x, y, z; cbn; try reflexivity. f_equal. ring.
Qed.

Lemma exact_mul_one_l (x : exact) : mul (Some 1%Qc) x = x.
Proof. destruct x; cbn; [f_equal; ring | reflexivity]. Qed.

Lemma exact_fold_mul (l : list exact) : forall x,
  fold_left mul l x = mul x (fold_left mul l (Some 1%Qc)).
Proof.
  induction l as [|a l IH]; intros x.
  - destruct x; cbn; [f_equal; ring | reflexivity].
  - cbn [fold_left]. rewrite IH, (IH (mul (Some 1%Qc) a)).
    rewrite exact_mul_one_l, exact_mul_assoc. reflexivity.
Qed.

Lemma exact_fold_nonzero (l : list exact) : forall x,
  exact_nonzero x -> Forall exact_nonzero l ->
  exact_nonzero (fold_left mul l x).
Proof.
  induction l as [|a l IH]; intros x Hx Hall; [exact Hx|].
  apply Forall_cons in Hall as [Ha Hall]. cbn [fold_left]. apply IH; [|exact Hall].
  destruct Hx as (q & -> & Hq), Ha as (b & -> & Hb). cbn.
  eexists. split; [reflexivity|]. intros Hz.
  destruct (Qcmult_integral _ _ Hz); contradiction.
Qed.

Lemma exact_div_mul_cancel (x w : exact) :
  exact_nonzero x -> div (mul x w) x = w.
Proof.
  intros (q & -> & Hq). destruct w as [w|]; cbn; [|reflexivity].
  destruct (Qc_eq_dec q 0%Qc); [contradiction|]. f_equal.
  rewrite (Qcmult_comm q w). apply Qcdiv_mult_l. exact Hq.
Qed.

(** The ratio of the exact index at [t] to the index twelve rows up is
    the product of the twelve factors in between. *)
Lemma exact_window (factors : list exact) t :
  (12 <= t)%nat ->
  Forall exact_nonzero (take (t - 12) factors) ->
  div (fold_left mul (take t factors) (Some 1%Qc))
      (fold_left mul (take (t - 12) factors) (Some 1%Qc))
  = fold_left mul (take 12 (drop (t - 12) factors)) (Some 1%Qc).
Proof.
  intros Ht Hall.
  replace t with ((t - 12) + 12)%nat at 1 by lia.
  rewrite <- take_take_drop, fold_left_app, exact_fold_mul.
  apply exact_div_mul_cancel, exact_fold_nonzero; [|exact Hall].
  exists 1%Qc. split; [reflexivity | discriminate].
Qed.

End exact_yoy.

(** X23.  Computed without rounding, [mom2yoy] compounds twelve monthly
    changes: for a series whose changes have [1 + value] not zero, the
    result at position [t >= 12] is the product of [1 + value] over the
    twelve values up to [t], less one.  Positions count the values that
    are not missing: the result is laid out over their labels. *)
Theorem mom2yoy_compounds_twelve_changes {L : Type} {EqL : EqDecision L}
    {UnionL : IndexUnion L} (s : Series L exact) l0 v0 rest t :
  items (dropna s) = (l0, v0) :: rest ->
  Forall (fun v => exact_nonzero (add v one)) (v0 :: rest.*2) ->
  (12 <= t <= length rest)%nat ->
  exists r,
    mom2yoy (PSeries s) = Ok (PSeries r)
    /\ (items r).*1 = l0 :: rest.*1
    /\ (items r).*2 !! t
       = Some (sub (fold_left mul
                      (take 12 (drop (t - 12)
                                  (map (fun x => add x one) rest.*2)))
                      (Some 1%Qc))
                   one).
Proof.
  intros Hk Hall [Ht Htr].
  apply Forall_cons in Hall as [(q & Hp & Hq) Hall].
  destruct (_mom2index_exact s l0 v0 rest q Hk Hp Hq) as (r0 & Hr0 & Hl0 & Hn0 & Hv).
  set (factors := map (fun x => add x one) rest.*2) in *.
  eexists. split.
  { unfold mom2yoy, mom2index. rewrite Hr0. reflexivity. }
  cbn [index2yoy items].
  assert (Hlen : length (map fst (items r0)) = length (yoy_values (map snd (items r0))))
    by (rewrite yoy_values_length, !length_map; reflexivity).
  split.
  { rewrite fst_zip by (apply Nat.eq_le_incl; exact Hlen). exact Hl0. }
  rewrite snd_zip by (apply Nat.eq_le_incl; symmetry; exact Hlen).
  destruct (yoy_values_lookup (map snd (items r0)) t _ (Hv t Htr)) as [_ Hge].
  destruct (Hge Ht) as (x12 & Hx12 & Hy).
  change (map snd (items r0)) with ((items r0).*2) in Hx12.
  rewrite (Hv (t - 12)%nat ltac:(lia)) in Hx12. injection Hx12 as <-.
  rewrite Hy. do 2 f_equal.
  apply exact_window; [exact Ht|].
  apply Forall_take. unfold factors. apply List.Forall_map. exact Hall.
Qed.

Lemma mom2yoy_compounds_twelve_changes_witness :
  exists r,
    mom2yoy (UnionL := Demo.union) (PSeries Demo.doubling) = Ok (PSeries r)
    /\ (items r).*1 = seq 0 13
    /\ (items r).*2 !! 12%nat
       = Some (sub (fold_left mul (replicate 12 (Some (Q2Qc 2))) (Some 1%Qc)) one).
Proof.
  destruct (mom2yoy_compounds_twelve_changes (UnionL := Demo.union)
              Demo.doubling O (Some 1%Qc)
              (zip (seq 1 12) (replicate 12 (Some 1%Qc))) 12)
    as (r & Hr & Hl & Hv).
  - reflexivity.
  - apply Forall_forall. intros v Hv.
    exists (Q2Qc 2). split; [|discriminate].
    assert (Hone : v = Some 1%Qc).
    { revert v Hv. apply Forall_forall. repeat constructor. }
    subst v. cbn. f_equal; try (apply Qc_is_canon; reflexivity).
  - cbn. lia.
  - exists r. split; [exact Hr|]. split; [exact Hl|].
    etrans; [exact Hv|]. do 2 f_equal.
Defined.
